(** * Scalar function spaces of bempp-cl: DOF maps and surface gradients

    A shallow embedding of [bempp/api/space/scalar_spaces.py].  NumPy arrays
    are lists (two-dimensional arrays are lists of rows), Python exceptions
    are the [Raise] results of an error monad, and the one loop of the file
    whose iteration space grows while it runs, the working-list traversal of
    [_compute_p1_dof_map], takes fuel.

    Indexing follows Python and NumPy: an index out of range raises
    [IndexError], a negative index counts from the end.  Integers stored in
    [int32] and [uint32] arrays wrap around.  The multipliers, which are the
    floats 0.0 and 1.0, are kept as the integers 0 and 1.  The surface
    gradient evaluator is written over an arbitrary arithmetic; where a
    statement is about [float64], it is taken at the binary64 floats of the
    Standard Library. *)

From stdpp Require Import prelude strings.
From Stdlib Require Import ZArith Lia.
From Stdlib Require Import Floats.

Local Open Scope Z_scope.
Local Open Scope nat_scope.

Set Warnings "-clear-no-such-hyp".

(** ** Exceptions and the error monad *)

Inductive exn : Type :=
| IndexError
| ValueError.

Inductive result (A : Type) : Type :=
| Ok (a : A)
| Raise (e : exn).

Arguments Ok {A} a.
Arguments Raise {A} e.

Definition bind {A B : Type} (m : result A) (k : A → result B) : result B :=
  match m with
  | Ok a => k a
  | Raise e => Raise e
  end.

Notation "'do' x <- m ; k" := (bind m (fun x => k))
  (at level 10, x name, m at level 100, k at level 200).

Fixpoint foldM {A S : Type} (f : A → S → result S) (l : list A) (s : S) : result S :=
  match l with
  | [] => Ok s
  | x :: rest => do s' <- f x s; foldM f rest s'
  end.

(** ** NumPy primitives *)

Module NumPy.

(** [a[i]] for an unsigned index. *)
Definition getitem {A : Type} (a : list A) (i : nat) : result A :=
  match a !! i with
  | Some x => Ok x
  | None => Raise IndexError
  end.

(** [a[i] = x] for an unsigned index. *)
Definition setitem {A : Type} (a : list A) (i : nat) (x : A) : result (list A) :=
  if decide (i < length a) then Ok (<[i := x]> a) else Raise IndexError.

(** A signed index on an axis of length [n]: negative indices count from
    the end, anything outside [-n, n) is an [IndexError]. *)
Definition norm_index (n : nat) (i : Z) : result nat :=
  if decide (0 ≤ i < Z.of_nat n)%Z then Ok (Z.to_nat i)
  else if decide (- Z.of_nat n ≤ i < 0)%Z then Ok (Z.to_nat (Z.of_nat n + i))
  else Raise IndexError.

(** [a[i]] for a signed index. *)
Definition getitem_signed {A : Type} (a : list A) (i : Z) : result A :=
  do j <- norm_index (length a) i; getitem a j.

(** [a[i, j] = x] on a two-dimensional array, [j] signed. *)
Definition setitem2 {A : Type} (a : list (list A)) (i : nat) (j : Z) (x : A)
  : result (list (list A)) :=
  do row <- getitem a i;
  do j' <- norm_index (length row) j;
  Ok (<[i := <[j' := x]> row]> a).

(** [a[i, j]] on a two-dimensional array. *)
Definition getitem2 {A : Type} (a : list (list A)) (i j : nat) : result A :=
  do row <- getitem a i; getitem row j.

(** [a[lo:hi]]: slices clip, they never raise. *)
Definition slice {A : Type} (a : list A) (lo hi : nat) : list A :=
  take (hi - lo) (drop lo a).

(** Storing into an [int32] or [uint32] array wraps around. *)
Definition wrap_int32 (z : Z) : Z := ((z + 2 ^ 31) mod 2 ^ 32 - 2 ^ 31)%Z.
Definition wrap_uint32 (z : Z) : Z := (z mod 2 ^ 32)%Z.

(** [for index, val in enumerate(a): if val: out.append(index)], which is
    also [np.flatnonzero(a)] on a boolean array. *)
Fixpoint flatnonzero_from (index : nat) (a : list bool) : list nat :=
  match a with
  | [] => []
  | val :: rest =>
      if val then index :: flatnonzero_from (S index) rest
      else flatnonzero_from (S index) rest
  end.

Definition flatnonzero (a : list bool) : list nat := flatnonzero_from 0 a.

(** [np.arange(n)]. *)
Definition arange (n : nat) : list Z := Z.of_nat <$> seq 0 n.

(** [a[idx] = vals] for an integer index array [idx]. *)
Fixpoint assign_at {A : Type} (a : list A) (idx : list nat) (vals : list A)
  : result (list A) :=
  match idx, vals with
  | [], [] => Ok a
  | i :: idx', v :: vals' => do a' <- setitem a i v; assign_at a' idx' vals'
  | _, _ => Raise ValueError
  end.

(** [a[mask] = vals] for a boolean mask over the first axis: the mask has
    the length of the axis, and [vals] one entry per [True]. *)
Fixpoint mask_assign {A : Type} (a : list A) (mask : list bool) (vals : list A)
  : result (list A) :=
  match a, mask with
  | [], [] => match vals with [] => Ok [] | _ :: _ => Raise ValueError end
  | x :: a', m :: mask' =>
      if m then
        match vals with
        | [] => Raise ValueError
        | v :: vals' => do r <- mask_assign a' mask' vals'; Ok (v :: r)
        end
      else do r <- mask_assign a' mask' vals; Ok (x :: r)
  | _, _ => Raise IndexError
  end.

(** [a[mask] = x] with a scalar right-hand side, broadcast over the rows. *)
Fixpoint mask_fill {A : Type} (a : list (list A)) (mask : list bool) (x : A)
  : result (list (list A)) :=
  match a, mask with
  | [], [] => Ok []
  | row :: a', m :: mask' =>
      do r <- mask_fill a' mask' x;
      Ok ((if m then (λ _, x) <$> row else row) :: r)
  | _, _ => Raise IndexError
  end.

(** [np.expand_dims(a, 1)]. *)
Definition expand_dims1 {A : Type} (a : list A) : list (list A) := (λ x, [x]) <$> a.

(** [a.reshape(rows, 3)]. *)
Fixpoint chunks3 {A : Type} (rows : nat) (a : list A) : result (list (list A)) :=
  match rows with
  | 0 => match a with [] => Ok [] | _ :: _ => Raise ValueError end
  | S rows' =>
      match a with
      | x :: y :: z :: rest => do r <- chunks3 rows' rest; Ok ([x; y; z] :: r)
      | _ => Raise ValueError
      end
  end.

(** [np.min(a)]; an empty array has no minimum. *)
Definition min (a : list Z) : result Z :=
  match a with
  | [] => Raise ValueError
  | x :: rest => Ok (foldl Z.min x rest)
  end.

End NumPy.

(** ** The grid *)

(** The [(3, number_of_elements)] array [elements] is kept column by column:
    entry [e] holds the three vertex indices of element [e].  Of the vertex
    coordinates only their number is ever read. *)
Record GridData (R : Type) : Type := {
  elements : list (nat * nat * nat);
  number_of_vertices : nat;
  jac_inv_trans : list (list (list R));
}.

Arguments elements {R} _.
Arguments number_of_vertices {R} _.
Arguments jac_inv_trans {R} _.

(** [grid_data.elements[:, e]] as an array of three entries. *)
Definition column (t : nat * nat * nat) : list nat :=
  let '(a, b, c) := t in [a; b; c].

Definition number_of_elements {R : Type} (grid_data : GridData R) : nat :=
  length (elements grid_data).

(** ** [bempp.api.utils.helpers] *)

Module Helpers.

Fixpoint offsets_from (start : nat) (lists : list (list nat)) : list nat :=
  start ::
  match lists with
  | [] => []
  | l :: rest => offsets_from (start + length l) rest
  end.

(** Modelled from the spec: [serialise_list_of_lists] lives in
    [bempp/api/utils/helpers.py], which is not part of the sources at hand.
    The adjacency builder returns the flattened array of element indices
    and an offset array with one more entry than there are lists, so that
    list [v] occupies [values[offset[v] : offset[v+1]]]. *)
Definition serialise_list_of_lists (lists : list (list nat)) : list nat * list nat :=
  (concat lists, offsets_from 0 lists).

End Helpers.

(** ** [_compute_p1_dof_map] *)

Module P1DofMap.
Import NumPy.

(** The nested helper [find_index]: first position of [value], or [-1]. *)
Fixpoint find_index_from (index : Z) (array : list nat) (value : nat) : Z :=
  match array with
  | [] => (-1)%Z
  | val :: rest =>
      if decide (val = value) then index
      else find_index_from (index + 1)%Z rest value
  end.

Definition find_index (array : list nat) (value : nat) : Z :=
  find_index_from 0%Z array value.

(** The variables the first loop mutates. *)
Record pass1 : Type := {
  elements_in_support : list nat;
  local2global : list (list Z);
  vertex_is_dof : list bool;
}.

(** The arrays the second loop mutates. *)
Record pass2 : Type := {
  support_final : list bool;
  local2global_final : list (list Z);
  local_multipliers : list (list Z);
}.

(** Everything that is live at the [return]. *)
Record locals : Type := {
  first : pass1;
  global_dof_count : nat;
  dofs : list Z;
  second : pass2;
}.

Section Compute.
Context {R : Type}.
Variable grid_data : GridData R.
Variable support : list bool.
Variables include_boundary_dofs ensure_global_continuity : bool.
Variables vertex_neighbors index_ptr : list nat.

(** [vertex_neighbors[index_ptr[vertex] : index_ptr[vertex + 1]]] *)
Definition neighbors_of (vertex : nat) : result (list nat) :=
  do lo <- getitem index_ptr vertex;
  do hi <- getitem index_ptr (vertex + 1);
  Ok (slice vertex_neighbors lo hi).

(** [[n for n in neighbors if not support[n]]] *)
Fixpoint non_support (neighbors : list nat) : result (list nat) :=
  match neighbors with
  | [] => Ok []
  | n :: rest =>
      do s <- getitem support n;
      do tail <- non_support rest;
      Ok (if s then tail else n :: tail)
  end.

(** The loop [for en in non_support_neighbors] of the extension branch. *)
Fixpoint extend_neighbors (vertex : nat) (non_support_neighbors : list nat)
    (l2g : list (list Z)) : result (list (list Z)) :=
  match non_support_neighbors with
  | [] => Ok l2g
  | en :: rest =>
      do col <- getitem (elements grid_data) en;
      let other_local_index := find_index (column col) vertex in
      do l2g' <- setitem2 l2g en other_local_index (wrap_int32 (Z.of_nat vertex));
      extend_neighbors vertex rest l2g'
  end.

(** The body of [for local_index in range(3)] in the first loop. *)
Definition visit_corner (element_index local_index : nat) (st : pass1)
  : result pass1 :=
  do col <- getitem (elements grid_data) element_index;
  do vertex <- getitem (column col) local_index;
  do neighbors <- neighbors_of vertex;
  do non_support_neighbors <- non_support neighbors;
  do st1 <-
    (if include_boundary_dofs || bool_decide (length non_support_neighbors = 0)
     then
       do l2g <- setitem2 (local2global st) element_index (Z.of_nat local_index)
                   (wrap_int32 (Z.of_nat vertex));
       do vid <- setitem (vertex_is_dof st) vertex true;
       Ok {| elements_in_support := elements_in_support st;
             local2global := l2g;
             vertex_is_dof := vid |}
     else Ok st);
  if bool_decide (0 < length non_support_neighbors)
     && ensure_global_continuity && include_boundary_dofs
  then
    do l2g <- extend_neighbors vertex non_support_neighbors (local2global st1);
    Ok {| elements_in_support := elements_in_support st1 ++ non_support_neighbors;
          local2global := l2g;
          vertex_is_dof := vertex_is_dof st1 |}
  else Ok st1.

Definition visit_element (element_index : nat) (st : pass1) : result pass1 :=
  foldM (visit_corner element_index) (seq 0 3) st.

(** [for element_index in elements_in_support], where the body may
    append to the list it walks: the iterator holds a position and stops
    when the position reaches the current end of the list.  [None] means
    that [fuel] iterations were not enough to get there. *)
Fixpoint first_loop (fuel : nat) (position : nat) (st : pass1)
  : option (result pass1) :=
  match elements_in_support st !! position with
  | None => Some (Ok st)
  | Some element_index =>
      match fuel with
      | 0 => None
      | S fuel' =>
          match visit_element element_index st with
          | Raise e => Some (Raise e)
          | Ok st' => first_loop fuel' (S position) st'
          end
      end
  end.

Definition initial_pass1 : pass1 :=
  {| elements_in_support := flatnonzero support;
     local2global := replicate (number_of_elements grid_data) [(-1)%Z; (-1)%Z; (-1)%Z];
     vertex_is_dof := replicate (number_of_vertices grid_data) false |}.

(** [dofs = -ones(nv); dofs[used_dofs] = arange(global_dof_count)].  The
    array holds floats in the source; all of them are integers of small
    magnitude, kept here as [Z]. *)
Definition compute_dofs (vid : list bool) : result (list Z) :=
  let used_dofs := flatnonzero vid in
  assign_at (replicate (number_of_vertices grid_data) (-1)%Z) used_dofs
    (arange (length used_dofs)).

(** The body of the first [for local_index in range(3)] of the second loop. *)
Definition translate_slot (l2g : list (list Z)) (dofs : list Z)
    (element_index local_index : nat) (out : pass2) : result pass2 :=
  do vertex_index <- getitem2 l2g element_index local_index;
  if decide (vertex_index = (-1)%Z) then Ok out
  else
    do mapped_dof <- getitem_signed dofs vertex_index;
    do sf <- setitem (support_final out) element_index true;
    do l2gf <- setitem2 (local2global_final out) element_index
                 (Z.of_nat local_index) (wrap_uint32 mapped_dof);
    do lm <- setitem2 (local_multipliers out) element_index
               (Z.of_nat local_index) 1%Z;
    Ok {| support_final := sf; local2global_final := l2gf; local_multipliers := lm |}.

(** The body of the second [for local_index in range(3)]. *)
Definition fill_slot (l2g : list (list Z)) (min_dof : Z)
    (element_index local_index : nat) (out : pass2) : result pass2 :=
  do vertex_index <- getitem2 l2g element_index local_index;
  if decide (vertex_index = (-1)%Z) then
    do l2gf <- setitem2 (local2global_final out) element_index
                 (Z.of_nat local_index) min_dof;
    Ok {| support_final := support_final out;
          local2global_final := l2gf;
          local_multipliers := local_multipliers out |}
  else Ok out.

Definition finalise_element (l2g : list (list Z)) (dofs : list Z)
    (element_index : nat) (out : pass2) : result pass2 :=
  do out1 <- foldM (translate_slot l2g dofs element_index) (seq 0 3) out;
  do row <- getitem (local2global_final out1) element_index;
  do min_dof <- NumPy.min row;
  foldM (fill_slot l2g min_dof element_index) (seq 0 3) out1.

Definition initial_pass2 : pass2 :=
  {| support_final := replicate (number_of_elements grid_data) false;
     local2global_final := replicate (number_of_elements grid_data) [0%Z; 0%Z; 0%Z];
     local_multipliers := replicate (number_of_elements grid_data) [0%Z; 0%Z; 0%Z] |}.

(** The code after the first loop, from a given first-loop state and a
    given initial content of the three output arrays. *)
Definition second_part (st : pass1) (out0 : pass2) : result locals :=
  do dofs <- compute_dofs (vertex_is_dof st);
  do out <- foldM (finalise_element (local2global st) dofs)
              (elements_in_support st) out0;
  Ok {| first := st;
        global_dof_count := length (flatnonzero (vertex_is_dof st));
        dofs := dofs;
        second := out |}.

Definition run (fuel : nat) : option (result locals) :=
  match first_loop fuel 0 initial_pass1 with
  | None => None
  | Some (Raise e) => Some (Raise e)
  | Some (Ok st) => Some (second_part st initial_pass2)
  end.

(** [return local2global_final, local_multipliers] *)
Definition returned (l : locals) : list (list Z) * list (list Z) :=
  (local2global_final (second l), local_multipliers (second l)).

Definition _compute_p1_dof_map (fuel : nat)
  : option (result (list (list Z) * list (list Z))) :=
  match run fuel with
  | None => None
  | Some (Raise e) => Some (Raise e)
  | Some (Ok l) => Some (Ok (returned l))
  end.

End Compute.

End P1DofMap.

(** ** The space constructors *)

Module ScalarSpaces.
Import NumPy.

(** The two gradient callbacks a space can carry. *)
Inductive gradient_callback : Type :=
| p0_gradient
| p1_gradient.

(** Modelled from the spec: [SpaceBuilder] lives in [bempp/api/space/space.py],
    which is not part of the sources at hand.  It is the configuration
    object with chained setters: each setter stores its argument, and
    [build] returns the space that holds what was stored. *)
Record Space (R G : Type) : Type := {
  codomain_dimension : nat;
  support : list bool;
  normal_multipliers : list R;
  order : nat;
  shapeset : string;
  identifier : string;
  local2global : list (list Z);
  global2local : option G;
  local_multipliers : list (list Z);
  collocation_points : option (list (list R));
  numba_surface_gradient : option gradient_callback;
}.

Arguments codomain_dimension {R G} _.
Arguments support {R G} _.
Arguments normal_multipliers {R G} _.
Arguments order {R G} _.
Arguments shapeset {R G} _.
Arguments identifier {R G} _.
Arguments local2global {R G} _.
Arguments global2local {R G} _.
Arguments local_multipliers {R G} _.
Arguments collocation_points {R G} _.
Arguments numba_surface_gradient {R G} _.

Section Builder.
Context {R G : Type}.
Abbreviation space := (Space R G).

Definition SpaceBuilder (grid : GridData R) : space :=
  {| codomain_dimension := 1; support := []; normal_multipliers := [];
     order := 0; shapeset := ""; identifier := ""; local2global := [];
     global2local := None; local_multipliers := [];
     collocation_points := None; numba_surface_gradient := None |}.

Definition set_codomain_dimension (x : nat) (b : space) : space :=
  {| codomain_dimension := x; support := support b;
     normal_multipliers := normal_multipliers b; order := order b;
     shapeset := shapeset b; identifier := identifier b;
     local2global := local2global b; global2local := global2local b;
     local_multipliers := local_multipliers b;
     collocation_points := collocation_points b;
     numba_surface_gradient := numba_surface_gradient b |}.

Definition set_support (x : list bool) (b : space) : space :=
  {| codomain_dimension := codomain_dimension b; support := x;
     normal_multipliers := normal_multipliers b; order := order b;
     shapeset := shapeset b; identifier := identifier b;
     local2global := local2global b; global2local := global2local b;
     local_multipliers := local_multipliers b;
     collocation_points := collocation_points b;
     numba_surface_gradient := numba_surface_gradient b |}.

Definition set_normal_multipliers (x : list R) (b : space) : space :=
  {| codomain_dimension := codomain_dimension b; support := support b;
     normal_multipliers := x; order := order b;
     shapeset := shapeset b; identifier := identifier b;
     local2global := local2global b; global2local := global2local b;
     local_multipliers := local_multipliers b;
     collocation_points := collocation_points b;
     numba_surface_gradient := numba_surface_gradient b |}.

Definition set_order (x : nat) (b : space) : space :=
  {| codomain_dimension := codomain_dimension b; support := support b;
     normal_multipliers := normal_multipliers b; order := x;
     shapeset := shapeset b; identifier := identifier b;
     local2global := local2global b; global2local := global2local b;
     local_multipliers := local_multipliers b;
     collocation_points := collocation_points b;
     numba_surface_gradient := numba_surface_gradient b |}.

Definition set_shapeset (x : string) (b : space) : space :=
  {| codomain_dimension := codomain_dimension b; support := support b;
     normal_multipliers := normal_multipliers b; order := order b;
     shapeset := x; identifier := identifier b;
     local2global := local2global b; global2local := global2local b;
     local_multipliers := local_multipliers b;
     collocation_points := collocation_points b;
     numba_surface_gradient := numba_surface_gradient b |}.

Definition set_identifier (x : string) (b : space) : space :=
  {| codomain_dimension := codomain_dimension b; support := support b;
     normal_multipliers := normal_multipliers b; order := order b;
     shapeset := shapeset b; identifier := x;
     local2global := local2global b; global2local := global2local b;
     local_multipliers := local_multipliers b;
     collocation_points := collocation_points b;
     numba_surface_gradient := numba_surface_gradient b |}.

Definition set_local2global (x : list (list Z)) (b : space) : space :=
  {| codomain_dimension := codomain_dimension b; support := support b;
     normal_multipliers := normal_multipliers b; order := order b;
     shapeset := shapeset b; identifier := identifier b;
     local2global := x; global2local := global2local b;
     local_multipliers := local_multipliers b;
     collocation_points := collocation_points b;
     numba_surface_gradient := numba_surface_gradient b |}.

Definition set_global2local (x : G) (b : space) : space :=
  {| codomain_dimension := codomain_dimension b; support := support b;
     normal_multipliers := normal_multipliers b; order := order b;
     shapeset := shapeset b; identifier := identifier b;
     local2global := local2global b; global2local := Some x;
     local_multipliers := local_multipliers b;
     collocation_points := collocation_points b;
     numba_surface_gradient := numba_surface_gradient b |}.

Definition set_local_multipliers (x : list (list Z)) (b : space) : space :=
  {| codomain_dimension := codomain_dimension b; support := support b;
     normal_multipliers := normal_multipliers b; order := order b;
     shapeset := shapeset b; identifier := identifier b;
     local2global := local2global b; global2local := global2local b;
     local_multipliers := x;
     collocation_points := collocation_points b;
     numba_surface_gradient := numba_surface_gradient b |}.

Definition set_collocation_points (x : list (list R)) (b : space) : space :=
  {| codomain_dimension := codomain_dimension b; support := support b;
     normal_multipliers := normal_multipliers b; order := order b;
     shapeset := shapeset b; identifier := identifier b;
     local2global := local2global b; global2local := global2local b;
     local_multipliers := local_multipliers b;
     collocation_points := Some x;
     numba_surface_gradient := numba_surface_gradient b |}.

Definition set_numba_surface_gradient (x : gradient_callback) (b : space) : space :=
  {| codomain_dimension := codomain_dimension b; support := support b;
     normal_multipliers := normal_multipliers b; order := order b;
     shapeset := shapeset b; identifier := identifier b;
     local2global := local2global b; global2local := global2local b;
     local_multipliers := local_multipliers b;
     collocation_points := collocation_points b;
     numba_surface_gradient := Some x |}.

Definition build (b : space) : space := b.

End Builder.

(** Modelled from the spec: no source at hand computes the global DOF
    count of a discontinuous space.  It is the total number of distinct
    DOFs of the space, that is, of distinct entries of [local2global] at
    the positions whose multiplier is 1. *)
Definition active_dofs (l2g lm : list (list Z)) : list Z :=
  concat (zip_with (λ row mrow,
            (zip row mrow) ≫= (λ p, if decide (p.2 = 1%Z) then [p.1] else []))
          l2g lm).

Definition global_dof_count (l2g lm : list (list Z)) : nat :=
  length (remove_dups (active_dofs l2g lm)).

(** The loop that fills [vertex_neighbors] in [p1_continuous_function_space]. *)
Definition append_index (index vertex : nat) (vn : list (list nat))
  : result (list (list nat)) :=
  do l <- getitem vn vertex; Ok (<[vertex := l ++ [index]]> vn).

Definition collect_neighbors {R : Type} (grid : GridData R) : result (list (list nat)) :=
  foldM (λ index vn,
           do col <- getitem (elements grid) index;
           foldM (append_index index) (column col) vn)
        (seq 0 (number_of_elements grid))
        (replicate (number_of_vertices grid) []).

Section Constructors.
Context {R G : Type}.

(** [_process_segments] and [invert_local2global] come from
    [bempp/api/space/space.py]; they are taken as they are. *)
Variable _process_segments :
  GridData R → option (list nat) → option (list nat) → option (list nat) →
  list bool * list R.
Variable invert_local2global : list (list Z) → list (list Z) → G.

(** The float [1./3]. *)
Variable one_third : R.

Definition p0_discontinuous_function_space (grid : GridData R)
    (support_elements segments swapped_normals : option (list nat))
  : result (Space R G) :=
  let '(support, normal_multipliers) :=
    _process_segments grid support_elements segments swapped_normals in
  let elements_in_support := flatnonzero support in
  let support_size := length elements_in_support in
  let local2global := replicate (number_of_elements grid) [0%Z] in
  do local2global <- mask_assign local2global support
                       (expand_dims1 (wrap_uint32 <$> arange support_size));
  let local_multipliers := replicate (number_of_elements grid) [0%Z] in
  do local_multipliers <- mask_fill local_multipliers support 1%Z;
  let global2local := invert_local2global local2global local_multipliers in
  let collocation_points := [[one_third]; [one_third]] in
  Ok (build
        (set_numba_surface_gradient p0_gradient
        (set_collocation_points collocation_points
        (set_local_multipliers local_multipliers
        (set_global2local global2local
        (set_local2global local2global
        (set_identifier "p0_discontinuous"
        (set_shapeset "p0_discontinuous"
        (set_order 0
        (set_normal_multipliers normal_multipliers
        (set_support support
        (set_codomain_dimension 1 (SpaceBuilder grid))))))))))))).

Definition p1_discontinuous_function_space (grid : GridData R)
    (support_elements segments swapped_normals : option (list nat))
  : result (Space R G) :=
  let '(support, normal_multipliers) :=
    _process_segments grid support_elements segments swapped_normals in
  let elements_in_support := flatnonzero support in
  let support_size := length elements_in_support in
  let local2global := replicate (number_of_elements grid) [0%Z; 0%Z; 0%Z] in
  do rows <- chunks3 support_size (arange (3 * support_size));
  do local2global <- mask_assign local2global support ((λ row : list Z, wrap_uint32 <$> row) <$> rows);
  let local_multipliers := replicate (number_of_elements grid) [0%Z; 0%Z; 0%Z] in
  do local_multipliers <- mask_fill local_multipliers support 1%Z;
  let global2local := invert_local2global local2global local_multipliers in
  Ok (build
        (set_numba_surface_gradient p1_gradient
        (set_local_multipliers local_multipliers
        (set_global2local global2local
        (set_local2global local2global
        (set_identifier "p1_discontinuous"
        (set_shapeset "p1_discontinuous"
        (set_order 1
        (set_normal_multipliers normal_multipliers
        (set_support support
        (set_codomain_dimension 1 (SpaceBuilder grid)))))))))))).

Definition p1_continuous_function_space (fuel : nat) (grid : GridData R)
    (support_elements segments swapped_normals : option (list nat))
    (include_boundary_dofs ensure_global_continuity : bool)
  : option (result (Space R G)) :=
  let '(support, normal_multipliers) :=
    _process_segments grid support_elements segments swapped_normals in
  match collect_neighbors grid with
  | Raise e => Some (Raise e)
  | Ok vertex_neighbors =>
      let '(vertex_neighbors, index_ptr) :=
        Helpers.serialise_list_of_lists vertex_neighbors in
      match P1DofMap._compute_p1_dof_map grid support include_boundary_dofs
              ensure_global_continuity vertex_neighbors index_ptr fuel with
      | None => None
      | Some (Raise e) => Some (Raise e)
      | Some (Ok (local2global, local_multipliers)) =>
          let global2local := invert_local2global local2global local_multipliers in
          Some (Ok (build
            (set_numba_surface_gradient p1_gradient
            (set_local_multipliers local_multipliers
            (set_global2local global2local
            (set_local2global local2global
            (set_identifier "p1_continuous"
            (set_shapeset "p1_discontinuous"
            (set_order 1
            (set_normal_multipliers normal_multipliers
            (set_support support
            (set_codomain_dimension 1 (SpaceBuilder grid)))))))))))))
      end
  end.

End Constructors.

End ScalarSpaces.


(** ** The surface gradient callbacks *)

Module SurfaceGradient.
Import NumPy.

Fixpoint traverse {A B : Type} (f : A → result B) (l : list A) : result (list B) :=
  match l with
  | [] => Ok []
  | x :: rest => do y <- f x; do ys <- traverse f rest; Ok (y :: ys)
  end.

(** Broadcasting one axis to length [n]: an axis of that length is kept,
    an axis of length one is repeated, anything else does not fit. *)
Definition broadcast {A : Type} (n : nat) (l : list A) : result (list A) :=
  if decide (length l = n) then Ok l
  else match l with
       | [x] => Ok (replicate n x)
       | _ => Raise ValueError
       end.

Section Evaluator.
Context {R : Type}.

(** Scalars are [float64] in the source.  The evaluator only adds and
    multiplies them, so the arithmetic is a parameter. *)
Variables (zero one : R) (add mul : R → R → R).

(** What [np.empty] happens to hold. *)
Variable uninitialised : R.

Abbreviation matrix := (list (list R)).
Abbreviation tensor4 := (list (list (list (list R)))).

(** [a.shape[1]] of a two-dimensional array. *)
Definition shape1 (a : matrix) : nat :=
  match a with
  | [] => 0
  | row :: _ => length row
  end.

Definition inner (u v : list R) : R := foldl add zero (zip_with mul u v).

(** [b[:, n]]; arrays are rectangular, the default is never read. *)
Definition col (n : nat) (b : matrix) : list R := (λ row, nth n row zero) <$> b.

(** [a.dot(b)] for two-dimensional [a] and [b]. *)
Definition dot (a b : matrix) : result matrix :=
  if forallb (λ row, bool_decide (length row = length b)) a then
    Ok ((λ row, (λ n, inner row (col n b)) <$> seq 0 (shape1 b)) <$> a)
  else Raise ValueError.

(** [t[0, :, index, :]] *)
Definition slice_of (t : tensor4) (index : nat) : result matrix :=
  do t0 <- getitem t 0;
  traverse (λ plane, getitem plane index) t0.

Fixpoint store_rows (planes : list matrix) (index : nat) (rows : matrix)
  : result (list matrix) :=
  match planes, rows with
  | [], [] => Ok []
  | plane :: planes', row :: rows' =>
      do plane' <- setitem plane index row;
      do rest <- store_rows planes' index rows';
      Ok (plane' :: rest)
  | _, _ => Raise ValueError
  end.

(** [t[0, :, index, :] = m], where [t] has [n] entries on its last axis. *)
Definition assign_slice (t : tensor4) (n index : nat) (m : matrix) : result tensor4 :=
  do t0 <- getitem t 0;
  do rows <- broadcast (length t0) m;
  do rows <- traverse (broadcast n) rows;
  do t0' <- store_rows t0 index rows;
  Ok (<[0 := t0']> t).

Definition _numba_p0_surface_gradient (element_index : nat)
    (shapeset_gradient : matrix → tensor4) (local_coordinates : matrix)
    (grid_data : GridData R) (local_multipliers : list (list Z))
    (normal_multipliers : list R) : tensor4 :=
  replicate 1 (replicate 3 (replicate 1 (replicate (shape1 local_coordinates) zero))).

Definition _numba_p1_surface_gradient (element_index : nat)
    (shapeset_gradient : matrix → tensor4) (local_coordinates : matrix)
    (grid_data : GridData R) (local_multipliers : list (list Z))
    (normal_multipliers : list R) : result tensor4 :=
  let reference_values := shapeset_gradient local_coordinates in
  let n := shape1 local_coordinates in
  let result := replicate 1 (replicate 3 (replicate 3 (replicate n uninitialised))) in
  foldM (λ index result,
           do jac <- getitem (jac_inv_trans grid_data) element_index;
           do ref <- slice_of reference_values index;
           do m <- dot jac ref;
           assign_slice result n index m)
        (seq 0 3) result.

Definition identity3 : matrix :=
  [[one; zero; zero]; [zero; one; zero]; [zero; zero; one]].

(** A tensor has shape [(a, b, c, d)]. *)
Definition has_shape4 (t : tensor4) (a b c d : nat) : Prop :=
  length t = a ∧
  ∀ x, x ∈ t → length x = b ∧
  ∀ y, y ∈ x → length y = c ∧
  ∀ z, z ∈ y → length z = d.

Definition has_shape2 (m : matrix) (a b : nat) : Prop :=
  length m = a ∧ ∀ row, row ∈ m → length row = b.

End Evaluator.

End SurfaceGradient.


(** ** Vocabulary of the statements *)

Module Topology.

Section Topology.
Context {R : Type}.
Variable grid_data : GridData R.
Variable support : list bool.

(** Element [e] has vertex [v] among its three vertices. *)
Definition incident_to (v e : nat) : bool :=
  match elements grid_data !! e with
  | Some t => bool_decide (v ∈ column t)
  | None => false
  end.

Definition in_support (e : nat) : bool := default false (support !! e).

(** Every element incident to [v] is in the support. *)
Definition interior (v : nat) : bool :=
  forallb (λ e, negb (incident_to v e) || in_support e)
    (seq 0 (number_of_elements grid_data)).

(** Some element is incident to [v]. *)
Definition referenced (v : nat) : bool :=
  existsb (incident_to v) (seq 0 (number_of_elements grid_data)).

(** The number of vertices all of whose incident elements are in the
    support. *)
Definition interior_vertex_count : nat :=
  length (filter (λ v, interior v = true) (seq 0 (number_of_vertices grid_data))).

(** The same, counting only the vertices that belong to some element. *)
Definition referenced_interior_vertex_count : nat :=
  length (filter (λ v, referenced v && interior v = true)
            (seq 0 (number_of_vertices grid_data))).

(** A mesh as the constructors receive it: one support flag per element,
    vertex indices below the number of vertices, which an [int32] can
    hold. *)
Record well_formed : Prop := {
  support_length : length support = number_of_elements grid_data;
  vertices_in_range :
    ∀ e t v, elements grid_data !! e = Some t → v ∈ column t →
             v < number_of_vertices grid_data;
  vertices_fit : (Z.of_nat (number_of_vertices grid_data) ≤ 2 ^ 31)%Z;
}.

(** The serialised adjacency lists, for each vertex, the elements
    incident to it and nothing else. *)
Definition adjacency (vertex_neighbors index_ptr : list nat) : Prop :=
  ∀ v, v < number_of_vertices grid_data →
    ∃ neighbors,
      P1DofMap.neighbors_of vertex_neighbors index_ptr v = Ok neighbors
      ∧ ∀ e, e ∈ neighbors ↔ incident_to v e = true.

End Topology.

End Topology.

Module Invariants.
Import NumPy P1DofMap.

Section Invariants.
Context {R : Type}.
Variable grid_data : GridData R.

(** One row of three entries per element. *)
Definition rows3 (m : list (list Z)) : Prop :=
  length m = number_of_elements grid_data
  ∧ ∀ e row, m !! e = Some row → length row = 3.

Definition shaped1 (st : pass1) : Prop :=
  rows3 (local2global st)
  ∧ length (vertex_is_dof st) = number_of_vertices grid_data.

(** Every provisional entry other than [-1] is a vertex marked as DOF. *)
Definition entries_marked (st : pass1) : Prop :=
  ∀ e row j z,
    local2global st !! e = Some row → row !! j = Some z → z ≠ (-1)%Z →
    ∃ v, z = Z.of_nat v ∧ vertex_is_dof st !! v = Some true.

Definition sound1 (st : pass1) : Prop := shaped1 st ∧ entries_marked st.

End Invariants.

End Invariants.

Module Invariants2.
Import NumPy P1DofMap Invariants.

(** [m[e, j]], if there is such an entry. *)
Definition entry (m : list (list Z)) (e j : nat) : option Z :=
  m !! e ≫= (λ row, row !! j).

Section Invariants2.
Context {R : Type}.
Variable grid_data : GridData R.
Variable l2g : list (list Z).
Variable dofs : list Z.
Variable gdc : nat.

Definition shaped2 (out : pass2) : Prop :=
  rows3 grid_data (local2global_final out)
  ∧ rows3 grid_data (local_multipliers out)
  ∧ length (support_final out) = number_of_elements grid_data.

(** A multiplier 1 sits on an assigned slot, and the DOF index there is
    below the DOF count. *)
Definition active_bounded (out : pass2) : Prop :=
  (∀ e j, entry (local_multipliers out) e j = Some 1%Z →
          ∃ z, entry l2g e j = Some z ∧ z ≠ (-1)%Z)
  ∧ (∀ e j x, entry (local_multipliers out) e j = Some 1%Z →
              entry (local2global_final out) e j = Some x →
              (0 ≤ x < Z.of_nat gdc)%Z).

(** An element none of whose slots was assigned has an all-zero row in
    both output arrays. *)
Definition unassigned_inert (out : pass2) : Prop :=
  ∀ e, (∀ j, j < 3 → entry l2g e j = Some (-1)%Z) →
       ∀ j, j < 3 → entry (local2global_final out) e j = Some 0%Z
                    ∧ entry (local_multipliers out) e j = Some 0%Z.

Definition sound2 (out : pass2) : Prop :=
  shaped2 out ∧ active_bounded out ∧ unassigned_inert out.

(** Every assigned slot translates to a DOF index below the count. *)
Definition dofs_cover : Prop :=
  ∀ e j z, entry l2g e j = Some z → z ≠ (-1)%Z →
           ∃ k, k < gdc ∧ getitem_signed dofs z = Ok (Z.of_nat k).

End Invariants2.

End Invariants2.

Module Marking.

Section Marking.
Context {R : Type}.
Variable grid_data : GridData R.
Variable support : list bool.
Variable include_boundary_dofs : bool.

(** The vertex gets a DOF when the first loop meets it. *)
Definition assignable (v : nat) : bool :=
  include_boundary_dofs || Topology.interior grid_data support v.

Definition mark (v : nat) (vid : list bool) : list bool :=
  if assignable v then <[v := true]> vid else vid.

End Marking.

End Marking.

Module Listing.

(** Element [e] is on the list of vertex [v]. *)
Definition listed (vn : list (list nat)) (v e : nat) : Prop :=
  ∃ l, vn !! v = Some l ∧ e ∈ l.

End Listing.

(** ** Meshes the statements are evaluated on *)

Module Meshes.

Definition mesh (els : list (nat * nat * nat)) (nv : nat) : GridData unit :=
  {| elements := els; number_of_vertices := nv; jac_inv_trans := [] |}.

(** Two triangles that share the edge 1-2. *)
Module TwoTriangles.

Definition grid_data : GridData unit := mesh [(0, 1, 2); (1, 2, 3)] 4.
Definition vertex_neighbors : list nat := [0; 0; 1; 0; 1; 1].
Definition index_ptr : list nat := [0; 1; 3; 5; 6].

(** Only the first triangle is in the support. *)
Definition support : list bool := [true; false].

(** The first-loop state once element 1 has been visited, on the working
    list [work]. *)
Definition steady (work : list nat) : P1DofMap.pass1 :=
  {| P1DofMap.elements_in_support := work;
     P1DofMap.local2global := [[0; 1; 2]; [1; 2; 3]]%Z;
     P1DofMap.vertex_is_dof := [true; true; true; true] |}.

End TwoTriangles.

(** Three triangles in a row: 0 and 1 share the edge 1-2, 1 and 2 share the
    vertex 3. *)
Module Chain.

Definition grid_data : GridData unit := mesh [(0, 1, 2); (1, 2, 3); (3, 4, 5)] 6.
Definition vertex_neighbors : list nat := [0; 0; 1; 0; 1; 1; 2; 2; 2].
Definition index_ptr : list nat := [0; 1; 3; 5; 7; 8; 9].
Definition support : list bool := [true; true; false].

End Chain.

(** Triangle 0 with every vertex shared with a triangle outside the support. *)
Module Enclosed.

Definition grid_data : GridData unit := mesh [(0, 1, 2); (0, 1, 3); (2, 3, 4)] 5.
Definition vertex_neighbors : list nat := [0; 1; 0; 1; 0; 2; 1; 2; 2].
Definition index_ptr : list nat := [0; 2; 4; 6; 8; 9].
Definition support : list bool := [true; false; false].

End Enclosed.

(** One triangle and a fourth vertex that belongs to no element. *)
Module Isolated.

Definition grid_data : GridData unit := mesh [(0, 1, 2)] 4.
Definition vertex_neighbors : list nat := [0; 0; 0].
Definition index_ptr : list nat := [0; 1; 2; 3; 3].
Definition support : list bool := [true].

End Isolated.

End Meshes.

(** The adjacency [p1_continuous_function_space] computes for a grid. *)
Definition constructor_adjacency_of {R : Type} (grid : GridData R)
  : result (list nat * list nat) :=
  do lists <- ScalarSpaces.collect_neighbors grid;
  Ok (Helpers.serialise_list_of_lists lists).

Module Frame.
Import P1DofMap.



End Frame.

Module Extension.

Section Extension.
Context {R : Type}.
Variable grid_data : GridData R.
Variable support : list bool.

(** Element [e] has a vertex that also belongs to an element outside the
    support: with both flags set, visiting [e] extends the working list. *)
Definition triggering (e : nat) : Prop :=
  ∃ t v n, elements grid_data !! e = Some t ∧ v ∈ column t
           ∧ Topology.incident_to grid_data v n = true
           ∧ support !! n = Some false.

End Extension.

End Extension.

Module Outputs.
Import NumPy P1DofMap Invariants Invariants2.

Section Outputs.
Context {R : Type}.
Variable grid_data : GridData R.
Variable l2g : list (list Z).
Variable dofs : list Z.

(** Slot [j] of element [e] holds a vertex in the provisional map. *)
Definition assigned (e j : nat) : Prop :=
  ∃ z, entry l2g e j = Some z ∧ z ≠ (-1)%Z.

(** Multipliers are 0 or 1; under a 1 sits the DOF of the slot's vertex,
    under a 0 sits the index 0. *)
Definition translated (out : pass2) : Prop :=
  (∀ e j m, entry (local_multipliers out) e j = Some m → m = 0%Z ∨ m = 1%Z)
  ∧ (∀ e j, entry (local_multipliers out) e j = Some 1%Z →
            ∃ z d, entry l2g e j = Some z ∧ z ≠ (-1)%Z
                   ∧ getitem_signed dofs z = Ok d
                   ∧ entry (local2global_final out) e j = Some (wrap_uint32 d))
  ∧ (∀ e j, entry (local_multipliers out) e j = Some 0%Z →
            entry (local2global_final out) e j = Some 0%Z).

(** Multipliers 1 are found only on the elements of [visited]. *)
Definition owned (visited : list nat) (out : pass2) : Prop :=
  ∀ e j, entry (local_multipliers out) e j = Some 1%Z → e ∈ visited.

(** Every assigned slot of an element of [visited] has multiplier 1. *)
Definition complete (visited : list nat) (out : pass2) : Prop :=
  ∀ e j, e ∈ visited → assigned e j →
       entry (local_multipliers out) e j = Some 1%Z.

Definition settled (visited : list nat) (out : pass2) : Prop :=
  shaped2 grid_data out ∧ translated out ∧ owned visited out.

End Outputs.

End Outputs.

Module Provisional.
Import NumPy P1DofMap Topology Invariants2 Marking.

Section Provisional.
Context {R : Type}.
Variable grid_data : GridData R.
Variable support : list bool.
Variable include_boundary_dofs : bool.

(** Vertex [v] is corner [j] of element [e]. *)
Definition corner (e j v : nat) : Prop :=
  ∃ t, elements grid_data !! e = Some t ∧ column t !! j = Some v.

(** Every entry other than [-1] is the slot's own corner, of a support
    element, and the corner is assignable. *)
Definition own_corners (l2g : list (list Z)) : Prop :=
  ∀ e j z, entry l2g e j = Some z → z ≠ (-1)%Z →
    ∃ v, corner e j v ∧ z = Z.of_nat v ∧ support !! e = Some true
         ∧ assignable grid_data support include_boundary_dofs v = true.

End Provisional.

End Provisional.

Module SupportVertices.

Section SupportVertices.
Context {R : Type}.
Variable grid_data : GridData R.
Variable support : list bool.

(** Vertex [v] belongs to an element of the support. *)
Definition touches_support (v : nat) : bool :=
  existsb (λ e, Topology.incident_to grid_data v e && Topology.in_support support e)
    (seq 0 (number_of_elements grid_data)).

(** The number of vertices of the support elements. *)
Definition support_vertex_count : nat :=
  length (filter (λ v, touches_support v = true)
            (seq 0 (number_of_vertices grid_data))).

End SupportVertices.

End SupportVertices.

(** ** The matrix product, entry by entry *)

Module MatrixProduct.

Section MatrixProduct.
Context {R : Type}.
Variables (zero : R) (add mul : R → R → R).

(** [m[r, k]] and [t[a, b, c, d]], read where the arrays have such an
    entry. *)
Definition at2 (m : list (list R)) (r k : nat) : R := nth k (nth r m []) zero.

Definition at4 (t : list (list (list (list R)))) (a b c d : nat) : R :=
  nth d (nth c (nth b (nth a t []) []) []) zero.

(** What left-multiplying the reference gradient [G] of basis function
    [i] with the Jacobian [J] means for the entry in row [r] and column
    [c]: the sum over [k] of [J[r, k] * G[0, k, i, c]], taken from 0
    in the order of [k]. *)
Definition mapped_gradient (J : list (list R)) (G : list (list (list (list R))))
    (d r i c : nat) : R :=
  foldl (λ acc k, add acc (mul (at2 J r k) (at4 G 0 k i c))) zero (seq 0 d).

End MatrixProduct.

End MatrixProduct.

(** ** [float64] *)

Module Float64.

(** [x] is a number: neither an infinity nor a NaN. *)
Definition finite (x : float) : Prop :=
  match Prim2SF x with
  | S754_zero _ | S754_finite _ _ _ => True
  | S754_infinity _ | S754_nan => False
  end.

(** [x] is one of the two zeros. *)
Definition null (x : float) : Prop :=
  match Prim2SF x with
  | S754_zero _ => True
  | _ => False
  end.

(** Equal as numbers: the same float, or two zeros of whatever sign. *)
Definition same_number (x y : float) : Prop := x = y ∨ (null x ∧ null y).

(** The evaluator on [float64]. *)
Definition p1_surface_gradient :=
  SurfaceGradient._numba_p1_surface_gradient 0%float PrimFloat.add PrimFloat.mul.

Definition identity : list (list float) :=
  SurfaceGradient.identity3 0%float 1%float.

End Float64.

(** * Properties *)

(** ** The error monad and the array primitives *)

Lemma bind_Ok {A B : Type} (m : result A) (k : A → result B) (b : B) :
  bind m k = Ok b ↔ ∃ a, m = Ok a ∧ k a = Ok b.
Proof.
  destruct m as [a|e]; simpl; split.
  - intros H. by exists a.
  - by intros (a' & [= ->] & H).
  - intros [=].
  - by intros (a' & [=] & _).
Qed.

Ltac bind_inv H :=
  let a := fresh "a" in
  let Ha := fresh "Hbind" in
  apply bind_Ok in H as (a & Ha & H).

Tactic Notation "bind_step" hyp(H) "as" simple_intropattern(a) simple_intropattern(Ha) :=
  apply bind_Ok in H as (a & Ha & H).

Lemma foldM_app {A S : Type} (f : A → S → result S) (l1 l2 : list A) (s : S) :
  foldM f (l1 ++ l2) s = bind (foldM f l1 s) (foldM f l2).
Proof.
  revert s. induction l1 as [|x l1 IH]; intros s; simpl; [done|].
  destruct (f x s) as [s'|e]; simpl; [apply IH | done].
Qed.

(** An invariant carried along a monadic fold. *)
Lemma foldM_invariant {A S : Type} (f : A → S → result S) (P : S → Prop)
    (Q : A → Prop) (l : list A) (s s' : S) :
  (∀ x t t', Q x → P t → f x t = Ok t' → P t') →
  Forall Q l → P s → foldM f l s = Ok s' → P s'.
Proof.
  intros Hstep. revert s. induction l as [|x l IH]; intros s HQ Hs Hf; simpl in Hf.
  - by injection Hf as <-.
  - bind_inv Hf. inversion HQ; subst. eauto.
Qed.

Section ArrayFacts.
Import NumPy.

Lemma getitem_Ok {A : Type} (a : list A) (i : nat) (x : A) :
  getitem a i = Ok x ↔ a !! i = Some x.
Proof. unfold getitem. destruct (a !! i); naive_solver. Qed.

Lemma setitem_Ok {A : Type} (a a' : list A) (i : nat) (x : A) :
  setitem a i x = Ok a' ↔ i < length a ∧ a' = <[i := x]> a.
Proof.
  unfold setitem. destruct (decide (i < length a)) as [Hi|Hi]; split.
  - by intros [= <-].
  - by intros [_ ->].
  - intros [=].
  - by intros [? _].
Qed.

Lemma norm_index_nat (n j : nat) :
  j < n → norm_index n (Z.of_nat j) = Ok j.
Proof.
  intros Hj. unfold norm_index.
  rewrite decide_True by lia. by rewrite Nat2Z.id.
Qed.

Lemma norm_index_Ok (n : nat) (z : Z) (j : nat) :
  norm_index n z = Ok j → j < n.
Proof.
  unfold norm_index.
  destruct (decide (0 ≤ z < Z.of_nat n)%Z); [intros [= <-]; lia|].
  destruct (decide (- Z.of_nat n ≤ z < 0)%Z); [intros [= <-]; lia|done].
Qed.


Lemma setitem2_nat {A : Type} (m : list (list A)) (i j : nat) (x : A) row :
  m !! i = Some row → j < length row →
  setitem2 m i (Z.of_nat j) x = Ok (<[i := <[j := x]> row]> m).
Proof.
  intros Hrow Hj. unfold setitem2.
  rewrite (proj2 (getitem_Ok m i row) Hrow). simpl.
  by rewrite norm_index_nat.
Qed.

Lemma setitem2_Ok {A : Type} (m m' : list (list A)) (i : nat) (z : Z) (x : A) :
  setitem2 m i z x = Ok m' →
  ∃ row j, m !! i = Some row ∧ j < length row ∧ norm_index (length row) z = Ok j
           ∧ m' = <[i := <[j := x]> row]> m.
Proof.
  unfold setitem2. intros H. bind_inv H. bind_inv H. injection H as <-.
  apply getitem_Ok in Hbind. exists a, a0. split_and!; try done.
  by eapply norm_index_Ok.
Qed.

End ArrayFacts.

(** ** [find_index] and the write of the extension branch *)

Section FindIndex.
Import NumPy P1DofMap.

Lemma find_index_from_found (array : list nat) (value : nat) (start : Z) :
  value ∈ array →
  ∃ j : nat, find_index_from start array value = (start + Z.of_nat j)%Z
             ∧ array !! j = Some value
             ∧ ∀ i, i < j → array !! i ≠ Some value.
Proof.
  revert start. induction array as [|val rest IH]; intros start Hin.
  - by apply elem_of_nil in Hin.
  - simpl. case_decide as Hval.
    + subst. exists 0. split_and!; [lia | done | lia].
    + apply elem_of_cons in Hin as [-> | Hin]; [done|].
      destruct (IH (start + 1)%Z Hin) as (j & Hj & Hlook & Hfirst).
      exists (S j). split_and!; [lia | done |].
      intros [|i] Hi; simpl; [congruence|]. apply Hfirst. lia.
Qed.

Lemma find_index_from_missing (array : list nat) (value : nat) (start : Z) :
  value ∉ array → find_index_from start array value = (-1)%Z.
Proof.
  revert start. induction array as [|val rest IH]; intros start Hin; [done|].
  simpl. apply not_elem_of_cons in Hin as [Hne Hin].
  rewrite decide_False by done. by apply IH.
Qed.

Lemma find_index_column_found (t : nat * nat * nat) (value : nat) :
  value ∈ column t →
  ∃ j : nat, find_index (column t) value = Z.of_nat j ∧ j < 3
             ∧ column t !! j = Some value.
Proof.
  intros Hin.
  destruct (find_index_from_found _ _ 0%Z Hin) as (j & Hj & Hlook & _).
  exists j. split_and!; [unfold find_index; by rewrite Hj | | done].
  apply lookup_lt_Some in Hlook. by destruct t as [[? ?] ?].
Qed.

End FindIndex.


Section ExtensionWrite.
Import NumPy P1DofMap.



End ExtensionWrite.


(** ** The first loop when the extension branch is switched off *)

Section QuietLoop.
Import NumPy P1DofMap.
Context {R : Type}.
Variable grid_data : GridData R.
Variable support : list bool.
Variables include_boundary_dofs ensure_global_continuity : bool.
Variables vertex_neighbors index_ptr : list nat.

Abbreviation visit_corner' :=
  (visit_corner grid_data support include_boundary_dofs ensure_global_continuity
     vertex_neighbors index_ptr).
Abbreviation visit_element' :=
  (visit_element grid_data support include_boundary_dofs ensure_global_continuity
     vertex_neighbors index_ptr).
Abbreviation first_loop' :=
  (first_loop grid_data support include_boundary_dofs ensure_global_continuity
     vertex_neighbors index_ptr).

Hypothesis quiet : ensure_global_continuity && include_boundary_dofs = false.

Lemma visit_corner_keeps_list (element_index local_index : nat) (st st' : pass1) :
  visit_corner' element_index local_index st = Ok st' →
  elements_in_support st' = elements_in_support st.
Proof.
  unfold visit_corner. intros H.
  do 5 bind_inv H.
  rewrite <- andb_assoc, quiet, andb_false_r in H. injection H as <-.
  destruct (include_boundary_dofs || _).
  - do 2 bind_inv Hbind3. by injection Hbind3 as <-.
  - by injection Hbind3 as <-.
Qed.

Lemma visit_element_keeps_list (element_index : nat) (st st' : pass1) :
  visit_element' element_index st = Ok st' →
  elements_in_support st' = elements_in_support st.
Proof.
  unfold visit_element.
  apply (foldM_invariant _
           (λ t, elements_in_support t = elements_in_support st) (λ _, True)).
  - intros j t t' _ Ht Hv. rewrite <- Ht. by eapply visit_corner_keeps_list.
  - by apply Forall_forall.
  - done.
Qed.

(** With the extension branch off the list never grows, and the loop is a
    plain fold over the elements that are left. *)
Lemma first_loop_quiet (fuel position : nat) (st : pass1) :
  length (elements_in_support st) - position ≤ fuel →
  first_loop' fuel position st
  = Some (foldM visit_element' (drop position (elements_in_support st)) st).
Proof.
  revert position st. induction fuel as [|fuel IH]; intros position st Hfuel.
  - assert (Hnone : elements_in_support st !! position = None)
      by (apply lookup_ge_None; lia).
    simpl. rewrite Hnone. rewrite drop_ge by lia. done.
  - simpl. destruct (elements_in_support st !! position) as [e|] eqn:He.
    + rewrite (drop_S _ e) by done. simpl.
      destruct (visit_element' e st) as [st'|err] eqn:Hv; simpl; [|done].
      pose proof (visit_element_keeps_list _ _ _ Hv) as Hlist.
      rewrite IH by (rewrite Hlist; lia). by rewrite Hlist.
    + apply lookup_ge_None in He. by rewrite drop_ge by lia.
Qed.

Lemma run_quiet (fuel : nat) :
  length (flatnonzero support) ≤ fuel →
  run grid_data support include_boundary_dofs ensure_global_continuity
    vertex_neighbors index_ptr fuel
  = Some (do st <- foldM visit_element' (flatnonzero support)
                     (initial_pass1 grid_data support);
          second_part grid_data st (initial_pass2 grid_data)).
Proof.
  intros Hfuel. unfold run.
  rewrite first_loop_quiet by (simpl; lia). simpl.
  by destruct (foldM _ _ _).
Qed.

End QuietLoop.

(** ** [ensure_global_continuity] without [include_boundary_dofs] *)

Section FlagWithoutEffect.
Import NumPy P1DofMap.
Context {R : Type}.
Variable grid_data : GridData R.
Variable support : list bool.
Variables vertex_neighbors index_ptr : list nat.

Lemma visit_corner_ensure_irrelevant (element_index local_index : nat) (st : pass1) :
  visit_corner grid_data support false true vertex_neighbors index_ptr
    element_index local_index st
  = visit_corner grid_data support false false vertex_neighbors index_ptr
      element_index local_index st.
Proof.
  unfold visit_corner.
  destruct (getitem (elements grid_data) element_index) as [col|]; simpl; [|done].
  destruct (getitem (column col) local_index) as [vertex|]; simpl; [|done].
  destruct (neighbors_of vertex_neighbors index_ptr vertex) as [ns|]; simpl; [|done].
  destruct (non_support support ns) as [nsn|]; simpl; [|done].
  match goal with |- bind ?m _ = _ => destruct m as [st1|] end; simpl; [|done].
  by rewrite !andb_false_r.
Qed.

Lemma visit_element_ensure_irrelevant (element_index : nat) (st : pass1) :
  visit_element grid_data support false true vertex_neighbors index_ptr
    element_index st
  = visit_element grid_data support false false vertex_neighbors index_ptr
      element_index st.
Proof.
  unfold visit_element. generalize (seq 0 3). intros l. revert st.
  induction l as [|j l IH]; intros st; simpl; [done|].
  rewrite visit_corner_ensure_irrelevant.
  destruct (visit_corner _ _ _ _ _ _ _ _ _); simpl; [apply IH | done].
Qed.

Lemma first_loop_ensure_irrelevant (fuel position : nat) (st : pass1) :
  first_loop grid_data support false true vertex_neighbors index_ptr fuel position st
  = first_loop grid_data support false false vertex_neighbors index_ptr
      fuel position st.
Proof.
  revert position st. induction fuel as [|fuel IH]; intros position st; simpl; [done|].
  destruct (elements_in_support st !! position) as [e|]; [|done].
  rewrite visit_element_ensure_irrelevant.
  destruct (visit_element _ _ _ _ _ _ _ _); [apply IH | done].
Qed.

(** C7.  With [include_boundary_dofs] false, [ensure_global_continuity]
    makes no difference: for every amount of fuel the two calls have the
    same outcome, be it the returned pair of arrays or an exception; and
    with as much fuel as there are support elements both calls do end. *)
Theorem ensure_global_continuity_alone_is_noop (fuel : nat) :
  _compute_p1_dof_map grid_data support false true vertex_neighbors index_ptr fuel
  = _compute_p1_dof_map grid_data support false false vertex_neighbors index_ptr fuel
  ∧ (length (flatnonzero support) ≤ fuel →
     is_Some (_compute_p1_dof_map grid_data support false false
                vertex_neighbors index_ptr fuel)).
Proof.
  split.
  - unfold _compute_p1_dof_map, run. by rewrite first_loop_ensure_irrelevant.
  - intros Hfuel. unfold _compute_p1_dof_map.
    rewrite run_quiet by done.
    by destruct (bind _ _).
Qed.

End FlagWithoutEffect.

Lemma ensure_global_continuity_alone_is_noop_witness :
  let grid_data : GridData unit :=
    {| elements := [(0, 1, 2); (1, 2, 3)]; number_of_vertices := 4;
       jac_inv_trans := [] |} in
  let vertex_neighbors := [0; 0; 1; 0; 1; 1] in
  let index_ptr := [0; 1; 3; 5; 6] in
  P1DofMap._compute_p1_dof_map grid_data [true; false] false true
    vertex_neighbors index_ptr 1
  = P1DofMap._compute_p1_dof_map grid_data [true; false] false false
      vertex_neighbors index_ptr 1
  ∧ is_Some (P1DofMap._compute_p1_dof_map grid_data [true; false] false false
               vertex_neighbors index_ptr 1).
Proof.
  intros grid_data vertex_neighbors index_ptr.
  destruct (ensure_global_continuity_alone_is_noop grid_data [true; false]
              vertex_neighbors index_ptr 1) as [Heq Hsome].
  split; [exact Heq|]. apply Hsome. vm_compute. lia.
Defined.


(** ** The working list under continuity extension *)

Module Divergence.
Import NumPy P1DofMap.

Import Meshes.TwoTriangles.

Abbreviation visit :=
  (visit_element grid_data support true true vertex_neighbors index_ptr).
Abbreviation loop :=
  (first_loop grid_data support true true vertex_neighbors index_ptr).


(** Each visit of element 1 appends element 1 three more times. *)
Lemma visit_steady (work : list nat) :
  visit 1 (steady work) = Ok (steady (((work ++ [1]) ++ [1]) ++ [1])).
Proof. reflexivity. Qed.

Lemma loop_steady (fuel position : nat) (work : list nat) :
  position < length work →
  (∀ i, position ≤ i → i < length work → work !! i = Some 1) →
  loop fuel position (steady work) = None.
Proof.
  revert position work. induction fuel as [|fuel IH]; intros position work Hpos Hones.
  - simpl. by rewrite Hones.
  - cbn [first_loop]. cbn [elements_in_support steady]. rewrite Hones by lia.
    rewrite visit_steady. apply IH.
    + rewrite !length_app. simpl. lia.
    + intros i Hle Hlt. rewrite !length_app in Hlt. simpl in Hlt.
      destruct (decide (i < length work)) as [Hi|Hi].
      * rewrite !lookup_app_l by (rewrite ?length_app; simpl; lia).
        apply Hones; lia.
      * rewrite <- !(assoc_L (++)). rewrite lookup_app_r by lia.
        simpl. destruct (i - length work) as [|[|[|?]]] eqn:Hd; try done. lia.
Qed.

Lemma loop_from_start (fuel : nat) :
  loop fuel 0 (initial_pass1 grid_data support) = None.
Proof.
  destruct fuel as [|[|fuel]]; [reflexivity | reflexivity |].
  change (loop (S (S fuel)) 0 (initial_pass1 grid_data support))
    with (loop fuel 2 (steady [0; 1; 1; 1; 1; 1])).
  apply loop_steady; [simpl; lia|].
  intros [|[|[|[|[|[|i]]]]]] Hle Hlt; simpl in *; try done; lia.
Qed.

(** C1.  On two triangles with one of them in the support and both flags
    set, the traversal never reaches the end of its working list: whatever
    the number of iterations granted, [_compute_p1_dof_map] has not left
    its first loop. *)
Theorem working_list_never_exhausted (fuel : nat) :
  _compute_p1_dof_map grid_data support true true vertex_neighbors index_ptr fuel
  = None.
Proof. unfold _compute_p1_dof_map, run. by rewrite loop_from_start. Qed.


End Divergence.


(** ** What the first loop maintains, whatever the flags *)

Section FirstLoopInvariant.
Import NumPy P1DofMap Invariants.
Context {R : Type}.
Variable grid_data : GridData R.
Variable support : list bool.
Variables include_boundary_dofs ensure_global_continuity : bool.
Variables vertex_neighbors index_ptr : list nat.

Hypothesis vertices_fit : (Z.of_nat (number_of_vertices grid_data) ≤ 2 ^ 31)%Z.

Lemma wrap_int32_small (v : nat) :
  v < number_of_vertices grid_data → wrap_int32 (Z.of_nat v) = Z.of_nat v.
Proof.
  intros Hv. unfold wrap_int32.
  rewrite Z.mod_small by lia. lia.
Qed.

Lemma setitem2_entries (m m' : list (list Z)) (i : nat) (z x : Z) :
  setitem2 m i z x = Ok m' → rows3 grid_data m →
  rows3 grid_data m'
  ∧ ∀ e row' j y, m' !! e = Some row' → row' !! j = Some y →
      y = x ∨ ∃ row, m !! e = Some row ∧ row !! j = Some y.
Proof.
  intros Hset [Hlen Hrows].
  apply setitem2_Ok in Hset as (row & k & Hrow & Hk & _ & ->).
  split.
  - split; [by rewrite length_insert|].
    intros e row' Hrow'.
    destruct (decide (i = e)) as [->|Hne].
    + rewrite list_lookup_insert_eq in Hrow' by (by eapply lookup_lt_Some).
      injection Hrow' as <-. rewrite length_insert. by eapply Hrows.
    + rewrite list_lookup_insert_ne in Hrow' by done. by eapply Hrows.
  - intros e row' j y Hrow' Hy.
    destruct (decide (i = e)) as [->|Hne].
    + rewrite list_lookup_insert_eq in Hrow' by (by eapply lookup_lt_Some).
      injection Hrow' as <-.
      destruct (decide (k = j)) as [->|Hkj].
      * rewrite list_lookup_insert_eq in Hy by done. left. congruence.
      * rewrite list_lookup_insert_ne in Hy by done. right. eauto.
    + rewrite list_lookup_insert_ne in Hrow' by done. right. eauto.
Qed.

Lemma extend_neighbors_entries (vertex : nat) (nsn : list nat) (m m' : list (list Z)) :
  extend_neighbors grid_data vertex nsn m = Ok m' → rows3 grid_data m →
  rows3 grid_data m'
  ∧ ∀ e row' j y, m' !! e = Some row' → row' !! j = Some y →
      y = wrap_int32 (Z.of_nat vertex) ∨ ∃ row, m !! e = Some row ∧ row !! j = Some y.
Proof.
  revert m. induction nsn as [|en rest IH]; intros m Hext Hm; simpl in Hext.
  - injection Hext as <-. split; [done|]. intros; right; eauto.
  - bind_step Hext as col Hcol. bind_step Hext as m1 Hset.
    destruct (setitem2_entries _ _ _ _ _ Hset Hm) as [Hm1 Hent1].
    destruct (IH _ Hext Hm1) as [Hm' Hent'].
    split; [done|].
    intros e row' j y Hrow' Hy.
    destruct (Hent' _ _ _ _ Hrow' Hy) as [->|(row1 & Hrow1 & Hy1)]; [by left|].
    by apply (Hent1 _ _ _ _ Hrow1 Hy1).
Qed.

Lemma visit_corner_sound (element_index local_index : nat) (st st' : pass1) :
  sound1 grid_data st →
  visit_corner grid_data support include_boundary_dofs ensure_global_continuity
    vertex_neighbors index_ptr element_index local_index st = Ok st' →
  sound1 grid_data st'.
Proof.
  intros [[Hrows Hvid] Hmarked] Hvisit. unfold visit_corner in Hvisit.
  bind_step Hvisit as col Hcol. bind_step Hvisit as vertex Hvertex.
  bind_step Hvisit as neighbors Hneighbors. bind_step Hvisit as nsn Hnsn.
  bind_step Hvisit as st1 Hfirst.
  (* the state after the first conditional *)
  assert (Hst1 : sound1 grid_data st1
                 ∧ (include_boundary_dofs = true →
                    vertex < number_of_vertices grid_data
                    ∧ vertex_is_dof st1 !! vertex = Some true)).
  { destruct (include_boundary_dofs || _) eqn:Hcond.
    - bind_step Hfirst as l2g Hl2g. bind_step Hfirst as vid Hset.
      injection Hfirst as <-.
      apply setitem_Ok in Hset as [Hlt ->].
      destruct (setitem2_entries _ _ _ _ _ Hl2g Hrows) as [Hrows1 Hent1].
      split; [split; [split|]|]; simpl.
      + done.
      + by rewrite length_insert.
      + unfold entries_marked. simpl. intros e row j z Hrow Hz Hne.
        destruct (Hent1 _ _ _ _ Hrow Hz) as [->|(row0 & Hrow0 & Hz0)].
        * exists vertex. split; [apply wrap_int32_small; lia|].
          by apply list_lookup_insert_eq.
        * destruct (Hmarked _ _ _ _ Hrow0 Hz0 Hne) as (v & -> & Hv').
          exists v. split; [done|].
          destruct (decide (vertex = v)) as [->|Hvv].
          -- by apply list_lookup_insert_eq.
          -- by rewrite list_lookup_insert_ne.
      + intros _. split; [lia|]. by apply list_lookup_insert_eq.
    - injection Hfirst as <-. split; [done|].
      intros ->. done. }
  destruct Hst1 as [[[Hrows1 Hvid1] Hmarked1] Hincl].
  destruct (bool_decide _ && _ && _) eqn:Hext.
  - bind_step Hvisit as l2g Hl2g. injection Hvisit as <-.
    apply andb_prop in Hext as [_ Hi]. destruct (Hincl Hi) as [Hlt Htrue].
    destruct (extend_neighbors_entries _ _ _ _ Hl2g Hrows1) as [Hrows' Hent'].
    split; [split; done|]. unfold entries_marked. simpl.
    intros e row j z Hrow Hz Hne.
    destruct (Hent' _ _ _ _ Hrow Hz) as [->|(row0 & Hrow0 & Hz0)].
    + exists vertex. split; [by apply wrap_int32_small | done].
    + by eapply Hmarked1.
  - injection Hvisit as <-. done.
Qed.

Lemma visit_element_sound (element_index : nat) (st st' : pass1) :
  sound1 grid_data st →
  visit_element grid_data support include_boundary_dofs ensure_global_continuity
    vertex_neighbors index_ptr element_index st = Ok st' →
  sound1 grid_data st'.
Proof.
  intros Hst. unfold visit_element.
  apply (foldM_invariant _ (sound1 grid_data) (λ _, True)); [|by apply Forall_forall|done].
  intros j t t' _ Ht Hv. by eapply visit_corner_sound.
Qed.

Lemma first_loop_sound (fuel position : nat) (st st' : pass1) :
  sound1 grid_data st →
  first_loop grid_data support include_boundary_dofs ensure_global_continuity
    vertex_neighbors index_ptr fuel position st = Some (Ok st') →
  sound1 grid_data st'.
Proof.
  revert position st. induction fuel as [|fuel IH]; intros position st Hst; simpl.
  - destruct (elements_in_support st !! position); [done|]. by intros [= <-].
  - destruct (elements_in_support st !! position) as [e|]; [|by intros [= <-]].
    destruct (visit_element _ _ _ _ _ _ _ _) as [st1|] eqn:Hv; [|done].
    apply IH. by eapply visit_element_sound.
Qed.

Lemma initial_pass1_sound : sound1 grid_data (initial_pass1 grid_data support).
Proof.
  split; [split; [split|]|]; simpl.
  - by rewrite length_replicate.
  - intros e row Hrow. apply lookup_replicate in Hrow as [-> _]. done.
  - by rewrite length_replicate.
  - unfold entries_marked. simpl. intros e row j z Hrow Hz Hne.
    apply lookup_replicate in Hrow as [-> _].
    destruct j as [|[|[|j]]]; simpl in Hz; try done; congruence.
Qed.

End FirstLoopInvariant.


(** ** The second loop *)

Lemma foldM_total {A S : Type} (f : A → S → result S) (P : S → Prop)
    (Q : A → Prop) (l : list A) (s : S) :
  (∀ x t, Q x → P t → ∃ t', f x t = Ok t' ∧ P t') →
  Forall Q l → P s → ∃ s', foldM f l s = Ok s' ∧ P s'.
Proof.
  intros Hstep. revert s. induction l as [|x l IH]; intros s HQ Hs; simpl.
  - by exists s.
  - inversion HQ; subst.
    destruct (Hstep x s) as (t' & -> & Ht'); [done..|]. simpl. by apply IH.
Qed.

Section Entries.
Import NumPy Invariants Invariants2.

Lemma entry_insert (m : list (list Z)) (e j : nat) (x : Z) (row : list Z)
    (e' j' : nat) :
  m !! e = Some row → j < length row →
  entry (<[e := <[j := x]> row]> m) e' j'
  = if decide (e' = e ∧ j' = j) then Some x else entry m e' j'.
Proof.
  intros Hrow Hj. unfold entry.
  destruct (decide (e' = e)) as [->|Hne].
  - rewrite list_lookup_insert_eq by (by eapply lookup_lt_Some). simpl.
    rewrite Hrow. simpl.
    destruct (decide (j' = j)) as [->|Hnj].
    + rewrite decide_True by done. by apply list_lookup_insert_eq.
    + rewrite decide_False by (by intros [_ ?]). by apply list_lookup_insert_ne.
  - rewrite list_lookup_insert_ne by done.
    by rewrite decide_False by (by intros [? _]).
Qed.

Lemma entry_Some_lt {R : Type} (grid_data : GridData R) (m : list (list Z))
    (e j : nat) (z : Z) :
  rows3 grid_data m → entry m e j = Some z →
  e < number_of_elements grid_data ∧ j < 3.
Proof.
  intros [Hlen Hrows] He. unfold entry in He.
  destruct (m !! e) as [row|] eqn:Hrow; [|done]. simpl in He.
  split.
  - rewrite <- Hlen. by eapply lookup_lt_Some.
  - rewrite <- (Hrows _ _ Hrow). by eapply lookup_lt_Some.
Qed.

Lemma entry_is_Some {R : Type} (grid_data : GridData R) (m : list (list Z))
    (e j : nat) :
  rows3 grid_data m → e < number_of_elements grid_data → j < 3 →
  ∃ row z, m !! e = Some row ∧ row !! j = Some z ∧ entry m e j = Some z.
Proof.
  intros [Hlen Hrows] He Hj.
  destruct (lookup_lt_is_Some_2 m e) as [row Hrow]; [lia|].
  destruct (lookup_lt_is_Some_2 row j) as [z Hz];
    [rewrite (Hrows _ _ Hrow); lia|].
  exists row, z. split_and!; try done. unfold entry. by rewrite Hrow.
Qed.

Lemma getitem2_entry (m : list (list Z)) (e j : nat) (z : Z) :
  getitem2 m e j = Ok z ↔ entry m e j = Some z.
Proof.
  unfold getitem2, entry, getitem.
  destruct (m !! e) as [row|]; simpl; [|naive_solver].
  destruct (row !! j); naive_solver.
Qed.

(** A successful write of [x] at [(e, j)], seen through [entry]. *)
Lemma setitem2_total {R : Type} (grid_data : GridData R) (m : list (list Z))
    (e j : nat) (x : Z) :
  rows3 grid_data m → e < number_of_elements grid_data → j < 3 →
  ∃ m', setitem2 m e (Z.of_nat j) x = Ok m' ∧ rows3 grid_data m'
        ∧ ∀ e' j', entry m' e' j'
                   = if decide (e' = e ∧ j' = j) then Some x else entry m e' j'.
Proof.
  intros Hm He Hj.
  destruct (entry_is_Some grid_data m e j Hm He Hj) as (row & z & Hrow & Hz & _).
  pose proof (lookup_lt_Some _ _ _ Hz) as Hlt.
  exists (<[e := <[j := x]> row]> m). split_and!.
  - by apply setitem2_nat.
  - destruct Hm as [Hlen Hrows]. split; [by rewrite length_insert|].
    intros e' row' Hrow'.
    destruct (decide (e = e')) as [->|Hne].
    + rewrite list_lookup_insert_eq in Hrow' by (by eapply lookup_lt_Some).
      injection Hrow' as <-. rewrite length_insert. by eapply Hrows.
    + rewrite list_lookup_insert_ne in Hrow' by done. by eapply Hrows.
  - intros e' j'. by apply entry_insert.
Qed.

End Entries.


Section SecondLoop.
Import NumPy P1DofMap Invariants Invariants2.
Context {R : Type}.
Variable grid_data : GridData R.
Variable l2g : list (list Z).
Variable dofs : list Z.
Variable gdc : nat.

Hypothesis l2g_rows : rows3 grid_data l2g.
Hypothesis cover : dofs_cover l2g dofs gdc.
Hypothesis gdc_fits : (Z.of_nat gdc ≤ 2 ^ 32)%Z.

Abbreviation sound2' := (sound2 grid_data l2g gdc).

Lemma translate_slot_sound (e j : nat) (out : pass2) :
  e < number_of_elements grid_data → j < 3 → sound2' out →
  ∃ out', translate_slot l2g dofs e j out = Ok out' ∧ sound2' out'.
Proof.
  intros He Hj (Hshape & [Hassigned Hbound] & Hinert).
  destruct (entry_is_Some grid_data l2g e j l2g_rows He Hj)
    as (row & z & Hrow & Hz & Hentry).
  unfold translate_slot.
  rewrite (proj2 (getitem2_entry l2g e j z) Hentry). simpl.
  destruct (decide (z = (-1)%Z)) as [->|Hz1].
  { exists out. split; [done|]. split; [done|]. split; [by split|done]. }
  destruct (cover e j z Hentry Hz1) as (k & Hk & ->). simpl.
  destruct Hshape as (Hf & Hm & Hs).
  unfold setitem. rewrite decide_True by lia. simpl.
  destruct (setitem2_total grid_data (local2global_final out) e j
              (wrap_uint32 (Z.of_nat k)) Hf He Hj) as (f' & -> & Hf' & Hfe).
  destruct (setitem2_total grid_data (local_multipliers out) e j 1%Z Hm He Hj)
    as (m' & -> & Hm' & Hme).
  simpl. eexists. split; [done|].
  assert (Hwrap : wrap_uint32 (Z.of_nat k) = Z.of_nat k)
    by (unfold wrap_uint32; apply Z.mod_small; lia).
  split; [|split; [split|]]; simpl.
  - split_and!; try done. simpl. by rewrite length_insert.
  - intros e' j' H1. rewrite Hme in H1.
    destruct (decide (e' = e ∧ j' = j)) as [[-> ->]|_]; [eauto|by apply Hassigned].
  - intros e' j' x H1 Hx. rewrite Hme in H1. rewrite Hfe in Hx.
    destruct (decide (e' = e ∧ j' = j)) as [_|_]; [|by eapply Hbound].
    injection Hx as <-. lia.
  - intros e' Hall j' Hj'. rewrite Hfe, Hme.
    destruct (decide (e' = e ∧ j' = j)) as [[-> ->]|_]; [|by apply Hinert].
    specialize (Hall j Hj). congruence.
Qed.

Lemma translate_slot_Ok_lt (e j : nat) (out out' : pass2) :
  translate_slot l2g dofs e j out = Ok out' → e < number_of_elements grid_data.
Proof.
  unfold translate_slot. intros H. bind_step H as z Hz.
  apply getitem2_entry in Hz. by eapply entry_Some_lt.
Qed.

(** The minimum is taken over the whole row, the untouched slots
    included; on a row of zeros it is zero. *)
Lemma fill_slot_sound (e j : nat) (min_dof : Z) (out : pass2) :
  e < number_of_elements grid_data → j < 3 →
  ((∀ i, i < 3 → entry l2g e i = Some (-1)%Z) → min_dof = 0%Z) →
  sound2' out →
  ∃ out', fill_slot l2g min_dof e j out = Ok out' ∧ sound2' out'.
Proof.
  intros He Hj Hmin (Hshape & [Hassigned Hbound] & Hinert).
  destruct (entry_is_Some grid_data l2g e j l2g_rows He Hj)
    as (row & z & Hrow & Hz & Hentry).
  unfold fill_slot.
  rewrite (proj2 (getitem2_entry l2g e j z) Hentry). simpl.
  destruct (decide (z = (-1)%Z)) as [->|Hz1].
  2: { exists out. split; [done|]. split; [done|]. split; [by split|done]. }
  destruct Hshape as (Hf & Hm & Hs).
  destruct (setitem2_total grid_data (local2global_final out) e j min_dof Hf He Hj)
    as (f' & -> & Hf' & Hfe).
  simpl. eexists. split; [done|].
  split; [|split; [split|]]; simpl.
  - done.
  - done.
  - intros e' j' x H1 Hx. rewrite Hfe in Hx.
    destruct (decide (e' = e ∧ j' = j)) as [[-> ->]|_]; [|by eapply Hbound].
    destruct (Hassigned _ _ H1) as (z' & Hz' & Hne). congruence.
  - intros e' Hall j' Hj'. rewrite Hfe.
    destruct (decide (e' = e ∧ j' = j)) as [[-> ->]|_]; [|by apply Hinert].
    rewrite (Hmin Hall). split; [done|]. by apply (Hinert e Hall j Hj).
Qed.

Lemma foldl_min_zero (x : Z) (l : list Z) :
  x = 0%Z → Forall (λ y, y = 0%Z) l → foldl Z.min x l = 0%Z.
Proof.
  intros ->. induction 1 as [|y l -> _ IH]; simpl; [done|]. apply IH.
Qed.

Lemma finalise_element_sound (e : nat) (out : pass2) :
  e < number_of_elements grid_data → sound2' out →
  ∃ out', finalise_element l2g dofs e out = Ok out' ∧ sound2' out'.
Proof.
  intros He Hout. unfold finalise_element.
  destruct (foldM_total (translate_slot l2g dofs e) sound2' (λ j, j < 3)
              (seq 0 3) out) as (out1 & -> & Hout1).
  { intros j t Hj Ht. by apply translate_slot_sound. }
  { repeat constructor. }
  { done. }
  cbn [bind].
  pose proof Hout1 as ((Hf & _ & _) & _ & Hinert).
  destruct (entry_is_Some grid_data _ e 0 Hf He) as (row & z & Hrow & _ & _); [lia|].
  rewrite (proj2 (getitem_Ok _ _ _) Hrow). cbn [bind].
  pose proof (proj2 Hf _ _ Hrow) as Hlen.
  destruct row as [|x0 [|x1 [|x2 [|]]]]; try done.
  unfold NumPy.min. cbn [bind].
  apply (foldM_total _ sound2' (λ j, j < 3)); [|repeat constructor|done].
  intros j t Hj Ht. apply fill_slot_sound; try done.
  intros Hall.
  assert (Hzero : ∀ i, i < 3 → [x0; x1; x2] !! i = Some 0%Z).
  { intros i Hi. destruct (Hinert e Hall i Hi) as [Hi0 _].
    unfold entry in Hi0. by rewrite Hrow in Hi0. }
  pose proof (Hzero 0 ltac:(lia)) as H0.
  pose proof (Hzero 1 ltac:(lia)) as H1.
  pose proof (Hzero 2 ltac:(lia)) as H2.
  simpl in H0, H1, H2. injection H0 as ->. injection H1 as ->. injection H2 as ->.
  done.
Qed.

Lemma finalise_element_Ok_lt (e : nat) (out out' : pass2) :
  finalise_element l2g dofs e out = Ok out' → e < number_of_elements grid_data.
Proof.
  unfold finalise_element. intros H. bind_step H as out1 Hout1.
  simpl in Hout1. bind_step Hout1 as t Ht. by eapply translate_slot_Ok_lt.
Qed.

Lemma finalise_element_preserves (e : nat) (out out' : pass2) :
  sound2' out → finalise_element l2g dofs e out = Ok out' → sound2' out'.
Proof.
  intros Hout Hfin.
  pose proof (finalise_element_Ok_lt _ _ _ Hfin) as He.
  destruct (finalise_element_sound e out He Hout) as (out'' & Heq & Hs).
  congruence.
Qed.

Lemma second_loop_preserves (work : list nat) (out out' : pass2) :
  sound2' out → foldM (finalise_element l2g dofs) work out = Ok out' →
  sound2' out'.
Proof.
  apply (foldM_invariant _ sound2' (λ _, True)); [|by apply Forall_forall].
  intros e t t' _ Ht Hfin. by eapply finalise_element_preserves.
Qed.

Lemma second_loop_total (work : list nat) (out : pass2) :
  Forall (λ e, e < number_of_elements grid_data) work → sound2' out →
  ∃ out', foldM (finalise_element l2g dofs) work out = Ok out' ∧ sound2' out'.
Proof.
  apply foldM_total. intros e t He Ht. by apply finalise_element_sound.
Qed.

Lemma initial_pass2_sound : sound2' (initial_pass2 grid_data).
Proof.
  assert (Hrows : rows3 grid_data
                    (replicate (number_of_elements grid_data) [0%Z; 0%Z; 0%Z])).
  { split; [by rewrite length_replicate|].
    intros e row Hrow. by apply lookup_replicate in Hrow as [-> _]. }
  assert (Hentry : ∀ e j z,
             entry (replicate (number_of_elements grid_data) [0%Z; 0%Z; 0%Z]) e j
             = Some z → z = 0%Z).
  { intros e j z. unfold entry.
    destruct (replicate _ _ !! e) as [row|] eqn:Hrow; [|done].
    apply lookup_replicate in Hrow as [-> _]. simpl.
    destruct j as [|[|[|j]]]; simpl; intros [= <-]; done. }
  split; [|split; [split|]]; simpl.
  - split_and!; try done. simpl. by rewrite length_replicate.
  - intros e j H1. by apply Hentry in H1.
  - intros e j x H1. by apply Hentry in H1.
  - intros e Hall j Hj.
    destruct (entry_Some_lt grid_data l2g e j (-1)%Z l2g_rows (Hall j Hj)) as [He _].
    destruct (entry_is_Some grid_data _ e j Hrows He Hj) as (row & z & _ & _ & Hz).
    pose proof (Hentry _ _ _ Hz) as ->. done.
Qed.

End SecondLoop.


(** ** Numbering the DOF vertices *)

Section Numbering.
Import NumPy P1DofMap Invariants Invariants2.

Lemma elem_of_flatnonzero_from (a : list bool) (start i : nat) :
  i ∈ flatnonzero_from start a ↔ start ≤ i ∧ a !! (i - start) = Some true.
Proof.
  revert start. induction a as [|val rest IH]; intros start; simpl.
  - split; [by intros ?%elem_of_nil | by intros [_ ?]].
  - assert (Hrest : i ∈ flatnonzero_from (S start) rest
                    ↔ start < i ∧ (val :: rest) !! (i - start) = Some true).
    { rewrite IH. split.
      - intros [Hle Hlook]. split; [lia|].
        by replace (i - start) with (S (i - S start)) by lia.
      - intros [Hlt Hlook]. split; [lia|].
        by replace (i - start) with (S (i - S start)) in Hlook by lia. }
    destruct val.
    + rewrite elem_of_cons, Hrest. split.
      * intros [->|[Hlt Hlook]]; [by rewrite Nat.sub_diag | split; [lia|done]].
      * intros [Hle Hlook].
        destruct (decide (i = start)) as [->|Hne]; [by left|right].
        split; [lia|done].
    + rewrite Hrest. split.
      * intros [Hlt Hlook]. split; [lia|done].
      * intros [Hle Hlook].
        destruct (decide (i = start)) as [->|Hne];
          [by rewrite Nat.sub_diag in Hlook | split; [lia|done]].
Qed.

Lemma elem_of_flatnonzero (a : list bool) (i : nat) :
  i ∈ flatnonzero a ↔ a !! i = Some true.
Proof.
  unfold flatnonzero. rewrite elem_of_flatnonzero_from, Nat.sub_0_r.
  split; [by intros [_ ?] | split; [lia|done]].
Qed.

Lemma length_flatnonzero_from (a : list bool) (start : nat) :
  length (flatnonzero_from start a) ≤ length a.
Proof.
  revert start. induction a as [|[] rest IH]; intros start; simpl;
    [lia | specialize (IH (S start)); lia..].
Qed.

Lemma length_arange (n : nat) : length (arange n) = n.
Proof. unfold arange. by rewrite length_fmap, length_seq. Qed.

Lemma elem_of_arange (n : nat) (z : Z) :
  z ∈ arange n → ∃ k, k < n ∧ z = Z.of_nat k.
Proof.
  unfold arange. intros (k & -> & Hk)%list_elem_of_fmap.
  apply elem_of_seq in Hk. exists k. split; [lia|done].
Qed.

Lemma assign_at_total {A : Type} (a : list A) (idx : list nat) (vals : list A) :
  length idx = length vals → Forall (λ i, i < length a) idx →
  ∃ a', assign_at a idx vals = Ok a' ∧ length a' = length a
        ∧ ∀ i, i ∈ idx → ∃ x, x ∈ vals ∧ a' !! i = Some x.
Proof.
  revert a vals. induction idx as [|i idx IH]; intros a [|v vals] Hlen Hidx;
    simpl in *; try done.
  - exists a. split_and!; try done. by intros i ?%elem_of_nil.
  - inversion Hidx as [|? ? Hi Hrest]; subst.
    unfold setitem. rewrite decide_True by done. simpl.
    destruct (IH (<[i := v]> a) vals) as (a' & Hassign & Hlen' & Hin).
    { lia. }
    { by rewrite length_insert. }
    exists a'. split_and!; [done | by rewrite Hlen', length_insert |].
    intros i' Hi'.
    destruct (decide (i' ∈ idx)) as [Hmem|Hmem].
    + destruct (Hin i' Hmem) as (x & Hx & Hlook).
      exists x. split; [by right | done].
    + apply elem_of_cons in Hi' as [->|?]; [|done].
      exists v. split; [by left|].
      clear IH Hin Hidx.
      (* later writes go elsewhere *)
      assert (Hkeep : ∀ (b : list A) (vs : list A) b',
                 assign_at b idx vs = Ok b' → b' !! i = b !! i).
      { clear -Hmem. induction idx as [|i0 idx IH]; intros b [|v0 vs] b' Hb;
          simpl in Hb; try done.
        - by injection Hb as <-.
        - bind_step Hb as b1 Hb1. apply setitem_Ok in Hb1 as [_ ->].
          apply not_elem_of_cons in Hmem as [Hne Hmem].
          rewrite (IH Hmem _ _ _ Hb). by apply list_lookup_insert_ne. }
      rewrite (Hkeep _ _ _ Hassign).
      by apply list_lookup_insert_eq.
Qed.

Context {R : Type}.
Variable grid_data : GridData R.

Lemma compute_dofs_total (vid : list bool) :
  length vid = number_of_vertices grid_data →
  ∃ dofs, compute_dofs grid_data vid = Ok dofs
          ∧ length dofs = number_of_vertices grid_data
          ∧ ∀ v, vid !! v = Some true →
                 ∃ k, k < length (flatnonzero vid) ∧ dofs !! v = Some (Z.of_nat k).
Proof.
  intros Hlen. unfold compute_dofs.
  destruct (assign_at_total (replicate (number_of_vertices grid_data) (-1)%Z)
              (flatnonzero vid) (arange (length (flatnonzero vid))))
    as (dofs & -> & Hlen' & Hin).
  { by rewrite length_arange. }
  { apply Forall_forall. intros i Hi. apply elem_of_flatnonzero in Hi.
    rewrite length_replicate, <- Hlen. by eapply lookup_lt_Some. }
  exists dofs. split_and!; [done | by rewrite Hlen', length_replicate |].
  intros v Hv. apply elem_of_flatnonzero in Hv.
  destruct (Hin v Hv) as (x & Hx & Hlook).
  apply elem_of_arange in Hx as (k & Hk & ->). eauto.
Qed.

Lemma dofs_cover_of_sound (st : pass1) (dofs : list Z) :
  sound1 grid_data st →
  compute_dofs grid_data (vertex_is_dof st) = Ok dofs →
  dofs_cover (local2global st) dofs (length (flatnonzero (vertex_is_dof st))).
Proof.
  intros [[Hrows Hvid] Hmarked] Hdofs.
  destruct (compute_dofs_total _ Hvid) as (dofs' & Heq & Hlen & Hnum).
  assert (dofs' = dofs) as -> by congruence.
  intros e j z Hentry Hne. unfold entry in Hentry.
  destruct (local2global st !! e) as [row|] eqn:Hrow; [|done]. simpl in Hentry.
  destruct (Hmarked _ _ _ _ Hrow Hentry Hne) as (v & -> & Hv).
  destruct (Hnum v Hv) as (k & Hk & Hlook).
  exists k. split; [done|].
  unfold getitem_signed.
  rewrite norm_index_nat by (by eapply lookup_lt_Some). simpl.
  by apply getitem_Ok.
Qed.

(** What holds at the [return], whenever it is reached. *)
Lemma run_sound (support : list bool) (include_boundary_dofs
    ensure_global_continuity : bool) (vertex_neighbors index_ptr : list nat)
    (fuel : nat) (l : locals) :
  (Z.of_nat (number_of_vertices grid_data) ≤ 2 ^ 31)%Z →
  run grid_data support include_boundary_dofs ensure_global_continuity
    vertex_neighbors index_ptr fuel = Some (Ok l) →
  sound1 grid_data (first l)
  ∧ global_dof_count l = length (flatnonzero (vertex_is_dof (first l)))
  ∧ sound2 grid_data (local2global (first l)) (global_dof_count l) (second l).
Proof.
  intros Hfit Hrun. unfold run in Hrun.
  destruct (first_loop _ _ _ _ _ _ _ _ _) as [[st|]|] eqn:Hloop; try done.
  injection Hrun as Hrun.
  pose proof (first_loop_sound _ _ _ _ _ _ Hfit _ _ _ _
                (initial_pass1_sound grid_data support) Hloop) as Hst.
  unfold second_part in Hrun.
  bind_step Hrun as dofs Hdofs. bind_step Hrun as out Hout.
  injection Hrun as <-. simpl.
  split; [done|]. split; [done|].
  pose proof Hst as [[Hrows Hvid] _].
  eapply second_loop_preserves; [done | by apply dofs_cover_of_sound | |
                                 by apply initial_pass2_sound | done].
  pose proof (length_flatnonzero_from (vertex_is_dof st) 0) as Hle.
  unfold flatnonzero. lia.
Qed.

End Numbering.


(** ** The first loop on a well-formed mesh, extension branch off *)

Section Incidence.
Import NumPy P1DofMap Topology.
Context {R : Type}.
Variable grid_data : GridData R.
Variable support : list bool.

Lemma incident_to_true (v e : nat) :
  incident_to grid_data v e = true
  ↔ ∃ t, elements grid_data !! e = Some t ∧ v ∈ column t.
Proof.
  unfold incident_to. destruct (elements grid_data !! e) as [t|].
  - rewrite bool_decide_eq_true. naive_solver.
  - naive_solver.
Qed.

Lemma incident_to_lt (v e : nat) :
  incident_to grid_data v e = true → e < number_of_elements grid_data.
Proof.
  intros (t & Ht & _)%incident_to_true. by eapply lookup_lt_Some.
Qed.

Lemma interior_true (v : nat) :
  interior grid_data support v = true
  ↔ ∀ e, incident_to grid_data v e = true → in_support support e = true.
Proof.
  unfold interior. rewrite forallb_forall. split.
  - intros H e He. specialize (H e). rewrite He in H. simpl in H.
    apply H. apply in_seq. pose proof (incident_to_lt _ _ He). lia.
  - intros H e _. destruct (incident_to grid_data v e) eqn:He; [|done].
    simpl. by apply H.
Qed.

Lemma referenced_true (v : nat) :
  referenced grid_data v = true ↔ ∃ e, incident_to grid_data v e = true.
Proof.
  unfold referenced. rewrite existsb_exists. split.
  - intros (e & _ & He). eauto.
  - intros (e & He). exists e. split; [|done].
    apply in_seq. pose proof (incident_to_lt _ _ He). lia.
Qed.

Lemma non_support_total (neighbors : list nat) :
  Forall (λ n, n < length support) neighbors →
  ∃ nsn, non_support support neighbors = Ok nsn
         ∧ ∀ n, n ∈ nsn ↔ n ∈ neighbors ∧ support !! n = Some false.
Proof.
  induction 1 as [|n rest Hn _ (nsn & IH & Hin)]; simpl.
  - exists []. split; [done|]. intros n. rewrite !elem_of_nil. naive_solver.
  - destruct (lookup_lt_is_Some_2 support n Hn) as [s Hs].
    rewrite (proj2 (getitem_Ok _ _ _) Hs). simpl. rewrite IH. simpl.
    eexists. split; [done|]. intros n'.
    destruct s.
    + rewrite Hin, elem_of_cons. split; [naive_solver|].
      intros [[->|?] Hf]; [congruence | done].
    + rewrite !elem_of_cons, Hin. naive_solver.
Qed.

End Incidence.


Section QuietWellFormed.
Import NumPy P1DofMap Topology Invariants Marking.
Context {R : Type}.
Variable grid_data : GridData R.
Variable support : list bool.
Variables include_boundary_dofs ensure_global_continuity : bool.
Variables vertex_neighbors index_ptr : list nat.

Hypothesis wf : well_formed grid_data support.
Hypothesis adj : adjacency grid_data vertex_neighbors index_ptr.
Hypothesis quiet : ensure_global_continuity && include_boundary_dofs = false.

Abbreviation assignable := (assignable grid_data support include_boundary_dofs).
Abbreviation mark := (mark grid_data support include_boundary_dofs).

Lemma in_support_true (e : nat) :
  in_support support e = true ↔ support !! e = Some true.
Proof.
  unfold in_support. destruct (support !! e) as [[]|]; naive_solver.
Qed.

Lemma neighbors_total (v : nat) :
  v < number_of_vertices grid_data →
  ∃ neighbors nsn,
    neighbors_of vertex_neighbors index_ptr v = Ok neighbors
    ∧ non_support support neighbors = Ok nsn
    ∧ (length nsn = 0 ↔ interior grid_data support v = true).
Proof.
  intros Hv. destruct (adj v Hv) as (neighbors & Hn & Hinc).
  destruct (non_support_total support neighbors) as (nsn & Hnsn & Hin).
  { apply Forall_forall. intros n Hn'. apply Hinc in Hn'.
    rewrite (support_length _ _ wf). by eapply incident_to_lt. }
  exists neighbors, nsn. split_and!; try done.
  rewrite interior_true. split.
  - intros Hnil e He. apply length_zero_iff_nil in Hnil. subst nsn.
    apply Hinc in He as Hmem.
    destruct (lookup_lt_is_Some_2 support e) as [s Hs].
    { rewrite (support_length _ _ wf). by eapply incident_to_lt. }
    destruct s; [by apply in_support_true|].
    exfalso. eapply elem_of_nil. apply Hin. eauto.
  - intros Hall. destruct nsn as [|n nsn]; [done|]. exfalso.
    destruct (proj1 (Hin n) ltac:(by left)) as [Hmem Hf].
    apply Hinc, Hall, in_support_true in Hmem. congruence.
Qed.

Lemma visit_corner_total (e j v : nat) (t : nat * nat * nat) (st : pass1) :
  shaped1 grid_data st →
  elements grid_data !! e = Some t → column t !! j = Some v →
  ∃ st', visit_corner grid_data support include_boundary_dofs
           ensure_global_continuity vertex_neighbors index_ptr e j st = Ok st'
         ∧ shaped1 grid_data st'
         ∧ vertex_is_dof st' = mark v (vertex_is_dof st).
Proof.
  intros [Hrows Hvid] Ht Hv.
  assert (Hlt : v < number_of_vertices grid_data).
  { eapply (vertices_in_range _ _ wf); [done|]. by eapply list_elem_of_lookup_2. }
  assert (Hj : j < 3).
  { apply lookup_lt_Some in Hv. by destruct t as [[? ?] ?]. }
  destruct (neighbors_total v Hlt) as (neighbors & nsn & Hn & Hnsn & Hnil).
  unfold visit_corner.
  rewrite (proj2 (getitem_Ok _ _ _) Ht). cbn [bind].
  rewrite (proj2 (getitem_Ok _ _ _) Hv). cbn [bind].
  rewrite Hn. cbn [bind]. rewrite Hnsn. cbn [bind].
  rewrite <- andb_assoc, quiet, andb_false_r.
  unfold Marking.mark, Marking.assignable.
  assert (Hcond : bool_decide (length nsn = 0) = interior grid_data support v).
  { destruct (interior grid_data support v).
    - apply bool_decide_eq_true. by apply Hnil.
    - apply bool_decide_eq_false. intros H0. apply Hnil in H0. done. }
  rewrite Hcond.
  destruct (include_boundary_dofs || interior grid_data support v).
  - destruct (setitem2_total grid_data (local2global st) e j
                (wrap_int32 (Z.of_nat v)) Hrows) as (m' & -> & Hm' & _);
      [by eapply lookup_lt_Some | done |].
    cbn [bind]. unfold setitem. rewrite decide_True by lia. cbn [bind].
    eexists. split; [done|]. split; [|done].
    split; [done|]. simpl. by rewrite length_insert.
  - cbn [bind]. exists st. by split_and!.
Qed.

Lemma visit_element_total (e a b c : nat) (st : pass1) :
  shaped1 grid_data st → elements grid_data !! e = Some (a, b, c) →
  ∃ st', visit_element grid_data support include_boundary_dofs
           ensure_global_continuity vertex_neighbors index_ptr e st = Ok st'
         ∧ shaped1 grid_data st'
         ∧ vertex_is_dof st' = mark c (mark b (mark a (vertex_is_dof st))).
Proof.
  intros Hst Ht. unfold visit_element. simpl.
  destruct (visit_corner_total e 0 a _ st Hst Ht eq_refl) as (s0 & -> & Hs0 & E0).
  cbn [bind].
  destruct (visit_corner_total e 1 b _ s0 Hs0 Ht eq_refl) as (s1 & -> & Hs1 & E1).
  cbn [bind].
  destruct (visit_corner_total e 2 c _ s1 Hs1 Ht eq_refl) as (s2 & -> & Hs2 & E2).
  cbn [bind]. exists s2. split_and!; try done. by rewrite E2, E1, E0.
Qed.

Lemma mark_lookup (v u : nat) (vid : list bool) :
  v < length vid →
  mark v vid !! u = Some true
  ↔ vid !! u = Some true ∨ (u = v ∧ assignable v = true).
Proof.
  intros Hv. unfold Marking.mark. destruct (assignable v).
  - destruct (decide (v = u)) as [->|Hne].
    + rewrite list_lookup_insert_eq by done. naive_solver.
    + rewrite list_lookup_insert_ne by done. naive_solver.
  - naive_solver.
Qed.

Lemma length_mark (v : nat) (vid : list bool) : length (mark v vid) = length vid.
Proof.
  unfold Marking.mark. destruct (assignable v); [by rewrite length_insert | done].
Qed.

(** The loop over a list of elements: it runs to its end, and a vertex is
    marked afterwards if it was before or if it is an assignable corner
    of one of the elements. *)
Lemma first_fold_total (work : list nat) (st : pass1) :
  Forall (λ e, e < number_of_elements grid_data) work →
  shaped1 grid_data st →
  ∃ st', foldM (visit_element grid_data support include_boundary_dofs
                  ensure_global_continuity vertex_neighbors index_ptr) work st
         = Ok st'
         ∧ shaped1 grid_data st'
         ∧ ∀ u, vertex_is_dof st' !! u = Some true
                ↔ vertex_is_dof st !! u = Some true
                  ∨ (assignable u = true
                     ∧ ∃ e, e ∈ work ∧ incident_to grid_data u e = true).
Proof.
  intros Hwork. revert st. induction Hwork as [|e work He _ IH]; intros st Hst.
  - exists st. split_and!; try done. intros u.
    split; [by left|]. intros [?|(_ & e & ?%elem_of_nil & _)]; done.
  - destruct (lookup_lt_is_Some_2 (elements grid_data) e He) as [[[a b] c] Ht].
    destruct (visit_element_total e a b c st Hst Ht) as (s1 & Hs1 & Hshape1 & Evid).
    destruct (IH s1 Hshape1) as (st' & Hfold & Hshape' & Hchar).
    exists st'. simpl. rewrite Hs1. cbn [bind]. split_and!; try done.
    intros u. rewrite Hchar, Evid.
    destruct Hst as [_ Hlen].
    assert (Ha : a < length (vertex_is_dof st)).
    { rewrite Hlen. eapply (vertices_in_range _ _ wf); [done|]. simpl. set_solver. }
    assert (Hb : b < length (vertex_is_dof st)).
    { rewrite Hlen. eapply (vertices_in_range _ _ wf); [done|]. simpl. set_solver. }
    assert (Hc : c < length (vertex_is_dof st)).
    { rewrite Hlen. eapply (vertices_in_range _ _ wf); [done|]. simpl. set_solver. }
    rewrite !mark_lookup by (rewrite ?length_mark; done).
    assert (Hinc : incident_to grid_data u e = true ↔ u = a ∨ u = b ∨ u = c).
    { rewrite incident_to_true. split.
      - intros (t & Ht' & Hin). rewrite Ht in Ht'. injection Ht' as <-.
        simpl in Hin. set_solver.
      - intros Hu. exists (a, b, c). split; [done|]. simpl. set_solver. }
    split.
    + intros [[[[? | [-> ?]] | [-> ?]] | [-> ?]] | (Hass & e' & He' & Hi)].
      * by left.
      * right. split; [done|]. exists e. split; [by left|]. apply Hinc. auto.
      * right. split; [done|]. exists e. split; [by left|]. apply Hinc. auto.
      * right. split; [done|]. exists e. split; [by left|]. apply Hinc. auto.
      * right. split; [done|]. exists e'. split; [by right|done].
    + intros [?|(Hass & e' & He' & Hi)]; [by left; left; left; left|].
      apply elem_of_cons in He' as [->|He'].
      * apply Hinc in Hi as [-> | [-> | ->]]; left.
        -- left. left. by right.
        -- left. by right.
        -- by right.
      * right. eauto.
Qed.

End QuietWellFormed.


Section RunWellFormed.
Import NumPy P1DofMap Topology Invariants Invariants2 Marking.
Context {R : Type}.
Variable grid_data : GridData R.
Variable support : list bool.
Variables include_boundary_dofs ensure_global_continuity : bool.
Variables vertex_neighbors index_ptr : list nat.

Hypothesis wf : well_formed grid_data support.
Hypothesis adj : adjacency grid_data vertex_neighbors index_ptr.
Hypothesis quiet : ensure_global_continuity && include_boundary_dofs = false.

Lemma support_elements_lt :
  Forall (λ e, e < number_of_elements grid_data) (flatnonzero support).
Proof.
  apply Forall_forall. intros e He. apply elem_of_flatnonzero in He.
  rewrite <- (support_length _ _ wf). by eapply lookup_lt_Some.
Qed.

(** On a well-formed mesh with the extension branch off,
    [_compute_p1_dof_map] reaches its [return] once the fuel covers the
    support elements; the working list is then the list of support
    elements, and the marked vertices are the assignable corners of
    support elements. *)
Lemma run_total (fuel : nat) :
  length (flatnonzero support) ≤ fuel →
  ∃ l, run grid_data support include_boundary_dofs ensure_global_continuity
         vertex_neighbors index_ptr fuel = Some (Ok l)
       ∧ elements_in_support (first l) = flatnonzero support
       ∧ ∀ u, vertex_is_dof (first l) !! u = Some true
              ↔ assignable grid_data support include_boundary_dofs u = true
                ∧ ∃ e, support !! e = Some true ∧ incident_to grid_data u e = true.
Proof.
  intros Hfuel. rewrite run_quiet by done.
  pose proof (initial_pass1_sound grid_data support) as Hinit.
  destruct (first_fold_total grid_data support include_boundary_dofs
              ensure_global_continuity vertex_neighbors index_ptr wf adj quiet
              (flatnonzero support) (initial_pass1 grid_data support)
              support_elements_lt (proj1 Hinit))
    as (st & Hfold & Hshape & Hchar).
  assert (Hsound : sound1 grid_data st).
  { revert Hfold. apply (foldM_invariant _ (sound1 grid_data) (λ _, True));
      [|by apply Forall_forall|done].
    intros e t t' _ Ht Hv.
    eapply visit_element_sound; [apply (vertices_fit _ _ wf) | done | done]. }
  assert (Hlist : elements_in_support st = flatnonzero support).
  { revert Hfold.
    apply (foldM_invariant _
             (λ t, elements_in_support t = flatnonzero support) (λ _, True));
      [|by apply Forall_forall|done].
    intros e t t' _ Ht Hv. rewrite <- Ht.
    by eapply visit_element_keeps_list. }
  rewrite Hfold. cbn [bind]. unfold second_part.
  destruct (compute_dofs_total grid_data (vertex_is_dof st) (proj2 Hshape))
    as (dofs & Hdofs & _ & _).
  rewrite Hdofs. cbn [bind].
  destruct (second_loop_total grid_data (local2global st) dofs
              (length (flatnonzero (vertex_is_dof st)))
              (proj1 Hshape) (dofs_cover_of_sound grid_data st dofs Hsound Hdofs))
    with (work := elements_in_support st) (out := initial_pass2 grid_data)
    as (out & Hout & _).
  { pose proof (length_flatnonzero_from (vertex_is_dof st) 0) as Hle.
    pose proof (vertices_fit _ _ wf). destruct Hshape as [_ Hlen].
    unfold flatnonzero. lia. }
  { rewrite Hlist. apply support_elements_lt. }
  { apply initial_pass2_sound. apply Hshape. }
  rewrite Hout. cbn [bind]. eexists. split; [done|]. simpl.
  split; [done|]. intros u. rewrite Hchar. simpl. split.
  - intros [Hf|(Ha & e & He & Hi)].
    + apply lookup_replicate in Hf as [? _]. done.
    + split; [done|]. exists e. split; [by apply elem_of_flatnonzero | done].
  - intros (Ha & e & He & Hi). right. split; [done|].
    exists e. split; [by apply elem_of_flatnonzero | done].
Qed.

End RunWellFormed.


(** ** The adjacency the constructor builds *)

Section Serialise.
Import NumPy P1DofMap Helpers.

Lemma offsets_from_lookup (lists : list (list nat)) (start v : nat) (l : list nat) :
  lists !! v = Some l →
  offsets_from start lists !! v = Some (start + length (concat (take v lists)))
  ∧ offsets_from start lists !! S v
    = Some (start + length (concat (take v lists)) + length l).
Proof.
  revert start v. induction lists as [|l0 rest IH]; intros start v Hl; [done|].
  destruct v as [|v]; simpl in Hl.
  - injection Hl as ->. simpl. split; [f_equal; lia|].
    destruct rest; simpl; f_equal; lia.
  - destruct (IH (start + length l0) v Hl) as [H1 H2].
    change (offsets_from start (l0 :: rest))
      with (start :: offsets_from (start + length l0) rest).
    simpl. rewrite length_app. rewrite H1, H2. split; f_equal; lia.
Qed.

Lemma serialised_slice (lists : list (list nat)) (v : nat) (l : list nat) :
  lists !! v = Some l →
  neighbors_of (serialise_list_of_lists lists).1 (serialise_list_of_lists lists).2 v
  = Ok l.
Proof.
  intros Hl. unfold neighbors_of, serialise_list_of_lists. simpl.
  destruct (offsets_from_lookup lists 0 v l Hl) as [H1 H2].
  rewrite (proj2 (getitem_Ok _ _ _) H1). cbn [bind].
  rewrite Nat.add_1_r, (proj2 (getitem_Ok _ _ _) H2). cbn [bind].
  f_equal. unfold slice. rewrite !Nat.add_0_l.
  assert (Hc : concat lists
               = concat (take v lists) ++ l ++ concat (drop (S v) lists)).
  { rewrite <- (take_drop_middle lists v l Hl) at 1.
    by rewrite concat_app, concat_cons. }
  replace (length (concat (take v lists)) + length l
           - length (concat (take v lists))) with (length l) by lia.
  rewrite Hc, drop_app_length. by rewrite take_app_length.
Qed.

End Serialise.

Section Collect.
Import NumPy Topology ScalarSpaces Listing.
Context {R : Type}.
Variable grid_data : GridData R.
Variable support : list bool.
Hypothesis wf : well_formed grid_data support.

Lemma append_index_total (index vertex : nat) (vn : list (list nat)) :
  vertex < length vn →
  ∃ vn', append_index index vertex vn = Ok vn' ∧ length vn' = length vn
         ∧ ∀ v e, listed vn' v e ↔ listed vn v e ∨ (v = vertex ∧ e = index).
Proof.
  intros Hv. destruct (lookup_lt_is_Some_2 vn vertex Hv) as [l Hl].
  unfold append_index. rewrite (proj2 (getitem_Ok _ _ _) Hl). cbn [bind].
  eexists. split; [done|]. split; [by rewrite length_insert|].
  intros v e. unfold listed.
  destruct (decide (vertex = v)) as [->|Hne].
  - rewrite list_lookup_insert_eq by done. split.
    + intros (l' & [= <-] & He). apply elem_of_app in He as [He|He].
      * left. eauto.
      * right. apply list_elem_of_singleton in He. done.
    + intros [(l' & Hl' & He)|[_ ->]].
      * exists (l ++ [index]). split; [done|]. apply elem_of_app. left.
        congruence.
      * exists (l ++ [index]). split; [done|]. apply elem_of_app. right.
        by apply list_elem_of_singleton.
  - rewrite list_lookup_insert_ne by done. split; [by left|].
    intros [?|[-> _]]; done.
Qed.

Abbreviation add_element :=
  (λ index vn,
     do col <- getitem (elements grid_data) index;
     foldM (append_index index) (column col) vn).

Lemma add_element_total (index : nat) (vn : list (list nat)) :
  index < number_of_elements grid_data →
  length vn = number_of_vertices grid_data →
  ∃ vn', add_element index vn = Ok vn' ∧ length vn' = length vn
         ∧ ∀ v e, listed vn' v e
                  ↔ listed vn v e ∨ (e = index ∧ incident_to grid_data v e = true).
Proof.
  intros Hindex Hlen.
  destruct (lookup_lt_is_Some_2 (elements grid_data) index Hindex) as [[[a b] c] Ht].
  rewrite (proj2 (getitem_Ok _ _ _) Ht). cbn [bind]. simpl.
  assert (Hin : ∀ v, v ∈ [a; b; c] → v < number_of_vertices grid_data).
  { intros v Hv. by eapply (vertices_in_range _ _ wf). }
  destruct (append_index_total index a vn) as (vn1 & -> & Hl1 & H1).
  { rewrite Hlen. apply Hin. set_solver. }
  cbn [bind].
  destruct (append_index_total index b vn1) as (vn2 & -> & Hl2 & H2).
  { rewrite Hl1, Hlen. apply Hin. set_solver. }
  cbn [bind].
  destruct (append_index_total index c vn2) as (vn3 & -> & Hl3 & H3).
  { rewrite Hl2, Hl1, Hlen. apply Hin. set_solver. }
  cbn [bind]. exists vn3. split; [done|]. split; [lia|].
  intros v e. rewrite H3, H2, H1.
  assert (Hinc : ∀ e', e' = index →
             (incident_to grid_data v e' = true ↔ v = a ∨ v = b ∨ v = c)).
  { intros e' ->. rewrite incident_to_true. split.
    - intros (t & Ht' & Hv). rewrite Ht in Ht'. injection Ht' as <-.
      simpl in Hv. set_solver.
    - intros Hv. exists (a, b, c). split; [done|]. simpl. set_solver. }
  split.
  - intros [[[?|[-> ->]]|[-> ->]]|[-> ->]]; [by left|right..];
      (split; [done|]); apply Hinc; auto.
  - intros [?|[-> Hi]]; [by left; left; left|].
    apply Hinc in Hi as [-> | [-> | ->]]; auto.
Qed.

Lemma collect_from (n start : nat) (vn : list (list nat)) :
  start + n ≤ number_of_elements grid_data →
  length vn = number_of_vertices grid_data →
  ∃ vn', foldM add_element (seq start n) vn = Ok vn'
         ∧ length vn' = number_of_vertices grid_data
         ∧ ∀ v e, listed vn' v e
                  ↔ listed vn v e
                    ∨ (start ≤ e < start + n ∧ incident_to grid_data v e = true).
Proof.
  revert start vn. induction n as [|n IH]; intros start vn Hle Hlen.
  - exists vn. split_and!; try done. intros v e. split; [by left|].
    intros [?|[? _]]; [done|lia].
  - destruct (add_element_total start vn) as (vn1 & Hadd & Hl1 & H1); [lia|done|].
    destruct (IH (S start) vn1) as (vn' & Hfold & Hl' & H'); [lia|lia|].
    exists vn'. cbn [seq foldM]. rewrite Hadd. cbn [bind]. split_and!; try done.
    intros v e. rewrite H', H1. split.
    + intros [[?|[-> Hi]]|[Hr Hi]]; [by left|right..]; (split; [lia|done]).
    + intros [?|[Hr Hi]]; [by left; left|].
      destruct (decide (e = start)) as [->|Hne]; [left; right; done|].
      right. split; [lia|done].
Qed.

Lemma collect_neighbors_total :
  ∃ lists, collect_neighbors grid_data = Ok lists
           ∧ length lists = number_of_vertices grid_data
           ∧ ∀ v e, listed lists v e ↔ incident_to grid_data v e = true.
Proof.
  destruct (collect_from (number_of_elements grid_data) 0
              (replicate (number_of_vertices grid_data) []))
    as (lists & Hfold & Hlen & Hchar); [lia | by rewrite length_replicate |].
  exists lists. split_and!; try done.
  intros v e. rewrite Hchar. split.
  - intros [(l & Hl & He)|[_ Hi]]; [|done].
    apply lookup_replicate in Hl as [-> _]. by apply elem_of_nil in He.
  - intros Hi. right. split; [|done].
    pose proof (incident_to_lt _ _ _ Hi). lia.
Qed.

(** The adjacency the constructor hands to [_compute_p1_dof_map]. *)
Lemma constructor_adjacency (lists : list (list nat)) :
  collect_neighbors grid_data = Ok lists →
  adjacency grid_data (Helpers.serialise_list_of_lists lists).1
    (Helpers.serialise_list_of_lists lists).2.
Proof.
  intros Hcollect.
  destruct collect_neighbors_total as (lists' & Heq & Hlen & Hchar).
  assert (lists' = lists) as -> by congruence.
  intros v Hv.
  destruct (lookup_lt_is_Some_2 lists v) as [l Hl]; [lia|].
  exists l. split; [by apply serialised_slice|].
  intros e. rewrite <- Hchar. unfold listed. split.
  - intros He. eauto.
  - intros (l' & Hl' & He). congruence.
Qed.

End Collect.


(** ** The DOF count without boundary DOFs *)

Section Counting.
Import NumPy.

Lemma flatnonzero_from_ge (a : list bool) (start i : nat) :
  i ∈ flatnonzero_from start a → start ≤ i.
Proof. by intros [? _]%elem_of_flatnonzero_from. Qed.

Lemma NoDup_flatnonzero_from (a : list bool) (start : nat) :
  NoDup (flatnonzero_from start a).
Proof.
  revert start. induction a as [|[] rest IH]; intros start; simpl.
  - constructor.
  - constructor; [|apply IH].
    intros Hin%flatnonzero_from_ge. lia.
  - apply IH.
Qed.

Lemma flatnonzero_from_increasing (a : list bool) (start k k' e e' : nat) :
  k < k' →
  flatnonzero_from start a !! k = Some e →
  flatnonzero_from start a !! k' = Some e' →
  e < e'.
Proof.
  revert start k k'. induction a as [|[] rest IH]; intros start k k' Hk He He';
    simpl in *; [done| |by eapply IH].
  destruct k' as [|k']; [lia|]. simpl in He'.
  destruct k as [|k]; simpl in He.
  - injection He as <-.
    pose proof (flatnonzero_from_ge rest (S start) e'
                  (list_elem_of_lookup_2 _ _ _ He')). lia.
  - eapply (IH (S start) k k'); [lia|done..].
Qed.

Lemma length_flatnonzero_filter (a : list bool) (P : nat → Prop)
    `{!∀ i, Decision (P i)} :
  (∀ i, a !! i = Some true ↔ i < length a ∧ P i) →
  length (flatnonzero a) = length (filter P (seq 0 (length a))).
Proof.
  intros HP. apply Permutation_length, NoDup_Permutation.
  - apply NoDup_flatnonzero_from.
  - apply NoDup_filter, NoDup_seq.
  - intros i. rewrite elem_of_flatnonzero, list_elem_of_filter, elem_of_seq, HP.
    split; [intros [? ?]; split; [done|lia] | intros [? [_ ?]]; split; [lia|done]].
Qed.

End Counting.

Section InteriorCount.
Import NumPy P1DofMap Topology Invariants Invariants2 Marking.

Lemma interior_dofs_counted {R : Type} (grid_data : GridData R)
    (support : list bool) (ensure_global_continuity : bool) (fuel : nat) :
  well_formed grid_data support →
  length (flatnonzero support) ≤ fuel →
  ∃ lists l,
    ScalarSpaces.collect_neighbors grid_data = Ok lists
    ∧ run grid_data support false ensure_global_continuity
        (Helpers.serialise_list_of_lists lists).1
        (Helpers.serialise_list_of_lists lists).2 fuel = Some (Ok l)
    ∧ global_dof_count l = referenced_interior_vertex_count grid_data support.
Proof.
  intros wf Hfuel.
  destruct (collect_neighbors_total grid_data support wf) as (lists & Hc & _ & _).
  pose proof (constructor_adjacency grid_data support wf lists Hc) as adj.
  destruct (run_total grid_data support false ensure_global_continuity _ _ wf adj
              (andb_false_r _) fuel Hfuel) as (l & Hrun & _ & Hchar).
  exists lists, l. split_and!; try done.
  destruct (run_sound grid_data support false ensure_global_continuity _ _ fuel l
              (vertices_fit _ _ wf) Hrun) as ([[_ Hlen] _] & -> & _).
  unfold referenced_interior_vertex_count. rewrite <- Hlen.
  apply length_flatnonzero_filter.
  intros u. rewrite Hchar. unfold assignable. simpl. split.
  - intros [Hint (e & He & Hi)]. split.
    + apply lookup_lt_is_Some. rewrite (proj2 (Hchar u)); [done|].
      split; [done|eauto].
    + apply andb_true_intro. split; [|done].
      apply referenced_true. eauto.
  - intros [_ [Href Hint]%andb_prop]. split; [done|].
    apply referenced_true in Href as (e & Hi). exists e. split; [|done].
    apply in_support_true. by apply (proj1 (interior_true _ _ _) Hint).
Qed.

End InteriorCount.


(** ** Boolean-mask assignment *)

Section Masks.
Import NumPy.

Lemma mask_assign_total {A : Type} (a : list A) (mask : list bool)
    (vals : list A) (start : nat) :
  length a = length mask →
  length vals = length (flatnonzero_from start mask) →
  ∃ r, mask_assign a mask vals = Ok r ∧ length r = length a
       ∧ (∀ k e, flatnonzero_from start mask !! k = Some e →
                 r !! (e - start) = vals !! k)
       ∧ (∀ e, mask !! e = Some false → r !! e = a !! e).
Proof.
  revert a vals start. induction mask as [|m mask IH]; intros a vals start Ha Hv.
  - destruct a; [|done]. destruct vals; [|done].
    exists []. by split_and!.
  - destruct a as [|x a]; [done|]. simpl in Ha. simpl.
    destruct m; simpl in Hv.
    + destruct vals as [|v vals]; [done|]. simpl in Hv.
      destruct (IH a vals (S start)) as (r & -> & Hlen & Htrue & Hfalse); [lia..|].
      cbn [bind]. exists (v :: r). split_and!; [done | simpl; lia | |].
      * intros [|k] e He; simpl in He.
        -- injection He as <-. by rewrite Nat.sub_diag.
        -- pose proof (flatnonzero_from_ge mask (S start) e
                         (list_elem_of_lookup_2 _ _ _ He)) as Hge.
           replace (e - start) with (S (e - S start)) by lia. simpl.
           by apply Htrue.
      * intros [|e] He; [done|]. simpl. by apply Hfalse.
    + destruct (IH a vals (S start)) as (r & -> & Hlen & Htrue & Hfalse); [lia..|].
      cbn [bind]. exists (x :: r). split_and!; [done | simpl; lia | |].
      * intros k e He.
        pose proof (flatnonzero_from_ge mask (S start) e
                      (list_elem_of_lookup_2 _ _ _ He)) as Hge.
        replace (e - start) with (S (e - S start)) by lia. simpl.
        by apply Htrue.
      * intros [|e] He; [done|]. simpl. by apply Hfalse.
Qed.

Lemma mask_fill_total {A : Type} (a : list (list A)) (mask : list bool) (x : A) :
  length a = length mask →
  ∃ r, mask_fill a mask x = Ok r ∧ length r = length a
       ∧ ∀ (e : nat) (row : list A) (m : bool), a !! e = Some row → mask !! e = Some m →
                    r !! e = Some (if m then (λ _ : A, x) <$> row else row).
Proof.
  revert a. induction mask as [|m mask IH]; intros a Ha.
  - destruct a; [|done]. exists []. by split_and!.
  - destruct a as [|row0 a]; [done|]. simpl in Ha. simpl.
    destruct (IH a) as (r & -> & Hlen & Hrows); [lia|].
    cbn [bind]. eexists. split_and!; [done | simpl; lia |].
    intros [|e] row m' Hrow Hm; simpl in *.
    + by injection Hrow as <-; injection Hm as <-.
    + by apply Hrows.
Qed.

Lemma active_row_ones (v ones : list Z) :
  length v = length ones → Forall (λ y, y = 1%Z) ones →
  zip v ones ≫= (λ p, if decide (p.2 = 1%Z) then [p.1] else []) = v.
Proof.
  revert ones. induction v as [|x v IH]; intros [|o ones] Hlen Hones; try done.
  inversion Hones; subst. simpl. f_equal. apply IH; [by injection Hlen | done].
Qed.

Lemma active_row_zeros (v zeros : list Z) :
  Forall (λ y, y = 0%Z) zeros →
  zip v zeros ≫= (λ p, if decide (p.2 = 1%Z) then [p.1] else []) = [].
Proof.
  revert zeros. induction v as [|x v IH]; intros [|o zeros] Hz; try done.
  inversion Hz; subst. simpl. apply IH. done.
Qed.

(** After [l2g[support] = vals] and [lm[support] = 1] on arrays of zeros,
    the entries with multiplier 1 are, in order, the entries of [vals]. *)
Lemma active_dofs_masked (w : nat) (mask : list bool) (a b vals r m : list (list Z)) :
  Forall (λ row, length row = w ∧ Forall (λ y, y = 0%Z) row) b →
  Forall (λ v, length v = w) vals →
  mask_assign a mask vals = Ok r → mask_fill b mask 1%Z = Ok m →
  ScalarSpaces.active_dofs r m = concat vals.
Proof.
  unfold ScalarSpaces.active_dofs.
  revert a b vals r m. induction mask as [|s mask IH];
    intros a b vals r m Hb Hvals Hr Hm.
  - destruct a; [|done]. destruct b; [|done]. destruct vals; [|done].
    simpl in *. injection Hr as <-. by injection Hm as <-.
  - destruct a as [|x a]; [done|]. destruct b as [|brow b]; [done|].
    simpl in Hr, Hm. bind_step Hm as m' Hm'. injection Hm as <-.
    inversion Hb as [|? ? [Hw Hz] Hb']; subst.
    destruct s.
    + destruct vals as [|v vals]; [done|].
      bind_step Hr as r' Hr'. injection Hr as <-.
      inversion Hvals as [|? ? Hv Hvals']; subst.
      simpl. rewrite (IH _ _ _ _ _ Hb' Hvals' Hr' Hm'). f_equal.
      apply active_row_ones; [by rewrite length_fmap|].
      apply Forall_fmap. by apply Forall_forall.
    + bind_step Hr as r' Hr'. injection Hr as <-.
      simpl. rewrite (IH _ _ _ _ _ Hb' Hvals Hr' Hm').
      by rewrite active_row_zeros.
Qed.

Lemma wrap_uint32_small (k n : nat) :
  k < n → (Z.of_nat n ≤ 2 ^ 32)%Z → wrap_uint32 (Z.of_nat k) = Z.of_nat k.
Proof. intros Hk Hn. unfold wrap_uint32. apply Z.mod_small. lia. Qed.

Lemma wrap_arange (n : nat) :
  (Z.of_nat n ≤ 2 ^ 32)%Z → wrap_uint32 <$> arange n = arange n.
Proof.
  intros Hn. unfold arange. rewrite <- list_fmap_compose.
  apply list_fmap_ext. intros i k Hk. simpl.
  apply lookup_seq in Hk as [-> Hlt]. by apply (wrap_uint32_small _ n).
Qed.

Lemma length_remove_dups_arange (n : nat) :
  length (remove_dups (arange n)) = n.
Proof.
  rewrite <- (length_arange n) at 2.
  apply Permutation_length, NoDup_Permutation.
  - apply NoDup_remove_dups.
  - unfold arange. apply NoDup_fmap; [apply Nat2Z.inj'|apply NoDup_seq].
  - intros x. apply elem_of_remove_dups.
Qed.

Lemma lookup_arange (n k : nat) : k < n → arange n !! k = Some (Z.of_nat k).
Proof.
  intros Hk. unfold arange. rewrite list_lookup_fmap.
  by rewrite (proj2 (lookup_seq 0 n k k)).
Qed.

Lemma chunks3_from {A : Type} (f : nat → A) (rows start : nat) :
  ∃ r, chunks3 rows (f <$> seq start (3 * rows)) = Ok r
       ∧ length r = rows
       ∧ concat r = f <$> seq start (3 * rows)
       ∧ ∀ k, k < rows →
              r !! k = Some [f (start + 3 * k); f (start + 3 * k + 1);
                             f (start + 3 * k + 2)].
Proof.
  revert start. induction rows as [|rows IH]; intros start.
  - exists []. split_and!; try done. intros k Hk. lia.
  - replace (3 * S rows) with (S (S (S (3 * rows)))) by lia.
    cbn [seq fmap list_fmap chunks3].
    destruct (IH (S (S (S start)))) as (r & -> & Hlen & Hcat & Hrow).
    cbn [bind]. eexists. split_and!; [done | simpl; lia | by simpl; rewrite Hcat |].
    intros [|k] Hk; simpl.
    + replace (start + 0 + 1) with (S start) by lia.
      replace (start + 0 + 2) with (S (S start)) by lia.
      by rewrite Nat.add_0_r.
    + rewrite Hrow by lia.
      by replace (S (S (S start)) + 3 * k) with (start + (3 * S k)) by lia.
Qed.

End Masks.


(** ** The discontinuous spaces *)

Section Discontinuous.
Import NumPy ScalarSpaces Invariants2.
Context {R G : Type}.
Variable _process_segments :
  GridData R → option (list nat) → option (list nat) → option (list nat) →
  list bool * list R.
Variable invert_local2global : list (list Z) → list (list Z) → G.
Variable one_third : R.
Variable grid : GridData R.
Variables support_elements segments swapped_normals : option (list nat).

Abbreviation the_support :=
  ((_process_segments grid support_elements segments swapped_normals).1).
Abbreviation support_size := (length (flatnonzero the_support)).

Hypothesis valid_support : length the_support = number_of_elements grid.

Lemma support_size_le : support_size ≤ number_of_elements grid.
Proof.
  rewrite <- valid_support. apply (length_flatnonzero_from _ 0).
Qed.

Lemma concat_fmap_rows (f : Z → Z) (rows : list (list Z)) :
  concat ((λ row : list Z, f <$> row) <$> rows) = f <$> concat rows.
Proof.
  induction rows as [|row rows IH]; [done|].
  by rewrite fmap_cons, !concat_cons, fmap_app, IH.
Qed.

Lemma p0_total :
  (Z.of_nat (number_of_elements grid) ≤ 2 ^ 32)%Z →
  ∃ sp, p0_discontinuous_function_space _process_segments invert_local2global
          one_third grid support_elements segments swapped_normals = Ok sp
        ∧ support sp = the_support
        ∧ length (local_multipliers sp) = number_of_elements grid
        ∧ (∀ k e, flatnonzero the_support !! k = Some e →
                  local2global sp !! e = Some [Z.of_nat k])
        ∧ (∀ (e : nat) (m : bool), the_support !! e = Some m →
                  local_multipliers sp !! e = Some [if m then 1%Z else 0%Z])
        ∧ active_dofs (local2global sp) (local_multipliers sp) = arange support_size.
Proof.
  intros Hfit. pose proof support_size_le as Hle.
  unfold p0_discontinuous_function_space. revert valid_support Hle.
  destruct (_process_segments _ _ _ _) as [support nm]. simpl.
  intros Hvalid Hle.
  set (n := length (flatnonzero support)) in *.
  destruct (mask_assign_total (replicate (number_of_elements grid) [0%Z]) support
              (expand_dims1 (wrap_uint32 <$> arange n)) 0)
    as (r & Hr & Hlen & Htrue & _).
  { by rewrite length_replicate. }
  { unfold expand_dims1. by rewrite !length_fmap, length_arange. }
  destruct (mask_fill_total (replicate (number_of_elements grid) [0%Z]) support 1%Z)
    as (m & Hm & Hlenm & Hrows).
  { by rewrite length_replicate. }
  rewrite Hr. cbn [bind]. rewrite Hm. cbn [bind].
  eexists. split; [done|]. simpl.
  split_and!.
  - done.
  - by rewrite Hlenm, length_replicate.
  - intros k e He. specialize (Htrue k e He). rewrite Nat.sub_0_r in Htrue.
    rewrite Htrue. unfold expand_dims1. rewrite !list_lookup_fmap.
    pose proof (lookup_lt_Some _ _ _ He) as Hk. fold n in Hk.
    rewrite lookup_arange by done. simpl.
    rewrite (wrap_uint32_small k (number_of_elements grid)) by lia. done.
  - intros e s He.
    rewrite (Hrows e [0%Z] s); [by destruct s | | done].
    apply lookup_replicate. split; [done|].
    rewrite <- Hvalid. by eapply lookup_lt_Some.
  - rewrite (active_dofs_masked 1 support
               (replicate (number_of_elements grid) [0%Z])
               (replicate (number_of_elements grid) [0%Z])
               (expand_dims1 (wrap_uint32 <$> arange n)) r m); try done.
    + unfold expand_dims1.
      rewrite wrap_arange by lia.
      generalize (arange n). intros l. induction l as [|z l IH]; [done|].
      rewrite fmap_cons, concat_cons, IH. done.
    + apply Forall_forall. intros row Hrow.
      apply elem_of_replicate in Hrow as [-> _]. split; [done|].
      by repeat constructor.
    + unfold expand_dims1. apply Forall_fmap, Forall_forall. done.
Qed.

Lemma p1_discontinuous_total :
  (3 * Z.of_nat (number_of_elements grid) ≤ 2 ^ 32)%Z →
  ∃ sp, p1_discontinuous_function_space _process_segments invert_local2global
          grid support_elements segments swapped_normals = Ok sp
        ∧ support sp = the_support
        ∧ length (local_multipliers sp) = number_of_elements grid
        ∧ (∀ k e, flatnonzero the_support !! k = Some e →
                  local2global sp !! e
                  = Some [Z.of_nat (3 * k); Z.of_nat (3 * k + 1);
                          Z.of_nat (3 * k + 2)])
        ∧ (∀ (e : nat) (m : bool), the_support !! e = Some m →
                  local_multipliers sp !! e
                  = Some (if m then [1; 1; 1]%Z else [0; 0; 0]%Z))
        ∧ active_dofs (local2global sp) (local_multipliers sp)
          = arange (3 * support_size).
Proof.
  intros Hfit. pose proof support_size_le as Hle.
  unfold p1_discontinuous_function_space. revert valid_support Hle.
  destruct (_process_segments _ _ _ _) as [support nm]. simpl fst.
  intros Hvalid Hle. cbv zeta.
  set (n := length (flatnonzero support)) in *.
  destruct (chunks3_from Z.of_nat n 0) as (rows & Hrows3 & Hlenr & Hcat & Hrow).
  change (Z.of_nat <$> seq 0 (3 * n)) with (arange (3 * n)) in Hrows3, Hcat.
  rewrite Hrows3. cbn [bind].
  destruct (mask_assign_total (replicate (number_of_elements grid) [0%Z; 0%Z; 0%Z])
              support ((λ row : list Z, wrap_uint32 <$> row) <$> rows) 0)
    as (r & Hr & Hlen & Htrue & _).
  { by rewrite length_replicate. }
  { by rewrite length_fmap. }
  destruct (mask_fill_total (replicate (number_of_elements grid) [0%Z; 0%Z; 0%Z])
              support 1%Z) as (m & Hm & Hlenm & Hmrows).
  { by rewrite length_replicate. }
  rewrite Hr. cbn [bind]. rewrite Hm. cbn [bind].
  eexists. split; [done|]. simpl.
  split_and!.
  - done.
  - by rewrite Hlenm, length_replicate.
  - intros k e He. specialize (Htrue k e He). rewrite Nat.sub_0_r in Htrue.
    rewrite Htrue. rewrite list_lookup_fmap.
    pose proof (lookup_lt_Some _ _ _ He) as Hk. fold n in Hk.
    rewrite Hrow by done. simpl.
    rewrite !(wrap_uint32_small _ (3 * number_of_elements grid)) by lia. done.
  - intros e s He.
    rewrite (Hmrows e [0%Z; 0%Z; 0%Z] s); [by destruct s | | done].
    apply lookup_replicate. split; [done|].
    rewrite <- Hvalid. by eapply lookup_lt_Some.
  - rewrite (active_dofs_masked 3 support
               (replicate (number_of_elements grid) [0%Z; 0%Z; 0%Z])
               (replicate (number_of_elements grid) [0%Z; 0%Z; 0%Z])
               ((λ row : list Z, wrap_uint32 <$> row) <$> rows) r m); try done.
    + rewrite concat_fmap_rows, Hcat. apply wrap_arange. lia.
    + apply Forall_forall. intros row Hrow'.
      apply elem_of_replicate in Hrow' as [-> _]. split; [done|].
      by repeat constructor.
    + apply Forall_fmap, Forall_forall. intros row Hin. simpl.
      rewrite length_fmap.
      apply list_elem_of_lookup in Hin as (k & Hk).
      pose proof (lookup_lt_Some _ _ _ Hk) as Hlt.
      rewrite Hrow in Hk by lia. by injection Hk as <-.
Qed.

End Discontinuous.


(** ** The fill value of unassigned slots *)

Section MinimumFill.
Import NumPy P1DofMap Meshes.

(** C2.  On the chain of three triangles with the first two in the
    support and no boundary DOFs, element 1 has the DOFs 1 and 2 on its
    first two slots and nothing on the third.  The third slot is filled
    with 0, the minimum of the whole row with the untouched zero in it,
    and not with 1, the minimum of the DOFs of the other two slots; its
    multiplier is 0. *)
Theorem unassigned_slot_filled_with_zero :
  constructor_adjacency_of Chain.grid_data
  = Ok (Chain.vertex_neighbors, Chain.index_ptr)
  ∧ ∃ l, run Chain.grid_data Chain.support false false
           Chain.vertex_neighbors Chain.index_ptr 2 = Some (Ok l)
         ∧ local2global (first l) !! 1 = Some [1; 2; -1]%Z
         ∧ local2global_final (second l) !! 1 = Some [1; 2; 0]%Z
         ∧ local_multipliers (second l) !! 1 = Some [1; 1; 0]%Z
         ∧ NumPy.min [1; 2]%Z = Ok 1%Z.
Proof.
  split; [reflexivity|]. eexists. split; [reflexivity|]. by split_and!.
Qed.

End MinimumFill.

(** ** An element without any assigned vertex *)

Section NoAssignedVertex.
Import NumPy P1DofMap Topology Invariants Invariants2 Meshes.

(** C3, as stated, fails: on the mesh where every vertex of the only
    support element is shared with an element outside the support, that
    element has no assigned vertex, and [_compute_p1_dof_map] returns
    all the same. *)
Lemma no_assigned_vertex_no_error :
  constructor_adjacency_of Enclosed.grid_data
  = Ok (Enclosed.vertex_neighbors, Enclosed.index_ptr)
  ∧ ∃ l, run Enclosed.grid_data Enclosed.support false false
           Enclosed.vertex_neighbors Enclosed.index_ptr 1 = Some (Ok l)
         ∧ elements_in_support (first l) = [0]
         ∧ local2global (first l) !! 0 = Some [-1; -1; -1]%Z
         ∧ _compute_p1_dof_map Enclosed.grid_data Enclosed.support false false
             Enclosed.vertex_neighbors Enclosed.index_ptr 1
           = Some (Ok (replicate 3 [0; 0; 0]%Z, replicate 3 [0; 0; 0]%Z)).
Proof.
  split; [reflexivity|]. eexists. split; [reflexivity|]. by split_and!.
Qed.

(** C3, amended.  On a well-formed mesh with its adjacency, and with the
    extension branch off, construction reaches its end without an error;
    an element of the working list none of whose three slots was
    assigned a vertex is left with zeros in its row of [local2global]
    and zeros as multipliers. *)
Theorem no_assigned_vertex_is_silent {R : Type} (grid_data : GridData R)
    (support : list bool) (include_boundary_dofs ensure_global_continuity : bool)
    (vertex_neighbors index_ptr : list nat) (fuel : nat) :
  well_formed grid_data support →
  adjacency grid_data vertex_neighbors index_ptr →
  ensure_global_continuity && include_boundary_dofs = false →
  length (flatnonzero support) ≤ fuel →
  ∃ l, run grid_data support include_boundary_dofs ensure_global_continuity
         vertex_neighbors index_ptr fuel = Some (Ok l)
       ∧ ∀ e, e ∈ elements_in_support (first l) →
              (∀ j, j < 3 → entry (local2global (first l)) e j = Some (-1)%Z) →
              ∀ j, j < 3 →
                   entry (local2global_final (second l)) e j = Some 0%Z
                   ∧ entry (local_multipliers (second l)) e j = Some 0%Z.
Proof.
  intros wf adj quiet Hfuel.
  destruct (run_total grid_data support include_boundary_dofs
              ensure_global_continuity vertex_neighbors index_ptr wf adj quiet
              fuel Hfuel) as (l & Hrun & _ & _).
  exists l. split; [done|].
  destruct (run_sound grid_data support include_boundary_dofs
              ensure_global_continuity vertex_neighbors index_ptr fuel l
              (vertices_fit _ _ wf) Hrun) as (_ & _ & _ & _ & Hinert).
  intros e _ Hall. by apply Hinert.
Qed.

Lemma enclosed_well_formed : well_formed Enclosed.grid_data Enclosed.support.
Proof.
  split.
  - reflexivity.
  - intros e t v Ht Hv.
    destruct e as [|[|[|e]]]; simpl in Ht; try done; injection Ht as <-;
      apply list_elem_of_In in Hv; simpl in Hv; simpl; lia.
  - simpl. lia.
Defined.

Lemma enclosed_adjacency :
  adjacency Enclosed.grid_data Enclosed.vertex_neighbors Enclosed.index_ptr.
Proof.
  apply (constructor_adjacency Enclosed.grid_data Enclosed.support
           enclosed_well_formed [[0; 1]; [0; 1]; [0; 2]; [1; 2]; [2]]).
  reflexivity.
Defined.

Lemma no_assigned_vertex_is_silent_witness :
  ∃ l, run Enclosed.grid_data Enclosed.support false false
         Enclosed.vertex_neighbors Enclosed.index_ptr 1 = Some (Ok l)
       ∧ ∀ e, e ∈ elements_in_support (first l) →
              (∀ j, j < 3 → entry (local2global (first l)) e j = Some (-1)%Z) →
              ∀ j, j < 3 →
                   entry (local2global_final (second l)) e j = Some 0%Z
                   ∧ entry (local_multipliers (second l)) e j = Some 0%Z.
Proof.
  apply (no_assigned_vertex_is_silent Enclosed.grid_data Enclosed.support
           false false Enclosed.vertex_neighbors Enclosed.index_ptr 1
           enclosed_well_formed enclosed_adjacency eq_refl).
  vm_compute. lia.
Defined.

End NoAssignedVertex.


(** ** The number of DOFs without boundary DOFs *)

Section InteriorCountClaim.
Import NumPy P1DofMap Topology Meshes.

(** C4, as stated, fails: a vertex that belongs to no element has all of
    its (no) incident elements in the support, yet it is never met by
    the first loop and gets no DOF.  One triangle and a fourth, unused
    vertex: three DOFs, four such vertices. *)
Lemma unreferenced_vertex_gets_no_dof :
  constructor_adjacency_of Isolated.grid_data
  = Ok (Isolated.vertex_neighbors, Isolated.index_ptr)
  ∧ ∃ l, run Isolated.grid_data Isolated.support false false
           Isolated.vertex_neighbors Isolated.index_ptr 1 = Some (Ok l)
         ∧ global_dof_count l = 3
         ∧ interior_vertex_count Isolated.grid_data Isolated.support = 4.
Proof.
  split; [reflexivity|]. eexists. split; [reflexivity|]. by split_and!.
Qed.

(** C4, amended.  Without boundary DOFs, on a well-formed mesh, the
    construction reaches its end and the DOF count is the number of
    vertices that belong to at least one element and whose incident
    elements are all in the support.  On the two triangles with full
    support that makes four DOFs, vertex [v] has DOF [v], and every slot
    of both elements has multiplier 1. *)
Theorem dof_count_is_referenced_interior_vertices :
  (∀ (R : Type) (grid_data : GridData R) (support : list bool)
     (ensure_global_continuity : bool) (fuel : nat),
      well_formed grid_data support →
      length (flatnonzero support) ≤ fuel →
      ∃ vertex_neighbors index_ptr l,
        constructor_adjacency_of grid_data = Ok (vertex_neighbors, index_ptr)
        ∧ run grid_data support false ensure_global_continuity
            vertex_neighbors index_ptr fuel = Some (Ok l)
        ∧ global_dof_count l = referenced_interior_vertex_count grid_data support)
  ∧ (constructor_adjacency_of TwoTriangles.grid_data
     = Ok (TwoTriangles.vertex_neighbors, TwoTriangles.index_ptr)
     ∧ ∃ l, run TwoTriangles.grid_data [true; true] false false
              TwoTriangles.vertex_neighbors TwoTriangles.index_ptr 2 = Some (Ok l)
            ∧ global_dof_count l = 4
            ∧ dofs l = [0; 1; 2; 3]%Z
            ∧ returned l = ([[0; 1; 2]; [1; 2; 3]]%Z, [[1; 1; 1]; [1; 1; 1]]%Z)).
Proof.
  split.
  - intros R grid_data support ensure fuel wf Hfuel.
    destruct (interior_dofs_counted grid_data support ensure fuel wf Hfuel)
      as (lists & l & Hc & Hrun & Hcount).
    exists (Helpers.serialise_list_of_lists lists).1,
           (Helpers.serialise_list_of_lists lists).2, l.
    split_and!; try done.
    unfold constructor_adjacency_of. rewrite Hc. simpl. done.
  - split; [reflexivity|]. eexists. split; [reflexivity|]. by split_and!.
Qed.

Lemma isolated_well_formed : well_formed Isolated.grid_data Isolated.support.
Proof.
  split.
  - reflexivity.
  - intros e t v Ht Hv.
    destruct e as [|e]; simpl in Ht; try done; injection Ht as <-;
      apply list_elem_of_In in Hv; simpl in Hv; simpl; lia.
  - simpl. lia.
Defined.

Lemma dof_count_is_referenced_interior_vertices_witness :
  ∃ vertex_neighbors index_ptr l,
    constructor_adjacency_of Isolated.grid_data = Ok (vertex_neighbors, index_ptr)
    ∧ run Isolated.grid_data Isolated.support false false
        vertex_neighbors index_ptr 1 = Some (Ok l)
    ∧ global_dof_count l
      = referenced_interior_vertex_count Isolated.grid_data Isolated.support.
Proof.
  apply (proj1 dof_count_is_referenced_interior_vertices unit
           Isolated.grid_data Isolated.support false 1 isolated_well_formed).
  vm_compute. lia.
Defined.

End InteriorCountClaim.


(** ** Numbering and bounds of the three spaces *)

Section SpaceClaims.
Import NumPy ScalarSpaces Topology Invariants2.
Context {R G : Type}.
Variable _process_segments :
  GridData R → option (list nat) → option (list nat) → option (list nat) →
  list bool * list R.
Variable invert_local2global : list (list Z) → list (list Z) → G.
Variable one_third : R.
Variable grid : GridData R.
Variables support_elements segments swapped_normals : option (list nat).

Abbreviation mask :=
  ((_process_segments grid support_elements segments swapped_normals).1).

(** C6.  [flatnonzero] lists the support elements in ascending order.
    The [k]-th support element, in that order, owns DOF [k] in
    the P0 space and DOFs [3k], [3k+1], [3k+2] in the discontinuous P1
    space; the multipliers are 1 on every slot of a support element and
    0 elsewhere; and the number of distinct DOFs is the number of
    support elements times the number of slots. *)
Theorem discontinuous_numbering :
  length mask = number_of_elements grid →
  (3 * Z.of_nat (number_of_elements grid) ≤ 2 ^ 32)%Z →
  (∀ e, e ∈ flatnonzero mask ↔ mask !! e = Some true)
  ∧ (∀ k k' e e', k < k' → flatnonzero mask !! k = Some e →
                  flatnonzero mask !! k' = Some e' → e < e')
  ∧ (∃ sp, p0_discontinuous_function_space _process_segments invert_local2global
           one_third grid support_elements segments swapped_normals = Ok sp
         ∧ (∀ k e, flatnonzero mask !! k = Some e →
                   local2global sp !! e = Some [Z.of_nat k]
                   ∧ local_multipliers sp !! e = Some [1%Z])
         ∧ (∀ e, mask !! e = Some false →
                 local_multipliers sp !! e = Some [0%Z])
         ∧ global_dof_count (local2global sp) (local_multipliers sp)
           = length (flatnonzero mask) * 1)
  ∧ (∃ sp, p1_discontinuous_function_space _process_segments invert_local2global
             grid support_elements segments swapped_normals = Ok sp
           ∧ (∀ k e, flatnonzero mask !! k = Some e →
                     local2global sp !! e
                     = Some [Z.of_nat (3 * k); Z.of_nat (3 * k + 1);
                             Z.of_nat (3 * k + 2)]
                     ∧ local_multipliers sp !! e = Some [1; 1; 1]%Z)
           ∧ (∀ e, mask !! e = Some false →
                   local_multipliers sp !! e = Some [0; 0; 0]%Z)
           ∧ global_dof_count (local2global sp) (local_multipliers sp)
             = length (flatnonzero mask) * 3).
Proof.
  intros Hvalid Hfit. split; [apply elem_of_flatnonzero|].
  split; [intros k k' e e'; apply flatnonzero_from_increasing|].
  split.
  - destruct (p0_total _process_segments invert_local2global one_third grid
                support_elements segments swapped_normals Hvalid)
      as (sp & Hsp & _ & _ & Hrow & Hmult & Hactive); [lia|].
    exists sp. split_and!; try done.
    + intros k e He. split; [by apply Hrow|].
      apply (Hmult e true).
      apply elem_of_flatnonzero. by eapply list_elem_of_lookup_2.
    + intros e He. by apply (Hmult e false).
    + unfold global_dof_count. rewrite Hactive, length_remove_dups_arange. lia.
  - destruct (p1_discontinuous_total _process_segments invert_local2global grid
                support_elements segments swapped_normals Hvalid Hfit)
      as (sp & Hsp & _ & _ & Hrow & Hmult & Hactive).
    exists sp. split_and!; try done.
    + intros k e He. split; [by apply Hrow|].
      apply (Hmult e true).
      apply elem_of_flatnonzero. by eapply list_elem_of_lookup_2.
    + intros e He. by apply (Hmult e false).
    + unfold global_dof_count. rewrite Hactive, length_remove_dups_arange. lia.
Qed.

Lemma entry_singleton_row (m : list (list Z)) (e j : nat) (y x : Z) :
  m !! e = Some [y] → entry m e j = Some x → j = 0 ∧ x = y.
Proof.
  intros Hrow. unfold entry. rewrite Hrow. simpl.
  destruct j as [|j]; simpl; [by intros [= ->] | done].
Qed.

(** C5.  In each of the three spaces an entry of [local2global] whose
    multiplier is 1 is below the number of DOFs.  For the two
    discontinuous spaces that number is the count of distinct DOFs; for
    the continuous space it is the [global_dof_count] of
    [_compute_p1_dof_map], and the bound holds for whatever the function
    returns, under any flags; with the extension branch off it does
    return. *)
Theorem active_entries_below_dof_count :
  length mask = number_of_elements grid →
  (3 * Z.of_nat (number_of_elements grid) ≤ 2 ^ 32)%Z →
  (Z.of_nat (number_of_vertices grid) ≤ 2 ^ 31)%Z →
  (∃ sp, p0_discontinuous_function_space _process_segments invert_local2global
           one_third grid support_elements segments swapped_normals = Ok sp
         ∧ ∀ e j x,
             entry (local_multipliers sp) e j = Some 1%Z →
             entry (local2global sp) e j = Some x →
             (0 ≤ x < Z.of_nat (global_dof_count (local2global sp)
                                  (local_multipliers sp)))%Z)
  ∧ (∃ sp, p1_discontinuous_function_space _process_segments invert_local2global
             grid support_elements segments swapped_normals = Ok sp
           ∧ ∀ e j x,
               entry (local_multipliers sp) e j = Some 1%Z →
               entry (local2global sp) e j = Some x →
               (0 ≤ x < Z.of_nat (global_dof_count (local2global sp)
                                    (local_multipliers sp)))%Z)
  ∧ (∀ include_boundary_dofs ensure_global_continuity vertex_neighbors index_ptr
       fuel l,
       P1DofMap.run grid mask include_boundary_dofs ensure_global_continuity
         vertex_neighbors index_ptr fuel = Some (Ok l) →
       ∀ e j x,
         entry (P1DofMap.local_multipliers (P1DofMap.second l)) e j = Some 1%Z →
         entry (P1DofMap.local2global_final (P1DofMap.second l)) e j = Some x →
         (0 ≤ x < Z.of_nat (P1DofMap.global_dof_count l))%Z)
  ∧ (∀ include_boundary_dofs ensure_global_continuity vertex_neighbors index_ptr,
       well_formed grid mask →
       adjacency grid vertex_neighbors index_ptr →
       ensure_global_continuity && include_boundary_dofs = false →
       ∃ l, P1DofMap.run grid mask include_boundary_dofs ensure_global_continuity
              vertex_neighbors index_ptr (length (flatnonzero mask))
            = Some (Ok l)).
Proof.
  intros Hvalid Hfit Hvfit. split_and!.
  - destruct (p0_total _process_segments invert_local2global one_third grid
                support_elements segments swapped_normals Hvalid)
      as (sp & Hsp & _ & Hlen & Hrow & Hmult & Hactive); [lia|].
    exists sp. split; [done|]. intros e j x H1 Hx.
    unfold global_dof_count. rewrite Hactive, length_remove_dups_arange.
    assert (He : e < length mask).
    { rewrite Hvalid, <- Hlen. unfold entry in H1.
      destruct (local_multipliers sp !! e) eqn:Hl; [|done].
      by eapply lookup_lt_Some. }
    destruct (lookup_lt_is_Some_2 _ _ He) as [[] Hs].
    + apply elem_of_flatnonzero, list_elem_of_lookup in Hs as (k & Hk).
      destruct (entry_singleton_row _ _ _ _ _ (Hrow k e Hk) Hx) as [_ ->].
      apply lookup_lt_Some in Hk. lia.
    + destruct (entry_singleton_row _ _ _ _ _ (Hmult e false Hs) H1) as [_ ?].
      done.
  - destruct (p1_discontinuous_total _process_segments invert_local2global grid
                support_elements segments swapped_normals Hvalid Hfit)
      as (sp & Hsp & _ & Hlen & Hrow & Hmult & Hactive).
    exists sp. split; [done|]. intros e j x H1 Hx.
    unfold global_dof_count. rewrite Hactive, length_remove_dups_arange.
    assert (He : e < length mask).
    { rewrite Hvalid, <- Hlen. unfold entry in H1.
      destruct (local_multipliers sp !! e) eqn:Hl; [|done].
      by eapply lookup_lt_Some. }
    destruct (lookup_lt_is_Some_2 _ _ He) as [[] Hs].
    + apply elem_of_flatnonzero, list_elem_of_lookup in Hs as (k & Hk).
      unfold entry in Hx. rewrite (Hrow k e Hk) in Hx. simpl in Hx.
      apply lookup_lt_Some in Hk.
      destruct j as [|[|[|j]]]; simpl in Hx; try done; injection Hx as <-; lia.
    + unfold entry in H1. rewrite (Hmult e false Hs) in H1. simpl in H1.
      destruct j as [|[|[|j]]]; simpl in H1; done.
  - intros include ensure vn ip fuel l Hrun e j x H1 Hx.
    destruct (run_sound grid mask include ensure vn ip fuel l Hvfit Hrun)
      as (_ & _ & _ & [_ Hbound] & _).
    by eapply Hbound.
  - intros include ensure vn ip wf adj quiet.
    destruct (run_total grid mask include ensure vn ip wf adj quiet
                (length (flatnonzero mask))) as (l & Hrun & _); [done|].
    by exists l.
Qed.

End SpaceClaims.


(** ** What the constructor keeps of the support *)

Section SupportFrame.
Import NumPy P1DofMap Frame.






End SupportFrame.

Section SupportClaim.
Import NumPy P1DofMap Topology Frame Meshes.





End SupportClaim.



Section SpaceWitnesses.
Import NumPy ScalarSpaces Invariants2.

Abbreviation segments_102 :=
  (λ (_ : GridData unit) (_ _ _ : option (list nat)),
     ([true; false; true], @nil unit)).
Abbreviation no_inverse := (λ _ _ : list (list Z), ()).

Lemma discontinuous_numbering_witness :
  ∃ sp0 sp1 : Space unit unit,
    p0_discontinuous_function_space segments_102 no_inverse ()
      Meshes.Chain.grid_data None None None = Ok sp0
    ∧ global_dof_count (local2global sp0) (local_multipliers sp0) = 2 * 1
    ∧ p1_discontinuous_function_space segments_102 no_inverse
        Meshes.Chain.grid_data None None None = Ok sp1
    ∧ global_dof_count (local2global sp1) (local_multipliers sp1) = 2 * 3.
Proof.
  assert (Hfit : (3 * Z.of_nat (number_of_elements Meshes.Chain.grid_data)
                  ≤ 2 ^ 32)%Z) by (vm_compute; discriminate).
  destruct (discontinuous_numbering segments_102 no_inverse ()
              Meshes.Chain.grid_data None None None eq_refl Hfit)
    as (_ & _ & (sp0 & H0 & _ & _ & C0) & (sp1 & H1 & _ & _ & C1)).
  exists sp0, sp1. split_and!; assumption.
Defined.

Lemma chain_well_formed :
  Topology.well_formed Meshes.Chain.grid_data [true; false; true].
Proof.
  split.
  - reflexivity.
  - intros e t v Ht Hv.
    destruct e as [|[|[|e]]]; simpl in Ht; try done; injection Ht as <-;
      apply list_elem_of_In in Hv; simpl in Hv; simpl; lia.
  - simpl. lia.
Defined.

Lemma chain_adjacency :
  Topology.adjacency Meshes.Chain.grid_data Meshes.Chain.vertex_neighbors
    Meshes.Chain.index_ptr.
Proof.
  apply (constructor_adjacency Meshes.Chain.grid_data [true; false; true]
           chain_well_formed [[0]; [0; 1]; [0; 1]; [1; 2]; [2]; [2]]).
  reflexivity.
Defined.

Lemma active_entries_below_dof_count_witness :
  (∃ sp : Space unit unit,
      p0_discontinuous_function_space segments_102 no_inverse ()
        Meshes.Chain.grid_data None None None = Ok sp
      ∧ ∀ e j x,
          entry (local_multipliers sp) e j = Some 1%Z →
          entry (local2global sp) e j = Some x →
          (0 ≤ x < Z.of_nat (global_dof_count (local2global sp)
                               (local_multipliers sp)))%Z)
  ∧ ∃ l, P1DofMap.run Meshes.Chain.grid_data [true; false; true] false false
           Meshes.Chain.vertex_neighbors Meshes.Chain.index_ptr 2 = Some (Ok l)
         ∧ ∀ e j x,
             entry (P1DofMap.local_multipliers (P1DofMap.second l)) e j = Some 1%Z →
             entry (P1DofMap.local2global_final (P1DofMap.second l)) e j = Some x →
             (0 ≤ x < Z.of_nat (P1DofMap.global_dof_count l))%Z.
Proof.
  assert (Hfit : (3 * Z.of_nat (number_of_elements Meshes.Chain.grid_data)
                  ≤ 2 ^ 32)%Z) by (vm_compute; discriminate).
  assert (Hvfit : (Z.of_nat (number_of_vertices Meshes.Chain.grid_data)
                   ≤ 2 ^ 31)%Z) by (vm_compute; discriminate).
  destruct (active_entries_below_dof_count segments_102 no_inverse ()
              Meshes.Chain.grid_data None None None eq_refl Hfit Hvfit)
    as (Hp0 & _ & Hbound & Hreturns).
  split; [exact Hp0|].
  destruct (Hreturns false false Meshes.Chain.vertex_neighbors
              Meshes.Chain.index_ptr chain_well_formed chain_adjacency eq_refl)
    as (l & Hrun).
  exists l. split; [exact Hrun|].
  exact (Hbound false false _ _ _ l Hrun).
Defined.

End SpaceWitnesses.


(** ** The surface gradient of the linear space *)

Section Gradient.
Import NumPy SurfaceGradient.
Context {R : Type}.
Variables (zero one : R) (add mul : R → R → R).
Variable uninitialised : R.

Abbreviation matrix := (list (list R)).
Abbreviation tensor4 := (list (list (list (list R)))).
Abbreviation dot' := (dot zero add mul).
Abbreviation inner' := (inner zero add mul).

(** One row of [a.dot(b)]. *)
Abbreviation dot_row := (λ (b : matrix) (row : list R),
                           (λ n, inner' row (col zero n b)) <$> seq 0 (shape1 b)).

Lemma traverse_getitem (planes : list matrix) (i : nat) :
  Forall (λ plane, i < length plane) planes →
  ∃ ref, traverse (λ plane, getitem plane i) planes = Ok ref
         ∧ Forall2 (λ plane row, plane !! i = Some row) planes ref.
Proof.
  induction 1 as [|plane planes Hi _ (ref & IH & Hall)]; simpl.
  - by exists [].
  - destruct (lookup_lt_is_Some_2 plane i Hi) as [row Hrow].
    rewrite (proj2 (getitem_Ok _ _ _) Hrow). cbn [bind]. rewrite IH. cbn [bind].
    exists (row :: ref). split; [done|]. by constructor.
Qed.

Lemma dot_total (a b : matrix) :
  Forall (λ row, length row = length b) a → dot' a b = Ok (dot_row b <$> a).
Proof.
  intros Ha. unfold dot.
  assert (Hcheck : forallb (λ row, bool_decide (length row = length b)) a = true).
  { apply forallb_forall. intros row Hrow.
    apply bool_decide_eq_true. rewrite Forall_forall in Ha.
    by apply Ha, list_elem_of_In. }
  by rewrite Hcheck.
Qed.

Lemma traverse_broadcast (n : nat) (m : matrix) :
  Forall (λ row, length row = n) m → traverse (broadcast n) m = Ok m.
Proof.
  induction 1 as [|row m Hrow _ IH]; simpl; [done|].
  unfold broadcast at 1. rewrite decide_True by done. cbn [bind].
  by rewrite IH.
Qed.

(** Storing a three-row matrix of rows of length [n] in slot [index]. *)
Lemma assign_slice_three (p0 p1 p2 : matrix) (n index : nat) (m0 m1 m2 : list R) :
  index < length p0 → index < length p1 → index < length p2 →
  length m0 = n → length m1 = n → length m2 = n →
  assign_slice [[p0; p1; p2]] n index [m0; m1; m2]
  = Ok [[<[index := m0]> p0; <[index := m1]> p1; <[index := m2]> p2]].
Proof.
  intros H0 H1 H2 L0 L1 L2. unfold assign_slice.
  change (getitem [[p0; p1; p2]] 0) with (Ok (A := list matrix) [p0; p1; p2]).
  cbn [bind].
  change (broadcast (length [p0; p1; p2]) [m0; m1; m2])
    with (Ok (A := matrix) [m0; m1; m2]).
  cbn [bind].
  rewrite traverse_broadcast by (repeat constructor; done). cbn [bind].
  simpl. unfold setitem. rewrite !decide_True by done. done.
Qed.

Lemma nth_seq_id (l : list R) :
  (λ n, nth n l zero) <$> seq 0 (length l) = l.
Proof.
  apply list_eq. intros i. rewrite list_lookup_fmap.
  destruct (decide (i < length l)) as [Hi|Hi].
  - rewrite (proj2 (lookup_seq 0 (length l) i i)) by done. simpl.
    destruct (lookup_lt_is_Some_2 l i Hi) as [x Hx]. rewrite Hx. f_equal.
    by apply nth_lookup_Some with (d := zero) in Hx.
  - rewrite lookup_ge_None_2 by (rewrite length_seq; lia).
    by rewrite lookup_ge_None_2 by lia.
Qed.

Section Evaluation.
Variable element_index : nat.
Variable shapeset_gradient : matrix → tensor4.
Variable local_coordinates : matrix.
Variable grid_data : GridData R.
Variable local_multipliers : list (list Z).
Variable normal_multipliers : list R.
Variables (j0 j1 j2 : list R) (planes : list matrix) (d n : nat).

Hypothesis jacobian : jac_inv_trans grid_data !! element_index = Some [j0; j1; j2].
Hypothesis jacobian_rows : length j0 = d ∧ length j1 = d ∧ length j2 = d.
Hypothesis reference : shapeset_gradient local_coordinates = [planes].
Hypothesis reference_shape :
  length planes = d
  ∧ ∀ plane, plane ∈ planes →
      length plane = 3 ∧ ∀ row, row ∈ plane → length row = n.
Hypothesis d_pos : 0 < d.

Lemma reference_slice (i : nat) :
  i < 3 →
  ∃ ref, slice_of (shapeset_gradient local_coordinates) i = Ok ref
         ∧ Forall2 (λ plane row, plane !! i = Some row) planes ref
         ∧ length ref = d ∧ shape1 ref = n
         ∧ Forall (λ row, length row = n) ref.
Proof.
  intros Hi. destruct reference_shape as [Hd Hplanes].
  destruct (traverse_getitem planes i) as (ref & Href & Hall).
  { apply Forall_forall. intros plane Hp.
    destruct (Hplanes plane Hp) as [-> _]. done. }
  exists ref. unfold slice_of. rewrite reference.
  change (getitem [planes] 0) with (Ok (A := list matrix) planes). cbn [bind].
  split; [done|]. split; [done|].
  assert (Hrows : Forall (λ row, length row = n) ref).
  { apply Forall_forall. intros row Hrow.
    apply list_elem_of_lookup in Hrow as (k & Hk).
    destruct (Forall2_lookup_r _ _ _ _ _ Hall Hk) as (plane & Hplane & Hrow).
    destruct (Hplanes plane (list_elem_of_lookup_2 _ _ _ Hplane)) as [_ Hn].
    apply Hn. by eapply list_elem_of_lookup_2. }
  pose proof (Forall2_length _ _ _ Hall) as Hlen.
  split_and!; [lia | | done].
  destruct ref as [|row ref]; [simpl in Hlen; lia|].
  simpl. by inversion Hrows.
Qed.

Abbreviation step :=
  (λ index result,
     do jac <- getitem (jac_inv_trans grid_data) element_index;
     do ref <- slice_of (shapeset_gradient local_coordinates) index;
     do m <- dot' jac ref;
     assign_slice result n index m).

Lemma gradient_step (i : nat) (ref : matrix) (p0 p1 p2 : matrix) :
  slice_of (shapeset_gradient local_coordinates) i = Ok ref →
  length ref = d → shape1 ref = n →
  i < length p0 → i < length p1 → i < length p2 →
  step i [[p0; p1; p2]]
  = Ok [[<[i := dot_row ref j0]> p0; <[i := dot_row ref j1]> p1;
         <[i := dot_row ref j2]> p2]].
Proof.
  intros Href Hd Hn H0 H1 H2. destruct jacobian_rows as (L0 & L1 & L2).
  rewrite (proj2 (getitem_Ok _ _ _) jacobian). cbn [bind].
  rewrite Href. cbn [bind].
  rewrite dot_total by (repeat constructor; lia). cbn [bind].
  change (dot_row ref <$> [j0; j1; j2])
    with [dot_row ref j0; dot_row ref j1; dot_row ref j2].
  apply assign_slice_three; try done;
    by rewrite length_fmap, length_seq.
Qed.

Lemma gradient_value (ref0 ref1 ref2 : matrix) :
  slice_of (shapeset_gradient local_coordinates) 0 = Ok ref0 →
  slice_of (shapeset_gradient local_coordinates) 1 = Ok ref1 →
  slice_of (shapeset_gradient local_coordinates) 2 = Ok ref2 →
  length ref0 = d → length ref1 = d → length ref2 = d →
  shape1 ref0 = n → shape1 ref1 = n → shape1 ref2 = n →
  shape1 local_coordinates = n →
  _numba_p1_surface_gradient zero add mul uninitialised element_index
    shapeset_gradient local_coordinates grid_data local_multipliers
    normal_multipliers
  = Ok [[[dot_row ref0 j0; dot_row ref1 j0; dot_row ref2 j0];
         [dot_row ref0 j1; dot_row ref1 j1; dot_row ref2 j1];
         [dot_row ref0 j2; dot_row ref1 j2; dot_row ref2 j2]]].
Proof.
  intros S0 S1 S2 D0 D1 D2 N0 N1 N2 Hn.
  unfold _numba_p1_surface_gradient. rewrite Hn.
  change (replicate 1 (replicate 3 (replicate 3 (replicate n uninitialised))))
    with [[replicate 3 (replicate n uninitialised);
           replicate 3 (replicate n uninitialised);
           replicate 3 (replicate n uninitialised)]].
  cbn [seq foldM].
  rewrite (gradient_step 0 ref0) by (done || simpl; lia). cbn [bind].
  rewrite (gradient_step 1 ref1) by (done || simpl; lia). cbn [bind].
  rewrite (gradient_step 2 ref2) by (done || simpl; lia). cbn [bind].
  reflexivity.
Qed.

End Evaluation.

End Gradient.

(** ** The evaluator computes the matrix product *)

Section GradientEntries.
Import NumPy SurfaceGradient MatrixProduct.
Context {R : Type}.
Variables (zero : R) (add mul : R → R → R).
Variable uninitialised : R.

Lemma foldl_ext_in {A B : Type} (f g : A → B → A) (l : list B) (a : A) :
  (∀ acc x, x ∈ l → f acc x = g acc x) → foldl f a l = foldl g a l.
Proof.
  revert a. induction l as [|x l IH]; intros a Hfg; [done|]. simpl.
  rewrite Hfg by left. apply IH. intros acc y Hy. apply Hfg. by right.
Qed.

(** The inner product of the source, as a sum over the index. *)
Lemma inner_as_sum (u v : list R) :
  length v = length u →
  inner zero add mul u v
  = foldl (λ acc k, add acc (mul (nth k u zero) (nth k v zero))) zero
      (seq 0 (length u)).
Proof.
  revert v. induction u as [|x u IH] using rev_ind; intros v Hlen.
  - by destruct v.
  - destruct v as [|y v _] using rev_ind;
      [rewrite length_app in Hlen; simpl in Hlen; lia|].
    rewrite !length_app in Hlen. simpl in Hlen.
    assert (Hl : length v = length u) by lia.
    unfold inner. rewrite zip_with_app by done. rewrite foldl_app. simpl.
    rewrite length_app. simpl. rewrite Nat.add_1_r, seq_S, foldl_app. simpl.
    rewrite !app_nth2 by lia. rewrite Hl, Nat.sub_diag. simpl.
    f_equal. fold (inner zero add mul u v). rewrite (IH v Hl).
    apply foldl_ext_in. intros acc k Hk. apply elem_of_seq in Hk.
    by rewrite !app_nth1 by lia.
Qed.

(** One entry of a row of [a.dot(b)], read off the reference gradient. *)
Lemma dot_row_entry (planes : list (list (list R))) (ref : list (list R))
    (row : list R) (i c d n : nat) :
  Forall2 (λ plane rw, plane !! i = Some rw) planes ref →
  length ref = d → shape1 ref = n → length row = d → c < n →
  nth c ((λ m, inner zero add mul row (col zero m ref)) <$> seq 0 (shape1 ref)) zero
  = foldl (λ acc k, add acc (mul (nth k row zero)
                               (nth c (nth i (nth k planes []) []) zero)))
      zero (seq 0 d).
Proof.
  intros Hall Href Hn Hrow Hc.
  rewrite nth_lookup, list_lookup_fmap.
  rewrite (proj2 (lookup_seq 0 (shape1 ref) c c)) by lia. simpl.
  rewrite inner_as_sum by (unfold col; rewrite length_fmap; lia).
  rewrite Hrow. apply foldl_ext_in. intros acc k Hk. apply elem_of_seq in Hk.
  do 2 f_equal.
  destruct (lookup_lt_is_Some_2 ref k) as [rw Hrw]; [lia|].
  destruct (Forall2_lookup_r _ _ _ _ _ Hall Hrw) as (plane & Hplane & Hi).
  unfold col. rewrite nth_lookup, list_lookup_fmap, Hrw. simpl.
  rewrite (nth_lookup planes), Hplane. simpl.
  by rewrite (nth_lookup plane), Hi.
Qed.

Lemma gradient_entries (element_index : nat)
    (shapeset_gradient : list (list R) → list (list (list (list R))))
    (local_coordinates : list (list R)) (grid_data : GridData R)
    (local_multipliers : list (list Z)) (normal_multipliers : list R)
    (jac : list (list R)) (d n : nat) :
  jac_inv_trans grid_data !! element_index = Some jac →
  has_shape2 jac 3 d → 0 < d →
  shape1 local_coordinates = n →
  has_shape4 (shapeset_gradient local_coordinates) 1 d 3 n →
  ∃ res,
    _numba_p1_surface_gradient zero add mul uninitialised element_index
      shapeset_gradient local_coordinates grid_data local_multipliers
      normal_multipliers = Ok res
    ∧ has_shape4 res 1 3 3 n
    ∧ ∀ r i c, r < 3 → i < 3 → c < n →
        at4 zero res 0 r i c
        = mapped_gradient zero add mul jac (shapeset_gradient local_coordinates)
            d r i c.
Proof.
  intros Hjac [Hj3 Hjrows] Hd Hn (Ht1 & Htshape).
  destruct jac as [|j0 [|j1 [|j2 [|]]]]; try done.
  destruct (shapeset_gradient local_coordinates) as [|planes [|]] eqn:HT; try done.
  assert (Hjd : length j0 = d ∧ length j1 = d ∧ length j2 = d).
  { split_and!; apply Hjrows; set_solver. }
  assert (Hplanes : length planes = d
                    ∧ ∀ plane, plane ∈ planes →
                        length plane = 3 ∧ ∀ row, row ∈ plane → length row = n).
  { destruct (Htshape planes) as [Hlen Hrest]; [set_solver|]. done. }
  destruct (reference_slice shapeset_gradient local_coordinates j0 j1 j2
              planes d n Hjd HT Hplanes Hd 0) as (ref0 & S0 & A0 & D0 & N0 & R0); [lia|].
  destruct (reference_slice shapeset_gradient local_coordinates j0 j1 j2
              planes d n Hjd HT Hplanes Hd 1) as (ref1 & S1 & A1 & D1 & N1 & R1); [lia|].
  destruct (reference_slice shapeset_gradient local_coordinates j0 j1 j2
              planes d n Hjd HT Hplanes Hd 2) as (ref2 & S2 & A2 & D2 & N2 & R2); [lia|].
  eexists. split.
  { apply (gradient_value zero add mul uninitialised element_index
             shapeset_gradient local_coordinates grid_data local_multipliers
             normal_multipliers j0 j1 j2 planes d n Hjac Hjd Hplanes Hd
             ref0 ref1 ref2); done. }
  assert (Hlen : ∀ (ref : list (list R)) (row : list R), shape1 ref = n →
            length ((λ m, inner zero add mul row (col zero m ref))
                      <$> seq 0 (shape1 ref)) = n).
  { intros ref row Hs. by rewrite length_fmap, length_seq. }
  destruct Hjd as (L0 & L1 & L2).
  split.
  - split; [done|]. intros x ->%list_elem_of_singleton. split; [done|].
    intros y Hy. split.
    + repeat (apply elem_of_cons in Hy as [->|Hy]; [done|]).
      by apply elem_of_nil in Hy.
    + intros z Hz.
      repeat (apply elem_of_cons in Hy as [->|Hy];
              [repeat (apply elem_of_cons in Hz as [->|Hz]; [by apply Hlen|]);
               by apply elem_of_nil in Hz|]).
      by apply elem_of_nil in Hy.
  - intros r i c Hr Hi Hc. unfold mapped_gradient, at2, at4.
    destruct r as [|[|[|r]]]; [| | |lia];
      (destruct i as [|[|[|i]]]; [| | |lia]); cbn [nth];
      by eapply dot_row_entry.
Qed.

End GradientEntries.

(** ** The identity Jacobian on [float64] *)

Section FloatLaws.
Import Float64.

Lemma Prim2SF_one : Prim2SF 1%float = S754_finite false 4503599627370496 (-52).
Proof. reflexivity. Qed.

Lemma Prim2SF_zero : Prim2SF 0%float = S754_zero false.
Proof. reflexivity. Qed.

Lemma digits_iter (n m : positive) :
  Zpos (digits2_pos (Pos.iter xO m n)) = (Zpos (digits2_pos m) + Zpos n)%Z.
Proof.
  induction n as [|n IH] using Pos.peano_ind.
  - simpl. lia.
  - rewrite Pos.iter_succ. cbn [digits2_pos]. lia.
Qed.

Lemma digits_shifted (m : positive) :
  Zdigits2 (Zpos (4503599627370496 * m)) = (Zpos (digits2_pos m) + 52)%Z.
Proof.
  change (4503599627370496 * m)%positive with (Pos.iter xO m 52).
  apply digits_iter.
Qed.

Lemma shift_back (m : positive) :
  iter_pos shr_1 52
    {| shr_m := Zpos (4503599627370496 * m); shr_r := false; shr_s := false |}
  = {| shr_m := Zpos m; shr_r := false; shr_s := false |}.
Proof. reflexivity. Qed.

(** Rounding the product of the mantissa of 1.0 with a canonical mantissa
    gives that mantissa back. *)
Lemma round_one_times (s : bool) (m : positive) (e : Z) :
  bounded prec emax m e = true →
  binary_round_aux prec emax s (Zpos (4503599627370496 * m)) (-52 + e) loc_Exact
  = S754_finite s m e.
Proof.
  intros Hb. apply andb_prop in Hb as [Hc He].
  unfold canonical_mantissa in Hc. apply Z.eqb_eq in Hc. apply Z.leb_le in He.
  unfold binary_round_aux, shr_fexp.
  rewrite digits_shifted.
  replace (Zpos (digits2_pos m) + 52 + (-52 + e))%Z
    with (Zpos (digits2_pos m) + e)%Z by lia.
  rewrite Hc. replace (e - (-52 + e))%Z with 52%Z by lia.
  change (shr_record_of_loc (Zpos (4503599627370496 * m)) loc_Exact)
    with {| shr_m := Zpos (4503599627370496 * m); shr_r := false; shr_s := false |}.
  unfold shr at 1. rewrite shift_back.
  cbn [shr_m loc_of_shr_record round_nearest_even shr_record_of_loc Zdigits2].
  replace (-52 + e + 52)%Z with e by lia.
  rewrite Hc, Z.sub_diag. cbn [shr shr_m].
  by rewrite (proj2 (Z.leb_le _ _) He).
Qed.

Lemma mul_one_finite (x : float) : finite x → (1 * x)%float = x.
Proof.
  intros Hx. apply Prim2SF_inj. rewrite mul_spec, Prim2SF_one.
  pose proof (Prim2SF_valid x) as Hv. unfold finite in Hx.
  destruct (Prim2SF x) as [s|s| |s m e]; try done.
  unfold SF64mul, SFmul. cbn [xorb]. by apply round_one_times.
Qed.

Lemma mul_zero_finite (x : float) : finite x → null (0 * x)%float.
Proof.
  intros Hx. unfold null. rewrite mul_spec, Prim2SF_zero. unfold finite in Hx.
  by destruct (Prim2SF x).
Qed.

Lemma null_zero : null 0%float.
Proof. done. Qed.

Lemma add_null_null (a b : float) : null a → null b → null (a + b)%float.
Proof.
  unfold null. rewrite add_spec.
  destruct (Prim2SF a) as [[]| | |], (Prim2SF b) as [[]| | |]; done.
Qed.

Lemma add_null_l (z x : float) :
  null z → finite x → same_number (z + x)%float x.
Proof.
  unfold same_number, null, finite. rewrite add_spec. intros Hz Hx.
  destruct (Prim2SF x) as [sx| | |sx m e] eqn:Ex; try done.
  - right. split; [|done]. by destruct (Prim2SF z) as [[]| | |], sx.
  - left. apply Prim2SF_inj. rewrite add_spec, Ex.
    by destruct (Prim2SF z) as [[]| | |].
Qed.

Lemma add_null_r (a x z : float) :
  same_number a x → finite x → null z → same_number (a + z)%float x.
Proof.
  intros [-> | [Ha Hx']] Hx Hz.
  - revert Hx Hz. unfold same_number, null, finite. rewrite add_spec.
    intros Hx Hz.
    destruct (Prim2SF x) as [sx| | |sx m e] eqn:Ex; try done.
    + right. split; [|done]. by destruct (Prim2SF z) as [[]| | |], sx.
    + left. apply Prim2SF_inj. rewrite add_spec, Ex.
      by destruct (Prim2SF z) as [[]| | |].
  - right. split; [|done]. by apply add_null_null.
Qed.

(** The three rows of the identity applied to a column of numbers. *)
Lemma unit_rows (x0 x1 x2 : float) :
  finite x0 → finite x1 → finite x2 →
  same_number (0 + 1 * x0 + 0 * x1 + 0 * x2)%float x0
  ∧ same_number (0 + 0 * x0 + 1 * x1 + 0 * x2)%float x1
  ∧ same_number (0 + 0 * x0 + 0 * x1 + 1 * x2)%float x2.
Proof.
  intros F0 F1 F2.
  pose proof (mul_zero_finite x0 F0) as Z0.
  pose proof (mul_zero_finite x1 F1) as Z1.
  pose proof (mul_zero_finite x2 F2) as Z2.
  rewrite !mul_one_finite by done. split_and!.
  - apply add_null_r; [|done..]. apply add_null_r; [|done..].
    by apply add_null_l.
  - apply add_null_r; [|done..]. apply add_null_l; [|done].
    by apply add_null_null.
  - apply add_null_l; [|done]. apply add_null_null; [|done].
    by apply add_null_null.
Qed.

Lemma identity_entries (G : list (list (list (list float)))) (r i c : nat) :
  r < 3 →
  (∀ k, k < 3 → finite (MatrixProduct.at4 0%float G 0 k i c)) →
  same_number
    (MatrixProduct.mapped_gradient 0%float PrimFloat.add PrimFloat.mul
       identity G 3 r i c)
    (MatrixProduct.at4 0%float G 0 r i c).
Proof.
  intros Hr Hfin.
  destruct (unit_rows (MatrixProduct.at4 0%float G 0 0 i c)
              (MatrixProduct.at4 0%float G 0 1 i c)
              (MatrixProduct.at4 0%float G 0 2 i c))
    as (H0 & H1 & H2); [apply Hfin; lia..|].
  destruct r as [|[|[|r]]]; [exact H0 | exact H1 | exact H2 | lia].
Qed.

End FloatLaws.

Section GradientClaim.
Import NumPy SurfaceGradient MatrixProduct Float64.

Abbreviation unit_triangle :=
  ({| elements := [(0, 1, 2)]; number_of_vertices := 3;
      jac_inv_trans := [identity] |} : GridData float).

(** A reference gradient with one infinite value. *)
Abbreviation unbounded_gradient :=
  [[[[infinity]; [1]; [0]];
    [[-1]; [0]; [1]];
    [[0]; [0]; [0]]]]%float.

(** C8, as stated, fails: the claim is about every reference-gradient
    callback, and the product with the identity is still a product.  With
    an infinite value in the column, the zeros of the other rows of the
    identity turn it into a NaN: the entry for row 1 is
    [0 * inf + 1 * (-1) + 0 * 0], a NaN where the reference gradient
    has [-1]. *)
Lemma identity_jacobian_changes_unbounded_gradient :
  ∃ res,
    p1_surface_gradient 0%float 0 (λ _, unbounded_gradient) [[0.25]; [0.25]]%float
      unit_triangle [[1; 1; 1]%Z] [1%float] = Ok res
    ∧ at4 0%float unbounded_gradient 0 1 0 0 = (-1)%float
    ∧ at4 0%float res 0 1 0 0 = nan
    ∧ res ≠ unbounded_gradient.
Proof.
  eexists. split; [vm_compute; reflexivity|].
  split; [reflexivity|]. split; [reflexivity|].
  intros H.
  apply (f_equal (λ t, PrimFloat.is_nan (at4 0%float t 0 1 0 0))) in H.
  vm_compute in H. discriminate.
Qed.

(** C8, amended.  On an element whose inverse-transpose Jacobian [J] has
    three rows and [d] columns, for local coordinates with [n] columns and
    a reference gradient [G] of shape [(1, d, 3, n)], in any arithmetic,
    the evaluator returns a tensor of shape [(1, 3, 3, n)] whose entry
    [[0, r, i, c]] is the sum over [k] of [J[r, k] * G[0, k, i, c]]: the
    slice for basis function [i] is [J] times the reference gradient of
    [i].  On [float64], when [J] is the identity and the values of the
    reference gradient are finite, every entry of the result is the entry
    of the reference gradient, as a number: the same float, or a zero for
    a zero. *)
Theorem p1_surface_gradient_maps_reference_gradient :
  (∀ (R : Type) (zero : R) (add mul : R → R → R) (uninitialised : R)
     (element_index : nat)
     (shapeset_gradient : list (list R) → list (list (list (list R))))
     (local_coordinates : list (list R)) (grid_data : GridData R)
     (local_multipliers : list (list Z)) (normal_multipliers : list R)
     (J : list (list R)) (d n : nat),
      jac_inv_trans grid_data !! element_index = Some J →
      has_shape2 J 3 d → 0 < d →
      shape1 local_coordinates = n →
      has_shape4 (shapeset_gradient local_coordinates) 1 d 3 n →
      ∃ res,
        _numba_p1_surface_gradient zero add mul uninitialised element_index
          shapeset_gradient local_coordinates grid_data local_multipliers
          normal_multipliers = Ok res
        ∧ has_shape4 res 1 3 3 n
        ∧ ∀ r i c, r < 3 → i < 3 → c < n →
            at4 zero res 0 r i c
            = mapped_gradient zero add mul J
                (shapeset_gradient local_coordinates) d r i c)
  ∧ (∀ (uninitialised : float) (element_index : nat)
       (shapeset_gradient : list (list float) → list (list (list (list float))))
       (local_coordinates : list (list float)) (grid_data : GridData float)
       (local_multipliers : list (list Z)) (normal_multipliers : list float)
       (n : nat),
        jac_inv_trans grid_data !! element_index = Some identity →
        shape1 local_coordinates = n →
        has_shape4 (shapeset_gradient local_coordinates) 1 3 3 n →
        (∀ k i c, k < 3 → i < 3 → c < n →
           finite (at4 0%float (shapeset_gradient local_coordinates) 0 k i c)) →
        ∃ res,
          p1_surface_gradient uninitialised element_index shapeset_gradient
            local_coordinates grid_data local_multipliers normal_multipliers
          = Ok res
          ∧ has_shape4 res 1 3 3 n
          ∧ ∀ r i c, r < 3 → i < 3 → c < n →
              same_number (at4 0%float res 0 r i c)
                (at4 0%float (shapeset_gradient local_coordinates) 0 r i c)).
Proof.
  split.
  - intros R zero add mul uninitialised element_index shapeset_gradient
      local_coordinates grid_data local_multipliers normal_multipliers J d n.
    apply gradient_entries.
  - intros uninitialised element_index shapeset_gradient local_coordinates
      grid_data local_multipliers normal_multipliers n Hjac Hn Hshape Hfin.
    destruct (gradient_entries 0%float PrimFloat.add PrimFloat.mul uninitialised
                element_index shapeset_gradient local_coordinates grid_data
                local_multipliers normal_multipliers identity 3 n Hjac)
      as (res & Hres & Hres_shape & Hentries); [|lia|done|done|].
    { split; [done|]. intros row Hrow.
      repeat (apply elem_of_cons in Hrow as [->|Hrow]; [done|]).
      by apply elem_of_nil in Hrow. }
    exists res. split_and!; [done..|].
    intros r i c Hr Hi Hc. rewrite (Hentries r i c Hr Hi Hc).
    apply identity_entries; [done|]. intros k Hk. by apply Hfin.
Qed.

Ltac members H :=
  apply list_elem_of_In in H; simpl in H;
  repeat (destruct H as [<-|H]; [|]); [..|destruct H].

(** A stretched element, and the identity on a reference gradient with
    negative values and a negative zero. *)
Lemma p1_surface_gradient_maps_reference_gradient_witness :
  (∃ res,
     p1_surface_gradient 7%float 0
       (λ _, [[[[-1; -1]; [1; 1]; [0; 0]];
               [[-1; -1]; [0; 0]; [1; 1]]]]%float)
       [[0; 1]; [0; 0]]%float
       {| elements := [(0, 1, 2)]; number_of_vertices := 3;
          jac_inv_trans := [[[2; 0]; [0; 2]; [0.5; 0.25]]%float] |}
       [[1; 1; 1]%Z] [1%float] = Ok res
     ∧ has_shape4 res 1 3 3 2
     ∧ at4 0%float res 0 2 0 1 = (-0.75)%float
     ∧ at4 0%float res 0 0 1 0 = 2%float)
  ∧ ∃ res,
      p1_surface_gradient 7%float 0
        (λ _, [[[[-1; -1]; [1; 1]; [0; 0]];
                [[-1; -1]; [0; 0]; [1; 1]];
                [[-0; 3]; [0; -0.5]; [0; 0]]]]%float)
        [[0; 1]; [0; 0]]%float unit_triangle [[1; 1; 1]%Z] [1%float] = Ok res
      ∧ same_number (at4 0%float res 0 2 0 0) (-0)%float
      ∧ same_number (at4 0%float res 0 2 1 1) (-0.5)%float.
Proof.
  split.
  - destruct (proj1 p1_surface_gradient_maps_reference_gradient float 0%float
                PrimFloat.add PrimFloat.mul 7%float 0
                (λ _, [[[[-1; -1]; [1; 1]; [0; 0]];
                        [[-1; -1]; [0; 0]; [1; 1]]]]%float)
                [[0; 1]; [0; 0]]%float
                {| elements := [(0, 1, 2)]; number_of_vertices := 3;
                   jac_inv_trans := [[[2; 0]; [0; 2]; [0.5; 0.25]]%float] |}
                [[1; 1; 1]%Z] [1%float] [[2; 0]; [0; 2]; [0.5; 0.25]]%float 2 2)
      as (res & Hres & Hshape & Hentries).
    + reflexivity.
    + split; [reflexivity|]. intros row Hrow. members Hrow; reflexivity.
    + lia.
    + reflexivity.
    + split; [reflexivity|]. intros x Hx. members Hx.
      split; [reflexivity|]. intros y Hy.
      members Hy; (split; [reflexivity|]); intros z Hz; members Hz; reflexivity.
    + exists res. split; [exact Hres|]. split; [exact Hshape|]. split.
      * rewrite (Hentries 2 0 1) by lia. reflexivity.
      * rewrite (Hentries 0 1 0) by lia. reflexivity.
  - destruct (proj2 p1_surface_gradient_maps_reference_gradient 7%float 0
                (λ _, [[[[-1; -1]; [1; 1]; [0; 0]];
                        [[-1; -1]; [0; 0]; [1; 1]];
                        [[-0; 3]; [0; -0.5]; [0; 0]]]]%float)
                [[0; 1]; [0; 0]]%float unit_triangle [[1; 1; 1]%Z] [1%float] 2)
      as (res & Hres & _ & Hsame).
    + reflexivity.
    + reflexivity.
    + split; [reflexivity|]. intros x Hx. members Hx.
      split; [reflexivity|]. intros y Hy.
      members Hy; (split; [reflexivity|]); intros z Hz; members Hz; reflexivity.
    + intros [|[|[|k]]] [|[|[|i]]] [|[|c]] Hk Hi Hc; try lia; exact I.
    + exists res. split; [exact Hres|]. split.
      * apply (Hsame 2 0 0); lia.
      * apply (Hsame 2 1 1); lia.
Defined.

End GradientClaim.


(** ** The first loop when the extension branch fires *)

Section ExtensionFires.
Import NumPy P1DofMap Topology Invariants Extension.
Context {R : Type}.
Variable grid_data : GridData R.
Variable support : list bool.
Variables vertex_neighbors index_ptr : list nat.

Hypothesis wf : well_formed grid_data support.
Hypothesis adj : adjacency grid_data vertex_neighbors index_ptr.

Abbreviation visit_corner2 :=
  (visit_corner grid_data support true true vertex_neighbors index_ptr).
Abbreviation visit_element2 :=
  (visit_element grid_data support true true vertex_neighbors index_ptr).

Lemma non_support_neighbors_total (v : nat) :
  v < number_of_vertices grid_data →
  ∃ neighbors nsn,
    neighbors_of vertex_neighbors index_ptr v = Ok neighbors
    ∧ non_support support neighbors = Ok nsn
    ∧ ∀ n, n ∈ nsn ↔ incident_to grid_data v n = true ∧ support !! n = Some false.
Proof.
  intros Hv. destruct (adj v Hv) as (neighbors & Hn & Hinc).
  destruct (non_support_total support neighbors) as (nsn & Hnsn & Hin).
  { apply Forall_forall. intros n Hn'. apply Hinc in Hn'.
    rewrite (support_length _ _ wf). by eapply incident_to_lt. }
  exists neighbors, nsn. split_and!; try done.
  intros n. by rewrite Hin, Hinc.
Qed.

Lemma extend_neighbors_total (v : nat) (nsn : list nat) (m : list (list Z)) :
  rows3 grid_data m →
  Forall (λ n, incident_to grid_data v n = true) nsn →
  ∃ m', extend_neighbors grid_data v nsn m = Ok m' ∧ rows3 grid_data m'.
Proof.
  intros Hm Hnsn. revert m Hm.
  induction Hnsn as [|en rest Hen _ IH]; intros m Hm; simpl.
  - by exists m.
  - apply incident_to_true in Hen as (t & Ht & Hv).
    rewrite (proj2 (getitem_Ok _ _ _) Ht). cbn [bind].
    destruct (find_index_column_found t v Hv) as (j & -> & Hj & _).
    destruct (setitem2_total grid_data m en j (wrap_int32 (Z.of_nat v)) Hm)
      as (m1 & -> & Hm1 & _); [by eapply lookup_lt_Some | done |].
    cbn [bind]. by apply IH.
Qed.

Lemma visit_corner_extends (e j v : nat) (t : nat * nat * nat) (st : pass1) :
  shaped1 grid_data st →
  elements grid_data !! e = Some t → column t !! j = Some v →
  ∃ st' nsn,
    visit_corner2 e j st = Ok st' ∧ shaped1 grid_data st'
    ∧ elements_in_support st' = elements_in_support st ++ nsn
    ∧ ∀ n, n ∈ nsn ↔ incident_to grid_data v n = true ∧ support !! n = Some false.
Proof.
  intros [Hrows Hvid] Ht Hv.
  assert (Hlt : v < number_of_vertices grid_data).
  { eapply (vertices_in_range _ _ wf); [done|]. by eapply list_elem_of_lookup_2. }
  assert (Hj : j < 3).
  { apply lookup_lt_Some in Hv. by destruct t as [[? ?] ?]. }
  destruct (non_support_neighbors_total v Hlt) as (neighbors & nsn & Hn & Hnsn & Hin).
  unfold visit_corner.
  rewrite (proj2 (getitem_Ok _ _ _) Ht). cbn [bind].
  rewrite (proj2 (getitem_Ok _ _ _) Hv). cbn [bind].
  rewrite Hn. cbn [bind]. rewrite Hnsn. cbn [bind]. cbn [orb].
  destruct (setitem2_total grid_data (local2global st) e j
              (wrap_int32 (Z.of_nat v)) Hrows) as (m1 & -> & Hm1 & _);
    [by eapply lookup_lt_Some | done |].
  cbn [bind]. unfold setitem. rewrite decide_True by lia. cbn [bind].
  rewrite !andb_true_r. cbn [local2global elements_in_support vertex_is_dof].
  destruct nsn as [|n0 nsn'] eqn:Hcase.
  - simpl. eexists _, []. split; [done|]. split_and!.
    + split; [done|]. simpl. by rewrite length_insert.
    + simpl. by rewrite app_nil_r.
    + done.
  - rewrite bool_decide_eq_true_2 by (simpl; lia).
    destruct (extend_neighbors_total v (n0 :: nsn') m1 Hm1) as (m2 & -> & Hm2).
    { apply Forall_forall. intros n Hn'. by apply Hin in Hn' as [? _]. }
    cbn [bind]. eexists _, (n0 :: nsn'). split; [done|]. split_and!.
    + split; [done|]. simpl. by rewrite length_insert.
    + done.
    + done.
Qed.

Lemma visit_element_extends (e : nat) (t : nat * nat * nat) (st : pass1) :
  shaped1 grid_data st → elements grid_data !! e = Some t →
  ∃ st' extra,
    visit_element2 e st = Ok st' ∧ shaped1 grid_data st'
    ∧ elements_in_support st' = elements_in_support st ++ extra
    ∧ ∀ n, n ∈ extra
           ↔ ∃ v, v ∈ column t ∧ incident_to grid_data v n = true
                  ∧ support !! n = Some false.
Proof.
  intros Hst Ht. destruct t as [[a b] c]. unfold visit_element. simpl.
  destruct (visit_corner_extends e 0 a _ st Hst Ht eq_refl)
    as (s0 & x0 & -> & Hs0 & E0 & M0). cbn [bind].
  destruct (visit_corner_extends e 1 b _ s0 Hs0 Ht eq_refl)
    as (s1 & x1 & -> & Hs1 & E1 & M1). cbn [bind].
  destruct (visit_corner_extends e 2 c _ s1 Hs1 Ht eq_refl)
    as (s2 & x2 & -> & Hs2 & E2 & M2). cbn [bind].
  exists s2, (x0 ++ x1 ++ x2). split_and!; try done.
  - rewrite E2, E1, E0. by rewrite <- !(assoc_L (++)).
  - intros n. rewrite !elem_of_app, M0, M1, M2. split.
    + intros [[? ?]|[[? ?]|[? ?]]]; [exists a | exists b | exists c];
        (split_and!; [set_solver|done|done]).
    + intros (v & Hv & ? & ?).
      apply elem_of_cons in Hv as [->|Hv]; [by left|].
      apply elem_of_cons in Hv as [->|Hv]; [by right; left|].
      apply list_elem_of_singleton in Hv as ->. by right; right.
Qed.

(** As long as a triggering element is waiting on the working list, the
    loop goes on; visiting it puts a non-support element on the list,
    and a non-support element is itself triggering. *)
Lemma first_loop_keeps_going (fuel position : nat) (st : pass1) :
  shaped1 grid_data st →
  Forall (λ e, e < number_of_elements grid_data) (elements_in_support st) →
  (∃ i e, position ≤ i ∧ elements_in_support st !! i = Some e
          ∧ triggering grid_data support e) →
  first_loop grid_data support true true vertex_neighbors index_ptr
    fuel position st = None.
Proof.
  revert position st. induction fuel as [|fuel IH];
    intros position st Hst Hwork (i & e & Hi & He & Htrig).
  - simpl. pose proof (lookup_lt_Some _ _ _ He) as Hlt.
    destruct (lookup_lt_is_Some_2 (elements_in_support st) position) as [e0 ->];
      [lia|done].
  - simpl. pose proof (lookup_lt_Some _ _ _ He) as Hlt.
    destruct (lookup_lt_is_Some_2 (elements_in_support st) position) as [e0 He0];
      [lia|]. rewrite He0.
    assert (He0lt : e0 < number_of_elements grid_data).
    { rewrite Forall_forall in Hwork. apply Hwork.
      by eapply list_elem_of_lookup_2. }
    destruct (lookup_lt_is_Some_2 (elements grid_data) e0 He0lt) as [t0 Ht0].
    destruct (visit_element_extends e0 t0 st Hst Ht0)
      as (st' & extra & -> & Hst' & Hlist & Hextra).
    apply IH; [done | |].
    + rewrite Hlist. apply Forall_app. split; [done|].
      apply Forall_forall. intros n (v & _ & Hinc & _)%Hextra.
      by eapply incident_to_lt.
    + destruct (decide (i = position)) as [->|Hne].
      * assert (e0 = e) as -> by congruence.
        destruct Htrig as (t & v & n & Ht & Hv & Hinc & Hn).
        assert (t = t0) as -> by congruence.
        assert (Hin : n ∈ extra) by (apply Hextra; eauto).
        apply list_elem_of_lookup in Hin as (k & Hk).
        exists (length (elements_in_support st) + k), n. split_and!.
        -- lia.
        -- rewrite Hlist, lookup_app_r by lia.
           by replace (length (elements_in_support st) + k
                       - length (elements_in_support st)) with k by lia.
        -- apply incident_to_true in Hinc as Hinc'.
           destruct Hinc' as (tn & Htn & Hvn).
           exists tn, v, n. by split_and!.
      * exists i, e. split_and!; [lia | | done].
        rewrite Hlist. by apply lookup_app_l_Some.
Qed.

(** With both flags set, a support element that shares a vertex with an
    element outside the support is enough: [_compute_p1_dof_map] never
    leaves its first loop. *)
Lemma extension_never_terminates (e : nat) (fuel : nat) :
  support !! e = Some true → triggering grid_data support e →
  _compute_p1_dof_map grid_data support true true vertex_neighbors index_ptr fuel
  = None.
Proof.
  intros He Htrig. unfold _compute_p1_dof_map, run.
  rewrite first_loop_keeps_going; [done | | |].
  - apply (initial_pass1_sound grid_data support).
  - simpl. by apply support_elements_lt.
  - apply elem_of_flatnonzero, list_elem_of_lookup in He as (i & Hi).
    exists i, e. split_and!; [lia | done | done].
Qed.

End ExtensionFires.


(** * Further properties *)

(** ** What the second loop writes *)

Section SlotEffects.
Import NumPy P1DofMap Invariants Invariants2 Outputs.
Context {R : Type}.
Variable grid_data : GridData R.
Variable l2g : list (list Z).
Variable dofs : list Z.

Hypothesis l2g_rows : rows3 grid_data l2g.

Lemma translate_slot_effect (e j : nat) (out out' : pass2) :
  shaped2 grid_data out →
  translate_slot l2g dofs e j out = Ok out' →
  shaped2 grid_data out'
  ∧ ∃ z, entry l2g e j = Some z
         ∧ ((z = (-1)%Z ∧ out' = out)
            ∨ (z ≠ (-1)%Z
               ∧ ∃ d, getitem_signed dofs z = Ok d
                      ∧ (∀ e' j', entry (local2global_final out') e' j'
                                  = if decide (e' = e ∧ j' = j)
                                    then Some (wrap_uint32 d)
                                    else entry (local2global_final out) e' j')
                      ∧ (∀ e' j', entry (local_multipliers out') e' j'
                                  = if decide (e' = e ∧ j' = j)
                                    then Some 1%Z
                                    else entry (local_multipliers out) e' j'))).
Proof.
  intros (Hf & Hm & Hs) H. unfold translate_slot in H.
  bind_step H as z Hz. apply getitem2_entry in Hz.
  destruct (entry_Some_lt grid_data l2g e j z l2g_rows Hz) as [He Hj].
  destruct (decide (z = (-1)%Z)) as [->|Hne].
  { injection H as <-. split; [done|]. exists (-1)%Z. split; [done|]. by left. }
  bind_step H as d Hd. bind_step H as sf Hsf. bind_step H as f Hset.
  bind_step H as m Hsetm. injection H as <-.
  apply setitem_Ok in Hsf as [_ ->].
  destruct (setitem2_total grid_data (local2global_final out) e j
              (wrap_uint32 d) Hf He Hj) as (f' & Hf1 & Hf' & Hfe).
  destruct (setitem2_total grid_data (local_multipliers out) e j 1%Z Hm He Hj)
    as (m' & Hm1 & Hm' & Hme).
  assert (f' = f) as -> by congruence. assert (m' = m) as -> by congruence.
  split.
  - split_and!; try done. simpl. by rewrite length_insert.
  - exists z. split; [done|]. right. split; [done|]. exists d. by split_and!.
Qed.

Lemma fill_slot_effect (e j : nat) (min_dof : Z) (out out' : pass2) :
  shaped2 grid_data out →
  fill_slot l2g min_dof e j out = Ok out' →
  shaped2 grid_data out'
  ∧ local_multipliers out' = local_multipliers out
  ∧ ∃ z, entry l2g e j = Some z
         ∧ ((z ≠ (-1)%Z ∧ out' = out)
            ∨ (z = (-1)%Z
               ∧ ∀ e' j', entry (local2global_final out') e' j'
                          = if decide (e' = e ∧ j' = j) then Some min_dof
                            else entry (local2global_final out) e' j')).
Proof.
  intros (Hf & Hm & Hs) H. unfold fill_slot in H.
  bind_step H as z Hz. apply getitem2_entry in Hz.
  destruct (entry_Some_lt grid_data l2g e j z l2g_rows Hz) as [He Hj].
  destruct (decide (z = (-1)%Z)) as [->|Hne].
  2: { injection H as <-. split_and!; try done. exists z. split; [done|]. by left. }
  bind_step H as f Hset. injection H as <-.
  destruct (setitem2_total grid_data (local2global_final out) e j min_dof Hf He Hj)
    as (f' & Hf1 & Hf' & Hfe).
  assert (f' = f) as -> by congruence.
  split_and!; try done. exists (-1)%Z. split; [done|]. by right.
Qed.

Abbreviation settled' := (settled grid_data l2g dofs).

Lemma translate_slot_facts (visited : list nat) (e j : nat) (out out' : pass2) :
  e ∈ visited → settled' visited out →
  translate_slot l2g dofs e j out = Ok out' →
  settled' visited out'
  ∧ (assigned l2g e j → entry (local_multipliers out') e j = Some 1%Z)
  ∧ (∀ e' j', entry (local_multipliers out) e' j' = Some 1%Z →
              entry (local_multipliers out') e' j' = Some 1%Z).
Proof.
  intros HeV (Hshape & (Hbin & Hone & Hzero) & Hown) H.
  destruct (translate_slot_effect e j out out' Hshape H)
    as (Hshape' & z & Hz & [[-> ->]|(Hne & d & Hd & Hfe & Hme)]).
  { split; [by split_and!|]. split; [|done].
    intros (z' & Hz' & Hne'). congruence. }
  split; [split; [done|split]|split].
  - split_and!.
    + intros e' j' m. rewrite Hme. case_decide; [intros [= <-]; by right|apply Hbin].
    + intros e' j'. rewrite Hme, Hfe.
      case_decide as Hc; [|apply Hone].
      destruct Hc as [-> ->]. intros _. exists z, d. by split_and!.
    + intros e' j'. rewrite Hme, Hfe. case_decide; [done|apply Hzero].
  - intros e' j'. rewrite Hme. case_decide as Hc; [|apply Hown].
    by destruct Hc as [-> _].
  - intros _. rewrite Hme. by rewrite decide_True.
  - intros e' j' H1. rewrite Hme. by case_decide.
Qed.

Lemma fill_slot_facts (visited : list nat) (e j : nat) (min_dof : Z)
    (out out' : pass2) :
  settled' visited out →
  ((∃ i, entry l2g e i = Some (-1)%Z) → min_dof = 0%Z) →
  fill_slot l2g min_dof e j out = Ok out' →
  settled' visited out' ∧ local_multipliers out' = local_multipliers out.
Proof.
  intros (Hshape & (Hbin & Hone & Hzero) & Hown) Hmin H.
  destruct (fill_slot_effect e j min_dof out out' Hshape H)
    as (Hshape' & Hlm & z & Hz & [[Hne ->]|[-> Hfe]]).
  { split; [by split_and!|done]. }
  split; [|done]. split; [done|split].
  - split_and!.
    + intros e' j' m. rewrite Hlm. apply Hbin.
    + intros e' j'. rewrite Hlm, Hfe. intros H1.
      destruct (Hone e' j' H1) as (z' & d & Hz' & Hne' & Hd & Hx).
      rewrite decide_False; [by exists z', d|].
      intros [-> ->]. congruence.
    + intros e' j'. rewrite Hlm, Hfe. intros H0.
      case_decide; [|by apply Hzero].
      rewrite Hmin; [done|]. eauto.
  - intros e' j'. rewrite Hlm. apply Hown.
Qed.

(** The minimum of a row with an unassigned slot. *)
Lemma min_of_settled_row (visited : list nat) (e : nat) (out : pass2)
    (row : list Z) (min_dof : Z) :
  settled' visited out →
  local2global_final out !! e = Some row → NumPy.min row = Ok min_dof →
  (∃ i, entry l2g e i = Some (-1)%Z) → min_dof = 0%Z.
Proof.
  intros ((Hf & Hm & _) & (Hbin & Hone & Hzero) & _) Hrow Hmin (i & Hi).
  destruct (entry_Some_lt grid_data l2g e i _ l2g_rows Hi) as [He Hi3].
  pose proof (proj2 Hf _ _ Hrow) as Hlen.
  assert (Hval : ∀ k x, row !! k = Some x →
                   (0 ≤ x)%Z ∧ (entry l2g e k = Some (-1)%Z → x = 0%Z)).
  { intros k x Hx. pose proof (lookup_lt_Some _ _ _ Hx) as Hk.
    assert (Hentry : entry (local2global_final out) e k = Some x)
      by (unfold entry; by rewrite Hrow).
    destruct (entry_is_Some grid_data _ e k Hm He) as (_ & m & _ & _ & Hmk); [lia|].
    destruct (Hbin _ _ _ Hmk) as [->| ->].
    - rewrite (Hzero _ _ Hmk) in Hentry. injection Hentry as <-. done.
    - destruct (Hone _ _ Hmk) as (z & d & Hz & Hne & _ & Hx').
      rewrite Hx' in Hentry. injection Hentry as <-. split.
      + unfold wrap_uint32. apply Z.mod_pos_bound. lia.
      + intros Hz'. congruence. }
  destruct row as [|x0 [|x1 [|x2 [|]]]]; try done.
  injection Hmin as <-. simpl.
  destruct (Hval 0 x0 eq_refl) as [G0 Z0].
  destruct (Hval 1 x1 eq_refl) as [G1 Z1].
  destruct (Hval 2 x2 eq_refl) as [G2 Z2].
  destruct i as [|[|[|i]]]; [specialize (Z0 Hi) | specialize (Z1 Hi)
                            | specialize (Z2 Hi) | lia]; lia.
Qed.

Lemma finalise_element_facts (visited : list nat) (e : nat) (out out' : pass2) :
  settled' visited out → complete l2g visited out →
  finalise_element l2g dofs e out = Ok out' →
  settled' (visited ++ [e]) out' ∧ complete l2g (visited ++ [e]) out'.
Proof.
  intros Hset Hcomp H.
  assert (Hset0 : settled' (visited ++ [e]) out).
  { destruct Hset as (Hsh & Htr & Hown). split; [done|]. split; [done|].
    intros e' j' Hone. apply elem_of_app. left. by eapply Hown. }
  assert (HeV : e ∈ visited ++ [e]) by (apply elem_of_app; right; by left).
  unfold finalise_element in H. bind_step H as t2 Ht.
  simpl in Ht. bind_step Ht as t0 Ht0. bind_step Ht as t1 Ht1.
  bind_step Ht as t2' Ht2. injection Ht as <-.
  destruct (translate_slot_facts _ e 0 out t0 HeV Hset0 Ht0) as (S0 & A0 & M0).
  destruct (translate_slot_facts _ e 1 t0 t1 HeV S0 Ht1) as (S1 & A1 & M1).
  destruct (translate_slot_facts _ e 2 t1 t2' HeV S1 Ht2) as (S2 & A2 & M2).
  bind_step H as row Hrow. apply getitem_Ok in Hrow.
  bind_step H as min_dof Hmin.
  pose proof (min_of_settled_row _ e t2' row min_dof S2 Hrow Hmin) as Hzero.
  simpl in H. bind_step H as f0 Hf0. bind_step H as f1 Hf1.
  bind_step H as f2 Hf2. injection H as <-.
  destruct (fill_slot_facts _ e 0 min_dof t2' f0 S2 Hzero Hf0) as (F0 & L0).
  destruct (fill_slot_facts _ e 1 min_dof f0 f1 F0 Hzero Hf1) as (F1 & L1).
  destruct (fill_slot_facts _ e 2 min_dof f1 f2 F1 Hzero Hf2) as (F2 & L2).
  split; [done|].
  intros e' j' He' Hass. rewrite L2, L1, L0.
  apply elem_of_app in He' as [He'|He'].
  - apply M2, M1, M0. by apply Hcomp.
  - apply list_elem_of_singleton in He' as ->.
    destruct Hass as (z & Hz & Hne).
    destruct (entry_Some_lt grid_data l2g e j' z l2g_rows Hz) as [_ Hj].
    destruct j' as [|[|[|j']]]; [| | |lia].
    + apply M2, M1, A0. by exists z.
    + apply M2, A1. by exists z.
    + apply A2. by exists z.
Qed.

Lemma second_loop_facts (work visited : list nat) (out out' : pass2) :
  settled' visited out → complete l2g visited out →
  foldM (finalise_element l2g dofs) work out = Ok out' →
  settled' (visited ++ work) out' ∧ complete l2g (visited ++ work) out'.
Proof.
  revert visited out. induction work as [|e work IH]; intros visited out Hs Hc H.
  - simpl in H. injection H as <-. by rewrite app_nil_r.
  - simpl in H. bind_step H as out1 Hout1.
    destruct (finalise_element_facts visited e out out1 Hs Hc Hout1) as [Hs1 Hc1].
    destruct (IH _ _ Hs1 Hc1 H) as [Hs' Hc'].
    by rewrite <- (assoc_L (++)) in Hs', Hc'.
Qed.

Lemma initial_pass2_settled :
  settled' [] (initial_pass2 grid_data)
  ∧ complete l2g [] (initial_pass2 grid_data).
Proof.
  assert (Hentry : ∀ e j z,
             entry (replicate (number_of_elements grid_data) [0%Z; 0%Z; 0%Z]) e j
             = Some z → z = 0%Z).
  { intros e j z. unfold entry.
    destruct (replicate _ _ !! e) as [row|] eqn:Hrow; [|done].
    apply lookup_replicate in Hrow as [-> _]. simpl.
    destruct j as [|[|[|j]]]; simpl; intros [= <-]; done. }
  split; [|by intros e j ?%elem_of_nil].
  split_and!.
  - apply (initial_pass2_sound grid_data l2g 0 l2g_rows).
  - split_and!; simpl.
    + intros e j m Hm. left. by eapply Hentry.
    + intros e j H1. by apply Hentry in H1.
    + intros e j H0.
      destruct (entry_Some_lt grid_data _ e j _
                  (proj1 (proj2 (proj1 (initial_pass2_sound grid_data l2g 0
                                          l2g_rows)))) H0) as [He Hj].
      destruct (entry_is_Some grid_data
                  (replicate (number_of_elements grid_data) [0%Z; 0%Z; 0%Z]) e j)
        as (_ & z & _ & _ & Hz); [|done..|].
      { apply (proj1 (proj1 (initial_pass2_sound grid_data l2g 0 l2g_rows))). }
      rewrite Hz. f_equal. by eapply Hentry.
  - intros e j H1. simpl in H1. by apply Hentry in H1.
Qed.

End SlotEffects.


(** ** The numbering of the DOF vertices, precisely *)

Section Ranks.
Import NumPy P1DofMap Invariants Invariants2 Outputs.

Lemma assign_at_NoDup {A : Type} (a a' : list A) (idx : list nat) (vals : list A) :
  NoDup idx → assign_at a idx vals = Ok a' →
  length a' = length a
  ∧ (∀ k i, idx !! k = Some i → a' !! i = vals !! k)
  ∧ (∀ i, i ∉ idx → a' !! i = a !! i).
Proof.
  intros Hnd. revert a vals.
  induction Hnd as [|i idx Hi Hnd IH]; intros a [|v vals] H; simpl in H; try done.
  - injection H as <-. split_and!; try done.
  - bind_step H as a1 Ha1. apply setitem_Ok in Ha1 as [Hlt ->].
    destruct (IH _ _ H) as (Hlen & Hat & Hother).
    split_and!.
    + by rewrite Hlen, length_insert.
    + intros [|k] i' Hk; simpl in *.
      * injection Hk as <-. rewrite (Hother i Hi).
        by apply list_lookup_insert_eq.
      * by apply Hat.
    + intros i' [Hne Hnotin]%not_elem_of_cons.
      rewrite (Hother i' Hnotin). by apply list_lookup_insert_ne.
Qed.

Context {R : Type}.
Variable grid_data : GridData R.

Lemma compute_dofs_numbering (vid : list bool) (dofs : list Z) :
  length vid = number_of_vertices grid_data →
  compute_dofs grid_data vid = Ok dofs →
  length dofs = number_of_vertices grid_data
  ∧ (∀ k v, flatnonzero vid !! k = Some v → dofs !! v = Some (Z.of_nat k))
  ∧ (∀ v, v < number_of_vertices grid_data → vid !! v ≠ Some true →
          dofs !! v = Some (-1)%Z).
Proof.
  intros Hlen H. unfold compute_dofs in H.
  destruct (assign_at_NoDup _ _ _ _ (NoDup_flatnonzero_from vid 0) H)
    as (Hl & Hat & Hother).
  split_and!.
  - by rewrite Hl, length_replicate.
  - intros k v Hk. rewrite (Hat k v Hk).
    apply lookup_arange. by eapply lookup_lt_Some.
  - intros v Hv Hnot. rewrite Hother.
    + by apply lookup_replicate.
    + intros Hin. by apply elem_of_flatnonzero in Hin.
Qed.

(** Everything known at the [return]. *)
Lemma run_outputs (support : list bool) (include_boundary_dofs
    ensure_global_continuity : bool) (vertex_neighbors index_ptr : list nat)
    (fuel : nat) (l : locals) :
  (Z.of_nat (number_of_vertices grid_data) ≤ 2 ^ 31)%Z →
  run grid_data support include_boundary_dofs ensure_global_continuity
    vertex_neighbors index_ptr fuel = Some (Ok l) →
  sound1 grid_data (first l)
  ∧ compute_dofs grid_data (vertex_is_dof (first l)) = Ok (dofs l)
  ∧ global_dof_count l = length (flatnonzero (vertex_is_dof (first l)))
  ∧ settled grid_data (local2global (first l)) (dofs l)
      (elements_in_support (first l)) (second l)
  ∧ complete (local2global (first l)) (elements_in_support (first l)) (second l).
Proof.
  intros Hfit Hrun.
  destruct (run_sound grid_data support include_boundary_dofs
              ensure_global_continuity vertex_neighbors index_ptr fuel l Hfit Hrun)
    as (Hsound & Hcount & _).
  unfold run in Hrun.
  destruct (first_loop _ _ _ _ _ _ _ _ _) as [[st|]|]; try done.
  injection Hrun as Hrun. unfold second_part in Hrun.
  bind_step Hrun as d Hd. bind_step Hrun as out Hout. injection Hrun as <-.
  simpl in *. split_and!; try done.
  all: destruct (initial_pass2_settled grid_data (local2global st) d
                   (proj1 (proj1 Hsound))) as [Hs0 Hc0];
    destruct (second_loop_facts grid_data (local2global st) d
                (proj1 (proj1 Hsound)) _ [] _ _ Hs0 Hc0 Hout) as [Hs Hc]; done.
Qed.

(** The DOF under a multiplier 1 is the rank of the slot's vertex among
    the DOF vertices. *)
Lemma run_ranks (support : list bool) (include_boundary_dofs
    ensure_global_continuity : bool) (vertex_neighbors index_ptr : list nat)
    (fuel : nat) (l : locals) (e j : nat) :
  (Z.of_nat (number_of_vertices grid_data) ≤ 2 ^ 31)%Z →
  run grid_data support include_boundary_dofs ensure_global_continuity
    vertex_neighbors index_ptr fuel = Some (Ok l) →
  entry (local_multipliers (second l)) e j = Some 1%Z →
  ∃ v k, entry (local2global (first l)) e j = Some (Z.of_nat v)
         ∧ flatnonzero (vertex_is_dof (first l)) !! k = Some v
         ∧ entry (local2global_final (second l)) e j = Some (Z.of_nat k).
Proof.
  intros Hfit Hrun H1.
  destruct (run_outputs support include_boundary_dofs ensure_global_continuity
              vertex_neighbors index_ptr fuel l Hfit Hrun)
    as (Hsound & Hdofs & _ & (_ & (_ & Hone & _) & _) & _).
  destruct (Hone e j H1) as (z & d & Hz & Hne & Hd & Hx).
  destruct Hsound as [[_ Hlen] Hmarked].
  assert (Hv : ∃ v, z = Z.of_nat v ∧ vertex_is_dof (first l) !! v = Some true).
  { unfold entry in Hz.
    destruct (local2global (first l) !! e) as [row|] eqn:Hrow; [|done].
    by eapply Hmarked. }
  destruct Hv as (v & -> & Hv).
  destruct (compute_dofs_numbering _ _ Hlen Hdofs) as (Hld & Hnum & _).
  apply elem_of_flatnonzero, list_elem_of_lookup in Hv as Hk.
  destruct Hk as (k & Hk).
  exists v, k. split_and!; try done.
  unfold getitem_signed in Hd.
  rewrite norm_index_nat in Hd
    by (rewrite Hld, <- Hlen; apply elem_of_flatnonzero in Hv;
        by eapply lookup_lt_Some).
  simpl in Hd. apply getitem_Ok in Hd. rewrite (Hnum k v Hk) in Hd.
  injection Hd as <-. rewrite Hx. f_equal.
  pose proof (lookup_lt_Some _ _ _ Hk) as Hklt.
  pose proof (length_flatnonzero_from (vertex_is_dof (first l)) 0) as Hle.
  unfold flatnonzero in Hklt.
  apply (wrap_uint32_small k (number_of_vertices grid_data)); lia.
Qed.

End Ranks.


(** ** The provisional map when the extension branch is off *)

Section ProvisionalMap.
Import NumPy P1DofMap Topology Invariants Invariants2 Marking Provisional.
Context {R : Type}.
Variable grid_data : GridData R.
Variable support : list bool.
Variables include_boundary_dofs ensure_global_continuity : bool.
Variables vertex_neighbors index_ptr : list nat.

Hypothesis wf : well_formed grid_data support.
Hypothesis adj : adjacency grid_data vertex_neighbors index_ptr.
Hypothesis quiet : ensure_global_continuity && include_boundary_dofs = false.

Abbreviation assignable' := (assignable grid_data support include_boundary_dofs).
Abbreviation corner' := (corner grid_data).
Abbreviation visit_corner3 :=
  (visit_corner grid_data support include_boundary_dofs ensure_global_continuity
     vertex_neighbors index_ptr).
Abbreviation visit_element3 :=
  (visit_element grid_data support include_boundary_dofs ensure_global_continuity
     vertex_neighbors index_ptr).

Lemma visit_corner_entries (e j : nat) (st st' : pass1) :
  shaped1 grid_data st →
  visit_corner3 e j st = Ok st' →
  shaped1 grid_data st'
  ∧ ∃ v, corner' e j v
         ∧ ∀ e' j', entry (local2global st') e' j'
                    = if decide (e' = e ∧ j' = j)
                      then (if assignable' v then Some (Z.of_nat v)
                            else entry (local2global st) e j)
                      else entry (local2global st) e' j'.
Proof.
  intros Hst H.
  assert (Ht : ∃ t v, elements grid_data !! e = Some t ∧ column t !! j = Some v).
  { unfold visit_corner in H. bind_step H as t Ht. bind_step H as v Hv.
    apply getitem_Ok in Ht, Hv. eauto. }
  destruct Ht as (t & v & Ht & Hv).
  destruct (visit_corner_total grid_data support include_boundary_dofs
              ensure_global_continuity vertex_neighbors index_ptr wf adj quiet
              e j v t st Hst Ht Hv) as (st2 & Heq & Hshape & _).
  assert (st2 = st') as -> by congruence. split; [done|].
  exists v. split; [by exists t|].
  clear Heq Hshape. destruct Hst as [Hrows Hvid].
  assert (Hlt : v < number_of_vertices grid_data).
  { eapply (vertices_in_range _ _ wf); [done|]. by eapply list_elem_of_lookup_2. }
  assert (Hj : j < 3).
  { apply lookup_lt_Some in Hv. by destruct t as [[? ?] ?]. }
  destruct (neighbors_total grid_data support vertex_neighbors index_ptr wf adj
              v Hlt) as (neighbors & nsn & Hn & Hnsn & Hnil).
  unfold visit_corner in H.
  rewrite (proj2 (getitem_Ok _ _ _) Ht) in H. cbn [bind] in H.
  rewrite (proj2 (getitem_Ok _ _ _) Hv) in H. cbn [bind] in H.
  rewrite Hn in H. cbn [bind] in H. rewrite Hnsn in H. cbn [bind] in H.
  rewrite <- andb_assoc, quiet, andb_false_r in H.
  assert (Hcond : bool_decide (length nsn = 0) = interior grid_data support v).
  { destruct (interior grid_data support v).
    - apply bool_decide_eq_true. by apply Hnil.
    - apply bool_decide_eq_false. intros H0. apply Hnil in H0. done. }
  rewrite Hcond in H. unfold assignable.
  destruct (include_boundary_dofs || interior grid_data support v).
  - destruct (setitem2_total grid_data (local2global st) e j
                (wrap_int32 (Z.of_nat v)) Hrows) as (m' & Hm & _ & Hentries);
      [by eapply lookup_lt_Some | done |].
    rewrite Hm in H. cbn [bind] in H. bind_step H as st1 Hst1.
    injection H as <-. bind_step Hst1 as vid Hset. injection Hst1 as <-.
    cbn [local2global]. intros e' j'. rewrite Hentries.
    rewrite (wrap_int32_small grid_data (vertices_fit _ _ wf) v Hlt). done.
  - cbn [bind] in H. injection H as <-. intros e' j'.
    by destruct (decide (e' = e ∧ j' = j)) as [[-> ->]|_].
Qed.

Lemma corner_unique (e j v v' : nat) : corner' e j v → corner' e j v' → v = v'.
Proof. intros (t & Ht & Hv) (t' & Ht' & Hv'). congruence. Qed.

Abbreviation own_corners' :=
  (own_corners grid_data support include_boundary_dofs).

Lemma visit_corner_own (e j : nat) (st st' : pass1) :
  support !! e = Some true →
  shaped1 grid_data st → own_corners' (local2global st) →
  visit_corner3 e j st = Ok st' →
  shaped1 grid_data st' ∧ own_corners' (local2global st')
  ∧ (∀ v, corner' e j v → assignable' v = true →
          entry (local2global st') e j = Some (Z.of_nat v))
  ∧ (∀ e' j' v, corner' e' j' v →
                entry (local2global st) e' j' = Some (Z.of_nat v) →
                entry (local2global st') e' j' = Some (Z.of_nat v)).
Proof.
  intros He Hst Hown H.
  destruct (visit_corner_entries e j st st' Hst H) as (Hst' & v & Hc & Hent).
  split_and!; [done|..].
  - intros e' j' z. rewrite Hent. case_decide as Hd; [|apply Hown].
    destruct Hd as [-> ->].
    destruct (assignable' v) eqn:Ha; [|apply Hown].
    intros [= <-] _. exists v. by split_and!.
  - intros v' Hc' Ha. rewrite Hent, decide_True by done.
    rewrite (corner_unique _ _ _ _ Hc' Hc) in Ha |- *. by rewrite Ha.
  - intros e' j' v' Hc' Hold. rewrite Hent. case_decide as Hd; [|done].
    destruct Hd as [-> ->]. rewrite (corner_unique _ _ _ _ Hc' Hc) in Hold |- *.
    by destruct (assignable' v).
Qed.

Lemma visit_element_own (e : nat) (st st' : pass1) :
  support !! e = Some true →
  shaped1 grid_data st → own_corners' (local2global st) →
  visit_element3 e st = Ok st' →
  shaped1 grid_data st' ∧ own_corners' (local2global st')
  ∧ (∀ j v, corner' e j v → assignable' v = true →
            entry (local2global st') e j = Some (Z.of_nat v))
  ∧ (∀ e' j' v, corner' e' j' v →
                entry (local2global st) e' j' = Some (Z.of_nat v) →
                entry (local2global st') e' j' = Some (Z.of_nat v)).
Proof.
  intros He Hst Hown H. unfold visit_element in H. simpl in H.
  bind_step H as s0 H0. bind_step H as s1 H1. bind_step H as s2 H2.
  injection H as <-.
  destruct (visit_corner_own e 0 st s0 He Hst Hown H0) as (S0 & O0 & A0 & K0).
  destruct (visit_corner_own e 1 s0 s1 He S0 O0 H1) as (S1 & O1 & A1 & K1).
  destruct (visit_corner_own e 2 s1 s2 He S1 O1 H2) as (S2 & O2 & A2 & K2).
  split_and!; try done.
  - intros j v Hc Ha.
    assert (Hj : j < 3).
    { destruct Hc as (t & _ & Hv). apply lookup_lt_Some in Hv.
      by destruct t as [[? ?] ?]. }
    destruct j as [|[|[|j]]]; [| | |lia].
    + apply (K2 _ _ _ Hc), (K1 _ _ _ Hc). by apply A0.
    + apply (K2 _ _ _ Hc). by apply A1.
    + by apply A2.
  - intros e' j' v Hc Hold. by apply (K2 _ _ _ Hc), (K1 _ _ _ Hc), (K0 _ _ _ Hc).
Qed.

Lemma first_fold_own (work : list nat) (st st' : pass1) :
  Forall (λ e, support !! e = Some true) work →
  shaped1 grid_data st → own_corners' (local2global st) →
  foldM visit_element3 work st = Ok st' →
  shaped1 grid_data st' ∧ own_corners' (local2global st')
  ∧ (∀ e j v, e ∈ work → corner' e j v → assignable' v = true →
              entry (local2global st') e j = Some (Z.of_nat v))
  ∧ (∀ e' j' v, corner' e' j' v →
                entry (local2global st) e' j' = Some (Z.of_nat v) →
                entry (local2global st') e' j' = Some (Z.of_nat v)).
Proof.
  intros Hwork. revert st.
  induction Hwork as [|e work He _ IH]; intros st Hst Hown H; simpl in H.
  - injection H as <-. split_and!; try done. intros e j v ?%elem_of_nil. done.
  - bind_step H as s1 H1.
    destruct (visit_element_own e st s1 He Hst Hown H1) as (S1 & O1 & A1 & K1).
    destruct (IH s1 S1 O1 H) as (S' & O' & A' & K').
    split_and!; try done.
    + intros e' j v [->|Hin]%elem_of_cons Hc Ha.
      * apply (K' _ _ _ Hc). by apply A1.
      * by apply A'.
    + intros e' j' v Hc Hold. by apply (K' _ _ _ Hc), (K1 _ _ _ Hc).
Qed.

(** The provisional map at the [return]: an entry is the slot's own corner
    when the element is in the support and the corner is assignable, and
    [-1] otherwise. *)
Lemma run_provisional (fuel : nat) (l : locals) :
  run grid_data support include_boundary_dofs ensure_global_continuity
    vertex_neighbors index_ptr fuel = Some (Ok l) →
  length (flatnonzero support) ≤ fuel →
  elements_in_support (first l) = flatnonzero support
  ∧ own_corners' (local2global (first l))
  ∧ (∀ e j v, support !! e = Some true → corner' e j v → assignable' v = true →
              entry (local2global (first l)) e j = Some (Z.of_nat v)).
Proof.
  intros Hrun Hfuel. rewrite run_quiet in Hrun by done.
  injection Hrun as Hrun. bind_step Hrun as st Hst.
  assert (Hfirst : first l = st).
  { unfold second_part in Hrun. bind_step Hrun as d Hd.
    bind_step Hrun as out Hout. by injection Hrun as <-. }
  rewrite Hfirst.
  destruct (first_fold_own (flatnonzero support)
              (initial_pass1 grid_data support) st)
    as (_ & Hown & Hall & _);
    [| apply (initial_pass1_sound grid_data support) | | done |].
  - apply Forall_forall. intros e. apply elem_of_flatnonzero.
  - intros e j z Hz Hne. exfalso. simpl in Hz. unfold entry in Hz.
    destruct (replicate _ _ !! e) as [row|] eqn:Hrow; [|done].
    apply lookup_replicate in Hrow as [-> _]. simpl in Hz.
    destruct j as [|[|[|j]]]; simpl in Hz; try done; congruence.
  - split_and!; try done.
    + revert Hst.
      apply (foldM_invariant _
               (λ t, elements_in_support t = flatnonzero support) (λ _, True));
        [|by apply Forall_forall|done].
      intros e t t' _ Ht Hv. rewrite <- Ht.
      by eapply visit_element_keeps_list.
    + intros e j v He. apply Hall. by apply elem_of_flatnonzero.
Qed.

End ProvisionalMap.


(** ** The arrays [_compute_p1_dof_map] returns, under any flags *)

Section ReturnedArrays.
Import NumPy P1DofMap Invariants Invariants2 Outputs.
Context {R : Type}.
Variable grid_data : GridData R.
Variable support : list bool.
Variables include_boundary_dofs ensure_global_continuity : bool.
Variables vertex_neighbors index_ptr : list nat.
Variable fuel : nat.
Variable l : locals.

Hypothesis vertices_fit : (Z.of_nat (number_of_vertices grid_data) ≤ 2 ^ 31)%Z.
Hypothesis returns :
  run grid_data support include_boundary_dofs ensure_global_continuity
    vertex_neighbors index_ptr fuel = Some (Ok l).

(** X1.  Whatever the flags and the adjacency, when [_compute_p1_dof_map]
    returns, both arrays have one row of three entries per element, every
    multiplier is 0 or 1, and the multiplier of a slot is 1 exactly when
    the element is on the working list and the slot was assigned a vertex
    in the first loop. *)
Theorem multipliers_mark_assigned_slots :
  rows3 grid_data (local2global_final (second l))
  ∧ rows3 grid_data (local_multipliers (second l))
  ∧ (∀ e j m, entry (local_multipliers (second l)) e j = Some m →
              m = 0%Z ∨ m = 1%Z)
  ∧ (∀ e j, entry (local_multipliers (second l)) e j = Some 1%Z
            ↔ e ∈ elements_in_support (first l)
              ∧ ∃ z, entry (local2global (first l)) e j = Some z ∧ z ≠ (-1)%Z).
Proof.
  destruct (run_outputs grid_data support include_boundary_dofs
              ensure_global_continuity vertex_neighbors index_ptr fuel l
              vertices_fit returns)
    as (_ & _ & _ & ((Hf & Hm & _) & (Hbin & Hone & _) & Hown) & Hcomp).
  split_and!; try done.
  intros e j. split.
  - intros H1. split; [by eapply Hown|].
    destruct (Hone e j H1) as (z & d & Hz & Hne & _). eauto.
  - intros [He Hz]. by apply Hcomp.
Qed.

(** X2.  A slot with multiplier 0 holds the index 0 in the returned
    [local2global]: the placeholder of an unassigned slot is always DOF 0,
    whatever the DOFs of the other slots of the element. *)
Theorem inert_slots_hold_zero (e j : nat) :
  entry (local_multipliers (second l)) e j = Some 0%Z →
  entry (local2global_final (second l)) e j = Some 0%Z.
Proof.
  destruct (run_outputs grid_data support include_boundary_dofs
              ensure_global_continuity vertex_neighbors index_ptr fuel l
              vertices_fit returns)
    as (_ & _ & _ & (_ & (_ & _ & Hzero) & _) & _).
  apply Hzero.
Qed.

(** X3.  Continuity: two slots with multiplier 1 carry the same DOF
    exactly when the first loop assigned them the same vertex. *)
Theorem same_vertex_same_dof (e j e' j' : nat) (z z' x x' : Z) :
  entry (local_multipliers (second l)) e j = Some 1%Z →
  entry (local_multipliers (second l)) e' j' = Some 1%Z →
  entry (local2global (first l)) e j = Some z →
  entry (local2global (first l)) e' j' = Some z' →
  entry (local2global_final (second l)) e j = Some x →
  entry (local2global_final (second l)) e' j' = Some x' →
  x = x' ↔ z = z'.
Proof.
  intros H1 H1' Hz Hz' Hx Hx'.
  destruct (run_ranks grid_data support include_boundary_dofs
              ensure_global_continuity vertex_neighbors index_ptr fuel l e j
              vertices_fit returns H1) as (v & k & Hv & Hk & Hxk).
  destruct (run_ranks grid_data support include_boundary_dofs
              ensure_global_continuity vertex_neighbors index_ptr fuel l e' j'
              vertices_fit returns H1') as (v' & k' & Hv' & Hk' & Hxk').
  assert (z = Z.of_nat v) as -> by congruence.
  assert (z' = Z.of_nat v') as -> by congruence.
  assert (x = Z.of_nat k) as -> by congruence.
  assert (x' = Z.of_nat k') as -> by congruence.
  split.
  - intros Heq. apply Nat2Z.inj in Heq as ->. congruence.
  - intros Heq. apply Nat2Z.inj in Heq as ->. f_equal.
    by eapply (NoDup_lookup _ _ _ _ (NoDup_flatnonzero_from _ 0)).
Qed.

(** X4.  The DOF numbering: [dofs] has one entry per vertex; the DOF
    vertices, taken in ascending order, are numbered 0, 1, 2, ... and
    every other vertex keeps [-1]; the DOF count is the number of DOF
    vertices and is at most the number of vertices. *)
Theorem dof_vertices_numbered_in_ascending_order :
  length (dofs l) = number_of_vertices grid_data
  ∧ (∀ k k' v v', k < k' →
       flatnonzero (vertex_is_dof (first l)) !! k = Some v →
       flatnonzero (vertex_is_dof (first l)) !! k' = Some v' → v < v')
  ∧ (∀ v, v ∈ flatnonzero (vertex_is_dof (first l))
          ↔ vertex_is_dof (first l) !! v = Some true)
  ∧ (∀ k v, flatnonzero (vertex_is_dof (first l)) !! k = Some v →
            dofs l !! v = Some (Z.of_nat k))
  ∧ (∀ v, v < number_of_vertices grid_data →
          vertex_is_dof (first l) !! v ≠ Some true → dofs l !! v = Some (-1)%Z)
  ∧ global_dof_count l = length (flatnonzero (vertex_is_dof (first l)))
  ∧ global_dof_count l ≤ number_of_vertices grid_data.
Proof.
  destruct (run_outputs grid_data support include_boundary_dofs
              ensure_global_continuity vertex_neighbors index_ptr fuel l
              vertices_fit returns) as ([[_ Hlen] _] & Hdofs & Hcount & _).
  destruct (compute_dofs_numbering grid_data _ _ Hlen Hdofs) as (Hl & Hnum & Hrest).
  split_and!; try done.
  - intros k k' v v'. apply flatnonzero_from_increasing.
  - intros v. apply elem_of_flatnonzero.
  - rewrite Hcount, <- Hlen. apply (length_flatnonzero_from _ 0).
Qed.

End ReturnedArrays.

Section ReturnedArraysWitnesses.
Import NumPy P1DofMap Invariants Invariants2 Meshes.

Lemma two_triangles_fit :
  (Z.of_nat (number_of_vertices TwoTriangles.grid_data) ≤ 2 ^ 31)%Z.
Proof. vm_compute. discriminate. Defined.

Lemma multipliers_mark_assigned_slots_witness :
  ∃ l, run TwoTriangles.grid_data [true; false] true false
         TwoTriangles.vertex_neighbors TwoTriangles.index_ptr 1 = Some (Ok l)
       ∧ rows3 TwoTriangles.grid_data (local2global_final (second l))
       ∧ rows3 TwoTriangles.grid_data (local_multipliers (second l))
       ∧ (∀ e j m, entry (local_multipliers (second l)) e j = Some m →
                   m = 0%Z ∨ m = 1%Z)
       ∧ (∀ e j, entry (local_multipliers (second l)) e j = Some 1%Z
                 ↔ e ∈ elements_in_support (first l)
                   ∧ ∃ z, entry (local2global (first l)) e j = Some z
                          ∧ z ≠ (-1)%Z).
Proof.
  eexists. split; [reflexivity|].
  exact (multipliers_mark_assigned_slots TwoTriangles.grid_data [true; false]
           true false TwoTriangles.vertex_neighbors TwoTriangles.index_ptr 1 _
           two_triangles_fit eq_refl).
Defined.

Lemma inert_slots_hold_zero_witness :
  ∃ l, run Enclosed.grid_data Enclosed.support false false
         Enclosed.vertex_neighbors Enclosed.index_ptr 1 = Some (Ok l)
       ∧ entry (local_multipliers (second l)) 0 1 = Some 0%Z
       ∧ entry (local2global_final (second l)) 0 1 = Some 0%Z.
Proof.
  eexists. split; [reflexivity|]. split; [reflexivity|].
  apply (inert_slots_hold_zero Enclosed.grid_data Enclosed.support false false
           Enclosed.vertex_neighbors Enclosed.index_ptr 1 _).
  - vm_compute. discriminate.
  - reflexivity.
  - reflexivity.
Defined.

Lemma same_vertex_same_dof_witness :
  ∃ l, run TwoTriangles.grid_data [true; true] true false
         TwoTriangles.vertex_neighbors TwoTriangles.index_ptr 2 = Some (Ok l)
       ∧ ∃ z z' x x',
           entry (local2global (first l)) 0 1 = Some z
           ∧ entry (local2global (first l)) 1 0 = Some z'
           ∧ entry (local2global_final (second l)) 0 1 = Some x
           ∧ entry (local2global_final (second l)) 1 0 = Some x'
           ∧ (x = x' ↔ z = z').
Proof.
  eexists. split; [reflexivity|].
  eexists _, _, _, _. split_and!; [reflexivity..|].
  apply (same_vertex_same_dof TwoTriangles.grid_data [true; true] true false
           TwoTriangles.vertex_neighbors TwoTriangles.index_ptr 2 _ two_triangles_fit eq_refl
           0 1 1 0 _ _ _ _ eq_refl eq_refl eq_refl eq_refl eq_refl eq_refl).
Defined.

Lemma dof_vertices_numbered_in_ascending_order_witness :
  ∃ l, run TwoTriangles.grid_data [false; true] false false
         TwoTriangles.vertex_neighbors TwoTriangles.index_ptr 1 = Some (Ok l)
       ∧ dofs l = [-1; -1; -1; 0]%Z
       ∧ (∀ k v, flatnonzero (vertex_is_dof (first l)) !! k = Some v →
                 dofs l !! v = Some (Z.of_nat k))
       ∧ global_dof_count l ≤ number_of_vertices TwoTriangles.grid_data.
Proof.
  eexists. split; [reflexivity|]. split; [reflexivity|].
  destruct (dof_vertices_numbered_in_ascending_order TwoTriangles.grid_data
              [false; true] false false TwoTriangles.vertex_neighbors
              TwoTriangles.index_ptr 1 _ two_triangles_fit eq_refl)
    as (_ & _ & _ & Hnum & _ & _ & Hle).
  split; [exact Hnum | exact Hle].
Defined.

End ReturnedArraysWitnesses.


(** ** [find_index] *)

Section FindIndexSpec.
Import NumPy P1DofMap.

(** X5.  [find_index] returns [-1] exactly when the value does not occur
    in the array, and the index [j] exactly when [j] is the first
    position that holds the value. *)
Theorem find_index_is_first_position (array : list nat) (value : nat) :
  (find_index array value = (-1)%Z ↔ value ∉ array)
  ∧ (∀ j : nat, find_index array value = Z.of_nat j
       ↔ array !! j = Some value ∧ ∀ i, i < j → array !! i ≠ Some value).
Proof.
  unfold find_index. split.
  - split; [|apply find_index_from_missing].
    intros Hm Hin.
    destruct (find_index_from_found _ _ 0%Z Hin) as (j & Hj & _). lia.
  - intros j. split.
    + intros Hj. destruct (decide (value ∈ array)) as [Hin|Hin].
      * destruct (find_index_from_found _ _ 0%Z Hin) as (j0 & Hj0 & Hlook & Hfirst).
        assert (j = j0) as -> by lia. done.
      * rewrite find_index_from_missing in Hj by done. lia.
    + intros [Hlook Hfirst].
      destruct (find_index_from_found array value 0%Z) as (j0 & Hj0 & Hlook0 & Hfirst0).
      { by eapply list_elem_of_lookup_2. }
      rewrite Hj0. destruct (lt_eq_lt_dec j j0) as [[Hlt| ->]|Hlt]; [|lia|].
      * by apply Hfirst0 in Hlt.
      * by apply Hfirst in Hlt.
Qed.

End FindIndexSpec.


(** ** The working list when one of the flags is off *)

Section FixedWorkingList.
Import NumPy P1DofMap Invariants Invariants2 Outputs.
Context {R : Type}.
Variable grid_data : GridData R.
Variable support : list bool.
Variables include_boundary_dofs ensure_global_continuity : bool.
Variables vertex_neighbors index_ptr : list nat.

(** X6.  Unless both flags are set, the first loop visits the support
    elements once and nothing else, on any input: as many iterations as
    there are support elements end the loop, the working list at the
    [return] is the list of support elements, and an element outside the
    support has multiplier 0 and index 0 in all three slots. *)
Theorem without_both_flags_only_support_is_visited (fuel : nat) :
  ensure_global_continuity && include_boundary_dofs = false →
  (Z.of_nat (number_of_vertices grid_data) ≤ 2 ^ 31)%Z →
  length (flatnonzero support) ≤ fuel →
  is_Some (run grid_data support include_boundary_dofs ensure_global_continuity
             vertex_neighbors index_ptr fuel)
  ∧ ∀ l, run grid_data support include_boundary_dofs ensure_global_continuity
           vertex_neighbors index_ptr fuel = Some (Ok l) →
         elements_in_support (first l) = flatnonzero support
         ∧ ∀ e j, e < number_of_elements grid_data → j < 3 →
                  support !! e ≠ Some true →
                  entry (local_multipliers (second l)) e j = Some 0%Z
                  ∧ entry (local2global_final (second l)) e j = Some 0%Z.
Proof.
  intros quiet Hfit Hfuel.
  pose proof (run_quiet grid_data support include_boundary_dofs
                ensure_global_continuity vertex_neighbors index_ptr quiet
                fuel Hfuel) as Hq.
  split; [by rewrite Hq|].
  intros l Hrun.
  assert (Hlist : elements_in_support (first l) = flatnonzero support).
  { rewrite Hq in Hrun. injection Hrun as Hrun.
    bind_step Hrun as st Hfold. unfold second_part in Hrun.
    bind_step Hrun as d Hd. bind_step Hrun as out Hout.
    injection Hrun as <-. cbn [first].
    revert Hfold.
    apply (foldM_invariant _
             (λ t, elements_in_support t = flatnonzero support) (λ _, True));
      [|by apply Forall_forall|done].
    intros e t t' _ Ht Hv. rewrite <- Ht.
    by eapply visit_element_keeps_list. }
  split; [done|].
  destruct (run_outputs grid_data support include_boundary_dofs
              ensure_global_continuity vertex_neighbors index_ptr fuel l
              Hfit Hrun)
    as (_ & _ & _ & ((_ & Hm & _) & (Hbin & _ & Hzero) & Hown) & _).
  intros e j He Hj Hs.
  destruct (entry_is_Some grid_data _ e j Hm He Hj) as (row & m & _ & _ & Hentry).
  assert (m = 0%Z) as ->.
  { destruct (Hbin e j m Hentry) as [-> | ->]; [done|].
    exfalso. apply Hs. apply elem_of_flatnonzero. rewrite <- Hlist.
    by eapply Hown. }
  split; [done|]. by apply Hzero.
Qed.

End FixedWorkingList.

Section FixedWorkingListWitness.
Import NumPy P1DofMap Invariants2 Meshes.

Lemma without_both_flags_only_support_is_visited_witness :
  is_Some (run Chain.grid_data [true; false; true] true false
             Chain.vertex_neighbors Chain.index_ptr 2)
  ∧ ∀ l, run Chain.grid_data [true; false; true] true false
           Chain.vertex_neighbors Chain.index_ptr 2 = Some (Ok l) →
         elements_in_support (first l) = flatnonzero [true; false; true]
         ∧ ∀ e j, e < number_of_elements Chain.grid_data → j < 3 →
                  [true; false; true] !! e ≠ Some true →
                  entry (local_multipliers (second l)) e j = Some 0%Z
                  ∧ entry (local2global_final (second l)) e j = Some 0%Z.
Proof.
  apply (without_both_flags_only_support_is_visited Chain.grid_data
           [true; false; true] true false).
  - reflexivity.
  - vm_compute. discriminate.
  - vm_compute. lia.
Defined.

End FixedWorkingListWitness.


(** ** When the extension branch makes the first loop run on *)

Lemma foldM_ext {A S : Type} (f g : A → S → result S) (l : list A) (s : S) :
  (∀ x t, f x t = g x t) → foldM f l s = foldM g l s.
Proof.
  intros Hfg. revert s. induction l as [|x l IH]; intros s; simpl; [done|].
  rewrite Hfg. destruct (g x s); simpl; [apply IH | done].
Qed.

Section ExtensionDichotomy.
Import NumPy P1DofMap Topology Invariants Extension.
Context {R : Type}.
Variable grid_data : GridData R.
Variable support : list bool.
Variables vertex_neighbors index_ptr : list nat.

Hypothesis wf : well_formed grid_data support.
Hypothesis adj : adjacency grid_data vertex_neighbors index_ptr.

(** X7.  With both flags set, on a well-formed mesh, one support element
    that shares a vertex with an element outside the support is enough
    for [_compute_p1_dof_map] never to leave its first loop: no number of
    iterations brings it to its [return]. *)
Theorem extension_runs_forever (e : nat) (t : nat * nat * nat) (v n : nat) :
  support !! e = Some true →
  elements grid_data !! e = Some t → v ∈ column t →
  incident_to grid_data v n = true → support !! n = Some false →
  ∀ fuel, _compute_p1_dof_map grid_data support true true
            vertex_neighbors index_ptr fuel = None.
Proof.
  intros He Ht Hv Hinc Hn fuel.
  apply (extension_never_terminates grid_data support vertex_neighbors
           index_ptr wf adj e fuel He).
  exists t, v, n. by split_and!.
Qed.

Hypothesis closed :
  ∀ e, support !! e = Some true → ¬ triggering grid_data support e.

Lemma visit_corner_no_outside (e j : nat) (st : pass1) :
  support !! e = Some true →
  visit_corner grid_data support true true vertex_neighbors index_ptr e j st
  = visit_corner grid_data support true false vertex_neighbors index_ptr e j st.
Proof.
  intros He. unfold visit_corner.
  destruct (getitem (elements grid_data) e) as [col|] eqn:Hcol; [|done].
  cbn [bind].
  destruct (getitem (column col) j) as [v|] eqn:Hv; [|done]. cbn [bind].
  apply getitem_Ok in Hcol, Hv.
  assert (Hin : v ∈ column col) by (by eapply list_elem_of_lookup_2).
  pose proof (vertices_in_range _ _ wf e col v Hcol Hin) as Hlt.
  destruct (non_support_neighbors_total grid_data support vertex_neighbors
              index_ptr wf adj v Hlt) as (nb & nsn & Hnb & Hnsn & Hchar).
  rewrite !Hnb. cbn [bind]. rewrite !Hnsn. cbn [bind].
  assert (nsn = []) as ->.
  { destruct nsn as [|n rest]; [done|]. exfalso. apply (closed e He).
    destruct (proj1 (Hchar n)) as [Hinc Hn]; [left|].
    exists col, v, n. by split_and!. }
  rewrite (bool_decide_eq_false_2 (0 < length (@nil nat))) by (simpl; lia).
  done.
Qed.

Lemma visit_element_no_outside (e : nat) (st : pass1) :
  support !! e = Some true →
  visit_element grid_data support true true vertex_neighbors index_ptr e st
  = visit_element grid_data support true false vertex_neighbors index_ptr e st.
Proof.
  intros He. unfold visit_element. apply foldM_ext.
  intros j t. by apply visit_corner_no_outside.
Qed.

Lemma first_loop_no_outside (fuel position : nat) (st : pass1) :
  Forall (λ e, support !! e = Some true) (elements_in_support st) →
  first_loop grid_data support true true vertex_neighbors index_ptr
    fuel position st
  = first_loop grid_data support true false vertex_neighbors index_ptr
      fuel position st.
Proof.
  revert position st. induction fuel as [|fuel IH]; intros position st Hwork;
    [done|].
  cbn [first_loop].
  destruct (elements_in_support st !! position) as [e|] eqn:He; [|done].
  assert (Hs : support !! e = Some true).
  { rewrite Forall_forall in Hwork. apply Hwork.
    by eapply list_elem_of_lookup_2. }
  rewrite visit_element_no_outside by done.
  destruct (visit_element grid_data support true false vertex_neighbors
              index_ptr e st) as [st'|err] eqn:Hv; [|done].
  apply IH.
  by rewrite (visit_element_keeps_list grid_data support true false
                vertex_neighbors index_ptr eq_refl e st st' Hv).
Qed.

(** X8.  With both flags set, on a well-formed mesh none of whose support
    elements shares a vertex with an element outside the support, the
    extension branch is never taken: [_compute_p1_dof_map] returns, and
    it returns what it returns with [ensure_global_continuity] off. *)
Theorem closed_support_needs_no_extension (fuel : nat) :
  length (flatnonzero support) ≤ fuel →
  ∃ out, _compute_p1_dof_map grid_data support true true
           vertex_neighbors index_ptr fuel = Some (Ok out)
         ∧ _compute_p1_dof_map grid_data support true false
             vertex_neighbors index_ptr fuel = Some (Ok out).
Proof.
  intros Hfuel.
  destruct (run_total grid_data support true false vertex_neighbors index_ptr
              wf adj eq_refl fuel Hfuel) as (l & Hrun & _).
  exists (returned l).
  assert (Hsame : run grid_data support true true vertex_neighbors index_ptr fuel
                  = run grid_data support true false vertex_neighbors index_ptr fuel).
  { unfold run. rewrite first_loop_no_outside; [done|].
    apply Forall_forall. intros e He. by apply elem_of_flatnonzero in He. }
  unfold _compute_p1_dof_map. rewrite Hsame, Hrun. done.
Qed.

End ExtensionDichotomy.

Section ExtensionDichotomyWitnesses.
Import NumPy P1DofMap Topology Meshes.

Lemma extension_runs_forever_witness :
  _compute_p1_dof_map Chain.grid_data [true; false; true] true true
    Chain.vertex_neighbors Chain.index_ptr 1000 = None.
Proof.
  apply (extension_runs_forever Chain.grid_data [true; false; true]
           Chain.vertex_neighbors Chain.index_ptr chain_well_formed
           chain_adjacency 0 (0, 1, 2) 1 1);
    [reflexivity | reflexivity | | reflexivity | reflexivity].
  apply list_elem_of_In. simpl. tauto.
Defined.

Lemma two_triangles_full_well_formed :
  well_formed TwoTriangles.grid_data [true; true].
Proof.
  split.
  - reflexivity.
  - intros e t v Ht Hv.
    destruct e as [|[|e]]; simpl in Ht; try done; injection Ht as <-;
      apply list_elem_of_In in Hv; simpl in Hv; simpl; lia.
  - simpl. lia.
Defined.

Lemma two_triangles_adjacency :
  adjacency TwoTriangles.grid_data TwoTriangles.vertex_neighbors
    TwoTriangles.index_ptr.
Proof.
  apply (constructor_adjacency TwoTriangles.grid_data [true; true]
           two_triangles_full_well_formed [[0]; [0; 1]; [0; 1]; [1]]).
  reflexivity.
Defined.

Lemma closed_support_needs_no_extension_witness :
  ∃ out, _compute_p1_dof_map TwoTriangles.grid_data [true; true] true true
           TwoTriangles.vertex_neighbors TwoTriangles.index_ptr 2 = Some (Ok out)
         ∧ _compute_p1_dof_map TwoTriangles.grid_data [true; true] true false
             TwoTriangles.vertex_neighbors TwoTriangles.index_ptr 2
           = Some (Ok out).
Proof.
  apply (closed_support_needs_no_extension TwoTriangles.grid_data [true; true]
           TwoTriangles.vertex_neighbors TwoTriangles.index_ptr
           two_triangles_full_well_formed two_triangles_adjacency).
  - intros e He (t & v & n & _ & _ & _ & Hn).
    destruct n as [|[|n]]; simpl in Hn; discriminate.
  - vm_compute. lia.
Defined.

End ExtensionDichotomyWitnesses.


(** ** The DOF map of the continuous space, corner by corner *)

Lemma flatnonzero_from_all (a : list bool) (start : nat) :
  (∀ i, i < length a → a !! i = Some true) →
  NumPy.flatnonzero_from start a = seq start (length a).
Proof.
  revert start. induction a as [|b a IH]; intros start Hall; [done|].
  pose proof (Hall 0 ltac:(simpl; lia)) as H0. simpl in H0. injection H0 as ->.
  simpl. f_equal. apply IH. intros i Hi. apply (Hall (S i)). simpl. lia.
Qed.

Section CornerMap.
Import NumPy P1DofMap Topology Invariants Invariants2 Marking Provisional Outputs.
Context {R : Type}.
Variable grid_data : GridData R.
Variable support : list bool.
Variables include_boundary_dofs ensure_global_continuity : bool.
Variables vertex_neighbors index_ptr : list nat.

Hypothesis wf : well_formed grid_data support.
Hypothesis adj : adjacency grid_data vertex_neighbors index_ptr.
Hypothesis quiet : ensure_global_continuity && include_boundary_dofs = false.

Lemma corner_lt (e j v : nat) :
  corner grid_data e j v →
  e < number_of_elements grid_data ∧ j < 3 ∧ v < number_of_vertices grid_data
  ∧ incident_to grid_data v e = true.
Proof.
  intros (t & Ht & Hv).
  assert (Hin : v ∈ column t) by (by eapply list_elem_of_lookup_2).
  split_and!.
  - by eapply lookup_lt_Some.
  - apply lookup_lt_Some in Hv. by destruct t as [[? ?] ?].
  - by eapply (vertices_in_range _ _ wf).
  - apply incident_to_true. eauto.
Qed.

(** The whole outcome with the extension branch off, on a well-formed
    mesh: which vertices carry a DOF, and what each slot of each element
    holds. *)
Lemma run_on_corners (fuel : nat) :
  length (flatnonzero support) ≤ fuel →
  ∃ l, run grid_data support include_boundary_dofs ensure_global_continuity
         vertex_neighbors index_ptr fuel = Some (Ok l)
       ∧ length (vertex_is_dof (first l)) = number_of_vertices grid_data
       ∧ global_dof_count l = length (flatnonzero (vertex_is_dof (first l)))
       ∧ (∀ u, vertex_is_dof (first l) !! u = Some true
               ↔ assignable grid_data support include_boundary_dofs u = true
                 ∧ ∃ e, support !! e = Some true
                        ∧ incident_to grid_data u e = true)
       ∧ ∀ e j v, corner grid_data e j v →
           (support !! e = Some true →
            assignable grid_data support include_boundary_dofs v = true →
            entry (local_multipliers (second l)) e j = Some 1%Z
            ∧ ∃ k, flatnonzero (vertex_is_dof (first l)) !! k = Some v
                   ∧ entry (local2global_final (second l)) e j
                     = Some (Z.of_nat k))
           ∧ (¬ (support !! e = Some true
                 ∧ assignable grid_data support include_boundary_dofs v = true) →
              entry (local_multipliers (second l)) e j = Some 0%Z
              ∧ entry (local2global_final (second l)) e j = Some 0%Z).
Proof.
  intros Hfuel.
  destruct (run_total grid_data support include_boundary_dofs
              ensure_global_continuity vertex_neighbors index_ptr wf adj quiet
              fuel Hfuel) as (l & Hrun & Hlist & Hvid).
  destruct (run_provisional grid_data support include_boundary_dofs
              ensure_global_continuity vertex_neighbors index_ptr wf adj quiet
              fuel l Hrun Hfuel) as (_ & Hown & Hassign).
  destruct (run_outputs grid_data support include_boundary_dofs
              ensure_global_continuity vertex_neighbors index_ptr fuel l
              (vertices_fit _ _ wf) Hrun)
    as ([[_ Hlen] _] & _ & Hcount & ((_ & Hm & _) & (Hbin & Hone & Hzero) & _)
        & Hcomp).
  exists l. split_and!; try done.
  intros e j v Hc. split.
  - intros Hs Ha.
    pose proof (Hassign e j v Hs Hc Ha) as Hentry.
    assert (H1 : entry (local_multipliers (second l)) e j = Some 1%Z).
    { apply Hcomp.
      - rewrite Hlist. by apply elem_of_flatnonzero.
      - exists (Z.of_nat v). split; [done|lia]. }
    split; [done|].
    destruct (run_ranks grid_data support include_boundary_dofs
                ensure_global_continuity vertex_neighbors index_ptr fuel l e j
                (vertices_fit _ _ wf) Hrun H1) as (v' & k & Hv' & Hk & Hx).
    assert (v' = v) as -> by (rewrite Hentry in Hv'; injection Hv'; lia).
    eauto.
  - intros Hnot.
    destruct (corner_lt e j v Hc) as (He & Hj & _ & _).
    destruct (entry_is_Some grid_data _ e j Hm He Hj) as (row & m & _ & _ & Hentry).
    assert (m = 0%Z) as ->.
    { destruct (Hbin e j m Hentry) as [-> | ->]; [done|].
      exfalso. apply Hnot.
      destruct (Hone e j Hentry) as (z & d & Hz & Hne & _).
      destruct (Hown e j z Hz Hne) as (v' & Hc' & _ & Hs & Ha).
      destruct Hc as (t & Ht & Hv), Hc' as (t' & Ht' & Hv').
      assert (v' = v) as -> by congruence. done. }
    split; [done|]. by apply Hzero.
Qed.

(** X9.  The DOF map of the continuous space with the extension branch
    off, on a well-formed mesh.  [_compute_p1_dof_map] returns.  A vertex
    carries a DOF exactly when it is a corner of a support element and
    either boundary DOFs are included or all its elements are in the
    support.  A slot of a support element whose corner carries a DOF has
    multiplier 1 and holds the rank of the corner among the DOF vertices
    in ascending order; every other slot has multiplier 0 and holds 0. *)
Theorem continuous_dof_map_by_corner (fuel : nat) :
  length (flatnonzero support) ≤ fuel →
  ∃ l, run grid_data support include_boundary_dofs ensure_global_continuity
         vertex_neighbors index_ptr fuel = Some (Ok l)
       ∧ (∀ u, vertex_is_dof (first l) !! u = Some true
               ↔ assignable grid_data support include_boundary_dofs u = true
                 ∧ ∃ e, support !! e = Some true
                        ∧ incident_to grid_data u e = true)
       ∧ ∀ e j v, corner grid_data e j v →
           (support !! e = Some true →
            assignable grid_data support include_boundary_dofs v = true →
            entry (local_multipliers (second l)) e j = Some 1%Z
            ∧ ∃ k, flatnonzero (vertex_is_dof (first l)) !! k = Some v
                   ∧ entry (local2global_final (second l)) e j
                     = Some (Z.of_nat k))
           ∧ (¬ (support !! e = Some true
                 ∧ assignable grid_data support include_boundary_dofs v = true) →
              entry (local_multipliers (second l)) e j = Some 0%Z
              ∧ entry (local2global_final (second l)) e j = Some 0%Z).
Proof.
  intros Hfuel.
  destruct (run_on_corners fuel Hfuel) as (l & Hrun & _ & _ & Hvid & Hmap).
  by exists l.
Qed.

(** X10.  No DOF index is left unused: with the extension branch off, on
    a well-formed mesh, every index below the DOF count sits in some slot
    with multiplier 1. *)
Theorem every_dof_has_a_slot (fuel : nat) :
  length (flatnonzero support) ≤ fuel →
  ∃ l, run grid_data support include_boundary_dofs ensure_global_continuity
         vertex_neighbors index_ptr fuel = Some (Ok l)
       ∧ ∀ k, k < global_dof_count l →
           ∃ e j, entry (local_multipliers (second l)) e j = Some 1%Z
                  ∧ entry (local2global_final (second l)) e j
                    = Some (Z.of_nat k).
Proof.
  intros Hfuel.
  destruct (run_on_corners fuel Hfuel) as (l & Hrun & _ & Hcount & Hvid & Hmap).
  exists l. split; [done|]. intros k Hk. rewrite Hcount in Hk.
  destruct (lookup_lt_is_Some_2 _ _ Hk) as [v Hv].
  assert (Hin : v ∈ flatnonzero (vertex_is_dof (first l)))
    by (by eapply list_elem_of_lookup_2).
  apply elem_of_flatnonzero, Hvid in Hin as (Ha & e & Hs & Hinc).
  apply incident_to_true in Hinc as (t & Ht & Hvt).
  apply list_elem_of_lookup in Hvt as (j & Hj).
  destruct (Hmap e j v) as [Hpos _]; [by exists t|].
  destruct (Hpos Hs Ha) as (H1 & k' & Hk' & Hx).
  exists e, j. split; [done|].
  by rewrite (NoDup_lookup _ _ _ _ (NoDup_flatnonzero_from _ 0) Hv Hk').
Qed.

(** X11.  On the whole grid (every element in the support, every vertex
    a corner of some element) the continuous space has one DOF per
    vertex, DOF [v] is vertex [v], and [local2global] is the
    element-to-vertex table with multiplier 1 everywhere. *)
Theorem whole_grid_map_is_vertex_table (fuel : nat) :
  (∀ e, e < number_of_elements grid_data → support !! e = Some true) →
  (∀ v, v < number_of_vertices grid_data → referenced grid_data v = true) →
  length (flatnonzero support) ≤ fuel →
  ∃ l, run grid_data support include_boundary_dofs ensure_global_continuity
         vertex_neighbors index_ptr fuel = Some (Ok l)
       ∧ global_dof_count l = number_of_vertices grid_data
       ∧ ∀ e j v, corner grid_data e j v →
           entry (local2global_final (second l)) e j = Some (Z.of_nat v)
           ∧ entry (local_multipliers (second l)) e j = Some 1%Z.
Proof.
  intros Hfull Href Hfuel.
  destruct (run_on_corners fuel Hfuel) as (l & Hrun & Hlen & Hcount & Hvid & Hmap).
  assert (Hassign : ∀ v, assignable grid_data support include_boundary_dofs v
                         = true).
  { intros v. unfold assignable. apply orb_true_intro. right.
    apply interior_true. intros e He. apply in_support_true, Hfull.
    by eapply incident_to_lt. }
  assert (Hall : flatnonzero (vertex_is_dof (first l))
                 = seq 0 (number_of_vertices grid_data)).
  { unfold flatnonzero. rewrite <- Hlen. apply flatnonzero_from_all.
    intros v Hv. apply Hvid. split; [done|]. rewrite Hlen in Hv.
    apply Href, referenced_true in Hv as (e & He). exists e.
    split; [|done]. apply Hfull. by eapply incident_to_lt. }
  exists l. split_and!; [done | by rewrite Hcount, Hall, length_seq |].
  intros e j v Hc.
  destruct (corner_lt e j v Hc) as (He & _ & Hv & _).
  destruct (Hmap e j v Hc) as [Hpos _].
  destruct (Hpos (Hfull e He) (Hassign v)) as (H1 & k & Hk & Hx).
  split; [|done]. rewrite Hall in Hk.
  apply lookup_seq in Hk as [-> _]. done.
Qed.

End CornerMap.

Section BoundaryCount.
Import NumPy P1DofMap Topology Invariants Invariants2 Marking SupportVertices.
Context {R : Type}.
Variable grid_data : GridData R.
Variable support : list bool.
Variables vertex_neighbors index_ptr : list nat.

Lemma touches_support_true (v : nat) :
  touches_support grid_data support v = true
  ↔ ∃ e, support !! e = Some true ∧ incident_to grid_data v e = true.
Proof.
  unfold touches_support. rewrite existsb_exists. split.
  - intros (e & _ & [Hi Hs]%andb_prop). exists e.
    split; [by apply in_support_true | done].
  - intros (e & Hs & Hi). exists e. split.
    + apply in_seq. pose proof (incident_to_lt _ _ _ Hi). lia.
    + apply andb_true_intro. split; [done | by apply in_support_true].
Qed.

(** X12.  With boundary DOFs included (and no global continuity), on a
    well-formed mesh, the vertices that carry a DOF are the corners of
    the support elements, and the DOF count is their number. *)
Theorem boundary_dofs_count_support_vertices (fuel : nat) :
  well_formed grid_data support →
  adjacency grid_data vertex_neighbors index_ptr →
  length (flatnonzero support) ≤ fuel →
  ∃ l, run grid_data support true false vertex_neighbors index_ptr fuel
       = Some (Ok l)
       ∧ (∀ u, vertex_is_dof (first l) !! u = Some true
               ↔ touches_support grid_data support u = true)
       ∧ global_dof_count l = support_vertex_count grid_data support.
Proof.
  intros wf adj Hfuel.
  destruct (run_on_corners grid_data support true false vertex_neighbors
              index_ptr wf adj eq_refl fuel Hfuel)
    as (l & Hrun & Hlen & Hcount & Hvid & _).
  assert (Hchar : ∀ u, vertex_is_dof (first l) !! u = Some true
                       ↔ touches_support grid_data support u = true).
  { intros u. rewrite Hvid, touches_support_true. unfold assignable. simpl.
    naive_solver. }
  exists l. split_and!; try done.
  rewrite Hcount. unfold support_vertex_count. rewrite <- Hlen.
  apply length_flatnonzero_filter. intros u. rewrite Hchar. split.
  - intros Ht. split; [|done]. apply lookup_lt_is_Some.
    rewrite (proj2 (Hchar u) Ht). done.
  - by intros [_ ?].
Qed.

End BoundaryCount.

Section CornerMapWitnesses.
Import NumPy P1DofMap Topology Invariants2 Marking Provisional SupportVertices
  Meshes.

Lemma continuous_dof_map_by_corner_witness :
  ∃ l, run Chain.grid_data [true; false; true] false false
         Chain.vertex_neighbors Chain.index_ptr 2 = Some (Ok l)
       ∧ ∀ e j v, corner Chain.grid_data e j v →
           [true; false; true] !! e = Some true →
           assignable Chain.grid_data [true; false; true] false v = true →
           entry (local_multipliers (second l)) e j = Some 1%Z.
Proof.
  destruct (continuous_dof_map_by_corner Chain.grid_data [true; false; true]
              false false Chain.vertex_neighbors Chain.index_ptr
              chain_well_formed chain_adjacency eq_refl 2)
    as (l & Hrun & _ & Hmap).
  - vm_compute. lia.
  - exists l. split; [exact Hrun|].
    intros e j v Hc Hs Ha. exact (proj1 (proj1 (Hmap e j v Hc) Hs Ha)).
Defined.

Lemma every_dof_has_a_slot_witness :
  ∃ l, run Chain.grid_data [true; false; true] false false
         Chain.vertex_neighbors Chain.index_ptr 2 = Some (Ok l)
       ∧ ∀ k, k < global_dof_count l →
           ∃ e j, entry (local_multipliers (second l)) e j = Some 1%Z
                  ∧ entry (local2global_final (second l)) e j
                    = Some (Z.of_nat k).
Proof.
  apply (every_dof_has_a_slot Chain.grid_data [true; false; true]
           false false Chain.vertex_neighbors Chain.index_ptr
           chain_well_formed chain_adjacency eq_refl 2).
  vm_compute. lia.
Defined.

Lemma whole_grid_map_is_vertex_table_witness :
  ∃ l, run TwoTriangles.grid_data [true; true] false false
         TwoTriangles.vertex_neighbors TwoTriangles.index_ptr 2 = Some (Ok l)
       ∧ global_dof_count l = number_of_vertices TwoTriangles.grid_data
       ∧ ∀ e j v, corner TwoTriangles.grid_data e j v →
           entry (local2global_final (second l)) e j = Some (Z.of_nat v)
           ∧ entry (local_multipliers (second l)) e j = Some 1%Z.
Proof.
  apply (whole_grid_map_is_vertex_table TwoTriangles.grid_data [true; true]
           false false TwoTriangles.vertex_neighbors TwoTriangles.index_ptr
           two_triangles_full_well_formed two_triangles_adjacency eq_refl 2).
  - intros [|[|e]] He; [reflexivity | reflexivity | cbv in He; lia].
  - intros [|[|[|[|v]]]] Hv; try reflexivity. cbv in Hv. lia.
  - vm_compute. lia.
Defined.

Lemma boundary_dofs_count_support_vertices_witness :
  ∃ l, run Chain.grid_data [true; false; true] true false
         Chain.vertex_neighbors Chain.index_ptr 2 = Some (Ok l)
       ∧ (∀ u, vertex_is_dof (first l) !! u = Some true
               ↔ touches_support Chain.grid_data [true; false; true] u = true)
       ∧ global_dof_count l
         = support_vertex_count Chain.grid_data [true; false; true].
Proof.
  apply (boundary_dofs_count_support_vertices Chain.grid_data
           [true; false; true] Chain.vertex_neighbors Chain.index_ptr 2
           chain_well_formed chain_adjacency).
  vm_compute. lia.
Defined.

End CornerMapWitnesses.


(** ** The adjacency lists the constructor builds *)

Lemma concat_replicate_nil {A : Type} (n : nat) :
  concat (replicate n (@nil A)) = [].
Proof. induction n as [|n IH]; [done|]. simpl. exact IH. Qed.

Section NeighbourLists.
Import NumPy Topology ScalarSpaces Listing.
Context {R : Type}.
Variable grid : GridData R.

Lemma getitem_Raise {A : Type} (a : list A) (i : nat) (err : exn) :
  getitem a i = Raise err → err = IndexError ∧ length a ≤ i.
Proof.
  unfold getitem. destruct (a !! i) eqn:Hi; [done|].
  intros [= <-]. split; [done|]. by apply lookup_ge_None.
Qed.

Lemma append_index_Ok (index vertex : nat) (vn vn' : list (list nat)) :
  append_index index vertex vn = Ok vn' →
  vertex < length vn ∧ length vn' = length vn
  ∧ length (concat vn') = S (length (concat vn))
  ∧ ∀ v e, listed vn' v e ↔ listed vn v e ∨ (v = vertex ∧ e = index).
Proof.
  intros H.
  assert (Hlt : vertex < length vn).
  { unfold append_index in H. bind_step H as l Hl.
    apply getitem_Ok in Hl. by eapply lookup_lt_Some. }
  destruct (append_index_total index vertex vn Hlt) as (vn'' & H' & Hlen & Hchar).
  assert (vn'' = vn') as -> by congruence.
  split_and!; try done.
  unfold append_index in H. bind_step H as l Hl. injection H as <-.
  apply getitem_Ok in Hl.
  rewrite <- (take_drop_middle vn vertex l Hl) at 2.
  rewrite insert_take_drop by done.
  rewrite !concat_app, !concat_cons, !length_app. simpl. lia.
Qed.

Lemma fold_append_Ok (index : nat) (vs : list nat) (vn vn' : list (list nat)) :
  foldM (append_index index) vs vn = Ok vn' →
  Forall (λ v, v < length vn) vs ∧ length vn' = length vn
  ∧ length (concat vn') = length vs + length (concat vn)
  ∧ ∀ v e, listed vn' v e ↔ listed vn v e ∨ (e = index ∧ v ∈ vs).
Proof.
  revert vn. induction vs as [|u vs IH]; intros vn H; simpl in H.
  - injection H as <-. split_and!; try done.
    intros v e. rewrite elem_of_nil. naive_solver.
  - bind_step H as vn1 H1.
    destruct (append_index_Ok _ _ _ _ H1) as (Hu & Hl1 & Hc1 & Hchar1).
    destruct (IH _ H) as (Hvs & Hl & Hc & Hchar).
    split_and!.
    + constructor; [done|]. by rewrite <- Hl1.
    + lia.
    + simpl. lia.
    + intros v e. rewrite Hchar, Hchar1, elem_of_cons. naive_solver.
Qed.

Lemma fold_append_Raise (index : nat) (vs : list nat) (vn : list (list nat))
    (err : exn) :
  foldM (append_index index) vs vn = Raise err →
  err = IndexError ∧ ∃ v, v ∈ vs ∧ length vn ≤ v.
Proof.
  revert vn. induction vs as [|u vs IH]; intros vn H; simpl in H; [done|].
  destruct (append_index index u vn) as [vn1|err1] eqn:H1; cbn [bind] in H.
  - destruct (append_index_Ok _ _ _ _ H1) as (_ & Hl1 & _).
    destruct (IH _ H) as (-> & v & Hv & Hle).
    split; [done|]. exists v. rewrite elem_of_cons. split; [by right|lia].
  - injection H as <-. unfold append_index in H1.
    destruct (getitem vn u) as [l|err2] eqn:Hl; [done|].
    cbn [bind] in H1. injection H1 as <-.
    apply getitem_Raise in Hl as [-> Hle].
    split; [done|]. exists u. rewrite elem_of_cons. split; [by left|done].
Qed.

Abbreviation add_element' :=
  (λ index vn,
     do col <- getitem (elements grid) index;
     foldM (append_index index) (column col) vn).

Lemma collect_fold_Ok (n start : nat) (vn vn' : list (list nat)) :
  start + n ≤ number_of_elements grid →
  foldM add_element' (seq start n) vn = Ok vn' →
  length vn' = length vn
  ∧ length (concat vn') = 3 * n + length (concat vn)
  ∧ (∀ e t v, start ≤ e < start + n → elements grid !! e = Some t →
              v ∈ column t → v < length vn)
  ∧ ∀ v e, listed vn' v e
           ↔ listed vn v e
             ∨ (start ≤ e < start + n ∧ incident_to grid v e = true).
Proof.
  revert start vn. induction n as [|n IH]; intros start vn Hle H.
  - injection H as <-. split_and!; [done | done | intros; lia |].
    intros v e. split; [by left|]. intros [?|[? _]]; [done|lia].
  - cbn [seq foldM] in H. bind_step H as vn1 H1. bind_step H1 as t Ht.
    apply getitem_Ok in Ht.
    destruct (fold_append_Ok _ _ _ _ H1) as (Hvs & Hl1 & Hc1 & Hchar1).
    destruct (IH (S start) vn1) as (Hl & Hc & Hrange & Hchar); [lia|done|].
    assert (Hcol : length (column t) = 3) by (by destruct t as [[? ?] ?]).
    split_and!.
    + lia.
    + lia.
    + intros e t' v He Ht' Hv.
      destruct (decide (e = start)) as [->|Hne].
      * assert (t' = t) as -> by congruence.
        rewrite Forall_forall in Hvs. by apply Hvs.
      * rewrite <- Hl1. apply (Hrange e t' v); [lia|done..].
    + intros v e. rewrite Hchar, Hchar1. split.
      * intros [[?|[-> Hv]]|[Hr Hi]]; [by left | right | right].
        -- split; [lia|]. apply incident_to_true. eauto.
        -- split; [lia|done].
      * intros [?|[Hr Hi]]; [by left; left|].
        destruct (decide (e = start)) as [->|Hne].
        -- left. right. split; [done|].
           apply incident_to_true in Hi as (t' & Ht' & Hv). congruence.
        -- right. split; [lia|done].
Qed.

Lemma collect_fold_Raise (n start : nat) (vn : list (list nat)) (err : exn) :
  start + n ≤ number_of_elements grid →
  foldM add_element' (seq start n) vn = Raise err →
  err = IndexError.
Proof.
  revert start vn. induction n as [|n IH]; intros start vn Hle H; [done|].
  cbn [seq foldM] in H.
  destruct (add_element' start vn) as [vn1|err1] eqn:H1; cbn [bind] in H.
  - eapply (IH (S start)); [lia|done].
  - injection H as <-.
    destruct (getitem (elements grid) start) as [t|err2] eqn:Ht;
      cbn [bind] in H1.
    + by apply fold_append_Raise in H1 as [-> _].
    + injection H1 as <-. by apply getitem_Raise in Ht as [-> _].
Qed.

(** X13.  The loop that fills [vertex_neighbors] ends without an error
    exactly when every vertex index of the element table is below the
    number of vertices.  It then yields one list per vertex, list [v]
    holds exactly the elements that have [v] as a corner, and the lists
    have three entries per element in total.  Otherwise the error is an
    [IndexError]. *)
Theorem neighbour_lists_are_the_incidence :
  ((∀ e t v, elements grid !! e = Some t → v ∈ column t →
             v < number_of_vertices grid)
   ↔ ∃ lists, collect_neighbors grid = Ok lists)
  ∧ (∀ lists, collect_neighbors grid = Ok lists →
       length lists = number_of_vertices grid
       ∧ length (concat lists) = 3 * number_of_elements grid
       ∧ ∀ v e, listed lists v e ↔ incident_to grid v e = true)
  ∧ (∀ err, collect_neighbors grid = Raise err → err = IndexError).
Proof.
  assert (Hok : ∀ lists, collect_neighbors grid = Ok lists →
            length lists = number_of_vertices grid
            ∧ length (concat lists) = 3 * number_of_elements grid
            ∧ (∀ e t v, elements grid !! e = Some t → v ∈ column t →
                        v < number_of_vertices grid)
            ∧ ∀ v e, listed lists v e ↔ incident_to grid v e = true).
  { intros lists H. unfold collect_neighbors in H.
    destruct (collect_fold_Ok (number_of_elements grid) 0
                (replicate (number_of_vertices grid) []) lists)
      as (Hl & Hc & Hrange & Hchar); [lia|done|].
    rewrite length_replicate in Hl, Hrange.
    rewrite concat_replicate_nil in Hc. simpl in Hc. split_and!; [done | lia | |].
    - intros e t v Ht Hv. apply (Hrange e t v); [|done..].
      apply lookup_lt_Some in Ht. unfold number_of_elements. lia.
    - intros v e. rewrite Hchar. split.
      + intros [(l & Hl' & He)|[_ ?]]; [|done].
        apply lookup_replicate in Hl' as [-> _]. by apply elem_of_nil in He.
      + intros Hi. right. split; [|done].
        pose proof (incident_to_lt _ _ _ Hi). lia. }
  split_and!.
  - split.
    + intros Hrange.
      destruct (collect_neighbors grid) as [lists|err] eqn:H; [eauto|].
      exfalso. unfold collect_neighbors in H.
      assert (Hgen : ∀ n start vn,
                start + n ≤ number_of_elements grid →
                length vn = number_of_vertices grid →
                foldM add_element' (seq start n) vn ≠ Raise err).
      { clear H. induction n as [|n IHn]; intros start vn Hle Hlen H; [done|].
        cbn [seq foldM] in H.
        destruct (lookup_lt_is_Some_2 (elements grid) start) as [t Ht];
          [unfold number_of_elements in Hle; lia|].
        rewrite (proj2 (getitem_Ok _ _ _) Ht) in H. cbn [bind] in H.
        destruct (foldM (append_index start) (column t) vn) as [vn1|err1] eqn:H1;
          cbn [bind] in H.
        - destruct (fold_append_Ok _ _ _ _ H1) as (_ & Hl1 & _).
          apply (IHn (S start) vn1); [lia | lia | done].
        - apply fold_append_Raise in H1 as (_ & v & Hv & Hge).
          pose proof (Hrange start t v Ht Hv). lia. }
      apply (Hgen (number_of_elements grid) 0
               (replicate (number_of_vertices grid) [])); [lia| |done].
      apply length_replicate.
    + intros [lists H]. by destruct (Hok lists H) as (_ & _ & Hrange & _).
  - intros lists H. destruct (Hok lists H) as (? & ? & _ & ?). done.
  - intros err H. unfold collect_neighbors in H.
    eapply (collect_fold_Raise (number_of_elements grid) 0); [lia|done].
Qed.

End NeighbourLists.

Section OutOfRange.
Import NumPy Topology ScalarSpaces.
Context {R G : Type}.
Variable _process_segments :
  GridData R → option (list nat) → option (list nat) → option (list nat) →
  list bool * list R.
Variable invert_local2global : list (list Z) → list (list Z) → G.

(** X14.  An element that names a vertex index at or beyond the number
    of vertices makes [p1_continuous_function_space] raise an
    [IndexError] while it builds the adjacency lists, before
    [_compute_p1_dof_map] is called: whatever the flags and the support,
    and also with both flags set. *)
Theorem vertex_out_of_range_raises (grid : GridData R) (e : nat)
    (t : nat * nat * nat) (v : nat)
    (support_elements segments swapped_normals : option (list nat))
    (include_boundary_dofs ensure_global_continuity : bool) (fuel : nat) :
  elements grid !! e = Some t → v ∈ column t → number_of_vertices grid ≤ v →
  p1_continuous_function_space _process_segments invert_local2global fuel grid
    support_elements segments swapped_normals include_boundary_dofs
    ensure_global_continuity = Some (Raise IndexError).
Proof.
  intros Ht Hv Hge. unfold p1_continuous_function_space.
  destruct (_process_segments _ _ _ _) as [support nm].
  destruct (collect_neighbors grid) as [lists|err] eqn:H.
  - exfalso.
    unfold collect_neighbors in H.
    destruct (collect_fold_Ok grid (number_of_elements grid) 0
                (replicate (number_of_vertices grid) []) lists)
      as (_ & _ & Hrange & _); [lia|done|].
    rewrite length_replicate in Hrange.
    pose proof (Hrange e t v) as Hlt.
    apply lookup_lt_Some in Ht as Hlt'. unfold number_of_elements in Hlt.
    specialize (Hlt ltac:(lia) Ht Hv). lia.
  - unfold collect_neighbors in H.
    rewrite (collect_fold_Raise grid (number_of_elements grid) 0
               (replicate (number_of_vertices grid) []) err); [done|lia|done].
Qed.

End OutOfRange.

Lemma vertex_out_of_range_raises_witness :
  ScalarSpaces.p1_continuous_function_space (G := unit)
    (λ _ _ _ _, ([true], [])) (λ _ _, ()) 0
    (Meshes.mesh [(0, 1, 5)] 3) None None None true true
  = Some (Raise IndexError).
Proof.
  apply (vertex_out_of_range_raises (λ _ _ _ _, ([true], [])) (λ _ _, ())
           (Meshes.mesh [(0, 1, 5)] 3) 0 (0, 1, 5) 5 None None None true true 0).
  - reflexivity.
  - apply list_elem_of_In. simpl. tauto.
  - simpl. lia.
Defined.


(** ** The continuous space as the constructor returns it *)

Section ContinuousSpace.
Import NumPy Topology Invariants2 Marking Provisional ScalarSpaces.
Context {R G : Type}.
Variable _process_segments :
  GridData R → option (list nat) → option (list nat) → option (list nat) →
  list bool * list R.
Variable invert_local2global : list (list Z) → list (list Z) → G.
Variable grid : GridData R.
Variables support_elements segments swapped_normals : option (list nat).
Variables include_boundary_dofs ensure_global_continuity : bool.

Abbreviation processed :=
  (_process_segments grid support_elements segments swapped_normals).

(** X15.  On a well-formed mesh, unless both flags are set,
    [p1_continuous_function_space] returns a space once the iterations
    granted cover the support elements.  The space stores the support and
    the normal multipliers of [_process_segments], the two arrays of
    [_compute_p1_dof_map] for the adjacency the constructor built, and
    their inverse; a slot has multiplier 1 exactly when its element is in
    the support and its corner is assignable; the space is of order 1,
    is called [p1_continuous], and uses the shape set [p1_discontinuous]
    and the P1 surface gradient. *)
Theorem continuous_space_is_built (fuel : nat) :
  well_formed grid processed.1 →
  ensure_global_continuity && include_boundary_dofs = false →
  length (flatnonzero processed.1) ≤ fuel →
  ∃ sp lists out,
    p1_continuous_function_space _process_segments invert_local2global fuel
      grid support_elements segments swapped_normals include_boundary_dofs
      ensure_global_continuity = Some (Ok sp)
    ∧ collect_neighbors grid = Ok lists
    ∧ P1DofMap._compute_p1_dof_map grid processed.1 include_boundary_dofs
        ensure_global_continuity (Helpers.serialise_list_of_lists lists).1
        (Helpers.serialise_list_of_lists lists).2 fuel = Some (Ok out)
    ∧ local2global sp = out.1 ∧ local_multipliers sp = out.2
    ∧ global2local sp = Some (invert_local2global out.1 out.2)
    ∧ support sp = processed.1 ∧ normal_multipliers sp = processed.2
    ∧ (∀ e j v, corner grid e j v →
         (entry (local_multipliers sp) e j = Some 1%Z
          ↔ processed.1 !! e = Some true
            ∧ assignable grid processed.1 include_boundary_dofs v = true))
    ∧ codomain_dimension sp = 1 ∧ order sp = 1
    ∧ identifier sp = "p1_continuous"%string
    ∧ shapeset sp = "p1_discontinuous"%string
    ∧ numba_surface_gradient sp = Some p1_gradient
    ∧ collocation_points sp = None.
Proof.
  intros wf quiet Hfuel.
  destruct (collect_neighbors_total grid _ wf) as (lists & Hc & _ & _).
  pose proof (constructor_adjacency grid _ wf lists Hc) as adj.
  destruct (run_on_corners grid _ include_boundary_dofs ensure_global_continuity
              _ _ wf adj quiet fuel Hfuel) as (l & Hrun & _ & _ & _ & Hmap).
  unfold p1_continuous_function_space, P1DofMap._compute_p1_dof_map.
  revert wf adj Hfuel Hrun Hmap.
  destruct processed as [mask nm]. cbn [fst snd].
  intros wf adj Hfuel Hrun Hmap. rewrite Hc.
  destruct (Helpers.serialise_list_of_lists lists) as [vn ip] eqn:Hser.
  cbn [fst snd] in *. rewrite Hrun. cbn [P1DofMap.returned].
  eexists _, lists, _. split; [done|]. split; [done|].
  split; [rewrite Hser; cbn [fst snd]; rewrite Hrun; done|].
  cbn. split_and!; try done.
  intros e j v Hcorner. destruct (Hmap e j v Hcorner) as [Hpos Hneg]. split.
  - intros H1.
    destruct (decide (mask !! e = Some true
                      ∧ assignable grid mask include_boundary_dofs v = true))
      as [?|Hnot]; [done|].
    destruct (Hneg Hnot) as [H0 _]. congruence.
  - intros [Hs Ha]. by destruct (Hpos Hs Ha).
Qed.

End ContinuousSpace.

Lemma continuous_space_is_built_witness :
  ∃ sp : ScalarSpaces.Space unit unit,
    ScalarSpaces.p1_continuous_function_space
      (λ _ _ _ _, ([true; false; true], [])) (λ _ _, ()) 2
      Meshes.Chain.grid_data None None None true false = Some (Ok sp)
    ∧ ScalarSpaces.local_multipliers sp = [[1; 1; 1]; [0; 0; 0]; [1; 1; 1]]%Z
    ∧ ScalarSpaces.identifier sp = "p1_continuous"%string.
Proof.
  destruct (continuous_space_is_built (λ _ _ _ _, ([true; false; true], []))
              (λ _ _, ()) Meshes.Chain.grid_data None None None true false 2
              chain_well_formed eq_refl)
    as (sp & lists & out & Hsp & Hc & Hout & _ & Hlm & _ & _ & _ & _ & _ & _
        & Hid & _).
  - vm_compute. lia.
  - exists sp. split; [exact Hsp|]. split; [|exact Hid].
    rewrite Hlm. injection Hc as <-. injection Hout as <-. reflexivity.
Defined.


(** ** The discontinuous spaces share no DOF *)

Section Unshared.
Import NumPy ScalarSpaces Invariants2.
Context {R G : Type}.
Variable _process_segments :
  GridData R → option (list nat) → option (list nat) → option (list nat) →
  list bool * list R.
Variable invert_local2global : list (list Z) → list (list Z) → G.
Variable one_third : R.
Variable grid : GridData R.
Variables support_elements segments swapped_normals : option (list nat).

Abbreviation mask' :=
  ((_process_segments grid support_elements segments swapped_normals).1).

Hypothesis valid : length mask' = number_of_elements grid.
Hypothesis fits : (3 * Z.of_nat (number_of_elements grid) ≤ 2 ^ 32)%Z.

Lemma active_slot_rank (w : nat) (l2g lm : list (list Z)) :
  length lm = number_of_elements grid →
  (∀ k e, flatnonzero mask' !! k = Some e →
          l2g !! e = Some ((λ i, Z.of_nat (w * k + i)) <$> seq 0 w)) →
  (∀ (e : nat) (m : bool), mask' !! e = Some m →
          lm !! e = Some (replicate w (if m then 1%Z else 0%Z))) →
  ∀ e j x, entry lm e j = Some 1%Z → entry l2g e j = Some x →
           ∃ k, flatnonzero mask' !! k = Some e ∧ j < w
                ∧ x = Z.of_nat (w * k + j).
Proof.
  intros Hlen Hrow Hmult e j x H1 Hx. unfold entry in H1, Hx.
  destruct (lm !! e) as [mrow|] eqn:Hm; [|done]. simpl in H1.
  assert (He : e < length mask').
  { rewrite valid, <- Hlen. by eapply lookup_lt_Some. }
  destruct (lookup_lt_is_Some_2 _ _ He) as [m Hmask].
  rewrite (Hmult e m Hmask) in Hm. injection Hm as <-.
  apply lookup_replicate in H1 as [H1 Hj].
  destruct m; [|done].
  apply elem_of_flatnonzero, list_elem_of_lookup in Hmask as (k & Hk).
  exists k. split_and!; try done.
  rewrite (Hrow k e Hk) in Hx. simpl in Hx.
  rewrite list_lookup_fmap in Hx.
  rewrite (proj2 (lookup_seq 0 w j j)) in Hx by done.
  simpl in Hx. by injection Hx as <-.
Qed.

(** X16.  In the two discontinuous spaces no DOF is shared: two slots
    with multiplier 1 that hold the same DOF are the same slot of the
    same element. *)
Theorem discontinuous_dofs_are_not_shared :
  (∃ sp, p0_discontinuous_function_space _process_segments invert_local2global
           one_third grid support_elements segments swapped_normals = Ok sp
         ∧ ∀ e j e' j' x,
             entry (local_multipliers sp) e j = Some 1%Z →
             entry (local_multipliers sp) e' j' = Some 1%Z →
             entry (local2global sp) e j = Some x →
             entry (local2global sp) e' j' = Some x →
             e = e' ∧ j = j')
  ∧ (∃ sp, p1_discontinuous_function_space _process_segments
             invert_local2global grid support_elements segments
             swapped_normals = Ok sp
           ∧ ∀ e j e' j' x,
               entry (local_multipliers sp) e j = Some 1%Z →
               entry (local_multipliers sp) e' j' = Some 1%Z →
               entry (local2global sp) e j = Some x →
               entry (local2global sp) e' j' = Some x →
               e = e' ∧ j = j').
Proof.
  split.
  - destruct (p0_total _process_segments invert_local2global one_third grid
                support_elements segments swapped_normals valid)
      as (sp & Hsp & _ & Hlen & Hrow & Hmult & _); [lia|].
    exists sp. split; [done|]. intros e j e' j' x H1 H1' Hx Hx'.
    assert (Hrank := active_slot_rank 1 (local2global sp) (local_multipliers sp)
                       Hlen).
    destruct (Hrank) with (e := e) (j := j) (x := x) as (k & Hk & Hj & ->);
      [| |done|done|].
    { intros k0 e0 He0. rewrite (Hrow k0 e0 He0). simpl. do 3 f_equal. lia. }
    { intros e0 m He0. rewrite (Hmult e0 m He0). by destruct m. }
    destruct (Hrank) with (e := e') (j := j') (x := Z.of_nat (1 * k + j))
      as (k' & Hk' & Hj' & Heq); [| |done|done|].
    { intros k0 e0 He0. rewrite (Hrow k0 e0 He0). simpl. do 3 f_equal. lia. }
    { intros e0 m He0. rewrite (Hmult e0 m He0). by destruct m. }
    assert (k' = k) as -> by lia. split; [congruence|lia].
  - destruct (p1_discontinuous_total _process_segments invert_local2global grid
                support_elements segments swapped_normals valid fits)
      as (sp & Hsp & _ & Hlen & Hrow & Hmult & _).
    exists sp. split; [done|]. intros e j e' j' x H1 H1' Hx Hx'.
    assert (Hrank := active_slot_rank 3 (local2global sp) (local_multipliers sp)
                       Hlen).
    destruct (Hrank) with (e := e) (j := j) (x := x) as (k & Hk & Hj & ->);
      [| |done|done|].
    { intros k0 e0 He0. rewrite (Hrow k0 e0 He0). simpl.
      do 2 f_equal; lia. }
    { intros e0 m He0. rewrite (Hmult e0 m He0). by destruct m. }
    destruct (Hrank) with (e := e') (j := j') (x := Z.of_nat (3 * k + j))
      as (k' & Hk' & Hj' & Heq); [| |done|done|].
    { intros k0 e0 He0. rewrite (Hrow k0 e0 He0). simpl.
      do 2 f_equal; lia. }
    { intros e0 m He0. rewrite (Hmult e0 m He0). by destruct m. }
    assert (k' = k ∧ j' = j) as [-> ->] by lia. split; [congruence|done].
Qed.

End Unshared.

Lemma discontinuous_dofs_are_not_shared_witness :
  ∃ sp : ScalarSpaces.Space unit unit,
    ScalarSpaces.p1_discontinuous_function_space
      (λ _ _ _ _, ([true; false; true], [])) (λ _ _, ())
      Meshes.Chain.grid_data None None None = Ok sp
    ∧ ∀ e j e' j' x,
        Invariants2.entry (ScalarSpaces.local_multipliers sp) e j = Some 1%Z →
        Invariants2.entry (ScalarSpaces.local_multipliers sp) e' j' = Some 1%Z →
        Invariants2.entry (ScalarSpaces.local2global sp) e j = Some x →
        Invariants2.entry (ScalarSpaces.local2global sp) e' j' = Some x →
        e = e' ∧ j = j'.
Proof.
  apply (discontinuous_dofs_are_not_shared
           (λ _ _ _ _, ([true; false; true], [])) (λ _ _, ()) ()
           Meshes.Chain.grid_data None None None eq_refl).
  vm_compute. discriminate.
Defined.


(** ** The evaluator leaves nothing of its [np.empty] buffer *)

Section Buffer.
Import NumPy SurfaceGradient.
Context {R : Type}.
Variables (zero : R) (add mul : R → R → R).

(** X17.  On an element whose inverse-transpose Jacobian has three rows
    and [d] columns, with a reference gradient of shape [(1, d, 3, n)],
    the result of [_numba_p1_surface_gradient] does not depend on what
    [np.empty] happened to hold: all of the buffer is overwritten.  Nor
    does it depend on the two multiplier arguments, which are not read. *)
Theorem p1_surface_gradient_overwrites_buffer (u u' : R)
    (element_index : nat)
    (shapeset_gradient : list (list R) → list (list (list (list R))))
    (local_coordinates : list (list R)) (grid_data : GridData R)
    (local_multipliers local_multipliers' : list (list Z))
    (normal_multipliers normal_multipliers' : list R)
    (jac : list (list R)) (d n : nat) :
  jac_inv_trans grid_data !! element_index = Some jac →
  has_shape2 jac 3 d → 0 < d →
  shape1 local_coordinates = n →
  has_shape4 (shapeset_gradient local_coordinates) 1 d 3 n →
  _numba_p1_surface_gradient zero add mul u element_index shapeset_gradient
    local_coordinates grid_data local_multipliers normal_multipliers
  = _numba_p1_surface_gradient zero add mul u' element_index shapeset_gradient
      local_coordinates grid_data local_multipliers' normal_multipliers'.
Proof.
  intros Hjac [Hj3 Hjrows] Hd Hn (Ht1 & Htshape).
  destruct jac as [|j0 [|j1 [|j2 [|]]]]; try done.
  destruct (shapeset_gradient local_coordinates) as [|planes [|]] eqn:HT;
    try done.
  assert (Hjd : length j0 = d ∧ length j1 = d ∧ length j2 = d).
  { split_and!; apply Hjrows; set_solver. }
  assert (Hplanes : length planes = d
                    ∧ ∀ plane, plane ∈ planes →
                        length plane = 3 ∧ ∀ row, row ∈ plane → length row = n).
  { destruct (Htshape planes) as [Hlen Hrest]; [set_solver|]. done. }
  destruct (reference_slice shapeset_gradient local_coordinates j0 j1 j2
              planes d n Hjd HT Hplanes Hd 0) as (ref0 & S0 & A0 & D0 & N0 & R0); [lia|].
  destruct (reference_slice shapeset_gradient local_coordinates j0 j1 j2
              planes d n Hjd HT Hplanes Hd 1) as (ref1 & S1 & A1 & D1 & N1 & R1); [lia|].
  destruct (reference_slice shapeset_gradient local_coordinates j0 j1 j2
              planes d n Hjd HT Hplanes Hd 2) as (ref2 & S2 & A2 & D2 & N2 & R2); [lia|].
  rewrite (gradient_value zero add mul u element_index shapeset_gradient
             local_coordinates grid_data local_multipliers normal_multipliers
             j0 j1 j2 planes d n Hjac Hjd Hplanes Hd ref0 ref1 ref2) by done.
  rewrite (gradient_value zero add mul u' element_index shapeset_gradient
             local_coordinates grid_data local_multipliers' normal_multipliers'
             j0 j1 j2 planes d n Hjac Hjd Hplanes Hd ref0 ref1 ref2) by done.
  done.
Qed.

End Buffer.

Section BufferWitness.
Import NumPy SurfaceGradient.

Lemma p1_surface_gradient_overwrites_buffer_witness :
  _numba_p1_surface_gradient 0%Z Z.add Z.mul 7%Z 0
    (λ _, [[[[-1; -1]; [1; 1]; [0; 0]];
            [[-1; -1]; [0; 0]; [1; 1]];
            [[0; 0]; [0; 0]; [0; 0]]]]%Z) [[0; 1]; [0; 0]]%Z
    {| elements := [(0, 1, 2)]; number_of_vertices := 3;
       jac_inv_trans := [[[2; 0; 0]; [0; 2; 0]; [0; 0; 2]]%Z] |}
    [[1; 1; 1]%Z] [1%Z]
  = _numba_p1_surface_gradient 0%Z Z.add Z.mul (-3)%Z 0
      (λ _, [[[[-1; -1]; [1; 1]; [0; 0]];
              [[-1; -1]; [0; 0]; [1; 1]];
              [[0; 0]; [0; 0]; [0; 0]]]]%Z) [[0; 1]; [0; 0]]%Z
      {| elements := [(0, 1, 2)]; number_of_vertices := 3;
         jac_inv_trans := [[[2; 0; 0]; [0; 2; 0]; [0; 0; 2]]%Z] |}
      [] [].
Proof.
  apply (p1_surface_gradient_overwrites_buffer 0%Z Z.add Z.mul 7%Z (-3)%Z 0 _ _ _
           _ _ _ _ [[2; 0; 0]; [0; 2; 0]; [0; 0; 2]]%Z 3 2).
  - reflexivity.
  - split; [reflexivity|]. intros row Hrow.
    apply list_elem_of_In in Hrow. simpl in Hrow.
    destruct Hrow as [<-|[<-|[<-|[]]]]; reflexivity.
  - lia.
  - reflexivity.
  - split; [reflexivity|]. intros x Hx.
    apply list_elem_of_In in Hx. simpl in Hx. destruct Hx as [<-|[]].
    split; [reflexivity|]. intros y Hy.
    apply list_elem_of_In in Hy. simpl in Hy.
    destruct Hy as [<-|[<-|[<-|[]]]]; (split; [reflexivity|]); intros z Hz;
      apply list_elem_of_In in Hz; simpl in Hz;
      destruct Hz as [<-|[<-|[<-|[]]]]; reflexivity.
Defined.

End BufferWitness.


(** ** The DOF map depends on the adjacency through the incidence only *)

Section IncidenceOnly.
Import NumPy P1DofMap Topology Invariants Invariants2 Marking Provisional Outputs.
Context {R : Type}.
Variable grid_data : GridData R.
Variable support : list bool.
Variables include_boundary_dofs ensure_global_continuity : bool.

Lemma rows3_ext (m m' : list (list Z)) :
  rows3 grid_data m → rows3 grid_data m' →
  (∀ e j, e < number_of_elements grid_data → j < 3 →
          entry m e j = entry m' e j) →
  m = m'.
Proof.
  intros [Hlen Hrows] [Hlen' Hrows'] Hext. apply list_eq. intros e.
  destruct (decide (e < number_of_elements grid_data)) as [He|He].
  - destruct (lookup_lt_is_Some_2 m e) as [row Hrow]; [lia|].
    destruct (lookup_lt_is_Some_2 m' e) as [row' Hrow']; [lia|].
    rewrite Hrow, Hrow'. f_equal. apply list_eq. intros j.
    destruct (decide (j < 3)) as [Hj|Hj].
    + specialize (Hext e j He Hj). unfold entry in Hext.
      by rewrite Hrow, Hrow' in Hext.
    + rewrite !lookup_ge_None_2;
        [done | rewrite (Hrows' _ _ Hrow'); lia | rewrite (Hrows _ _ Hrow); lia].
  - by rewrite !lookup_ge_None_2 by lia.
Qed.

Lemma marks_ext (vid vid' : list bool) (P : nat → Prop) :
  length vid = length vid' →
  (∀ u, vid !! u = Some true ↔ P u) →
  (∀ u, vid' !! u = Some true ↔ P u) →
  vid = vid'.
Proof.
  intros Hlen HP HP'. apply list_eq. intros u.
  destruct (decide (u < length vid)) as [Hu|Hu].
  - destruct (lookup_lt_is_Some_2 vid u Hu) as [b Hb].
    destruct (lookup_lt_is_Some_2 vid' u) as [b' Hb']; [lia|].
    rewrite Hb, Hb'. f_equal.
    destruct b, b'; try done.
    + apply HP, HP' in Hb. congruence.
    + apply HP', HP in Hb'. congruence.
  - by rewrite !lookup_ge_None_2 by lia.
Qed.

(** X18.  With the extension branch off, on a well-formed mesh, what
    [_compute_p1_dof_map] returns is the same for any two adjacency
    arrays that list, for each vertex, the elements incident to it (in
    whatever order, with whatever repetitions), and for any number of
    iterations that covers the support elements. *)
Theorem dof_map_depends_on_incidence_only
    (vertex_neighbors index_ptr vertex_neighbors' index_ptr' : list nat)
    (fuel fuel' : nat) :
  well_formed grid_data support →
  ensure_global_continuity && include_boundary_dofs = false →
  adjacency grid_data vertex_neighbors index_ptr →
  adjacency grid_data vertex_neighbors' index_ptr' →
  length (flatnonzero support) ≤ fuel →
  length (flatnonzero support) ≤ fuel' →
  ∃ out,
    _compute_p1_dof_map grid_data support include_boundary_dofs
      ensure_global_continuity vertex_neighbors index_ptr fuel = Some (Ok out)
    ∧ _compute_p1_dof_map grid_data support include_boundary_dofs
        ensure_global_continuity vertex_neighbors' index_ptr' fuel'
      = Some (Ok out).
Proof.
  intros wf quiet adj adj' Hfuel Hfuel'.
  destruct (run_on_corners grid_data support include_boundary_dofs
              ensure_global_continuity vertex_neighbors index_ptr wf adj quiet
              fuel Hfuel) as (l & Hrun & Hlen & _ & Hvid & Hmap).
  destruct (run_on_corners grid_data support include_boundary_dofs
              ensure_global_continuity vertex_neighbors' index_ptr' wf adj' quiet
              fuel' Hfuel') as (l' & Hrun' & Hlen' & _ & Hvid' & Hmap').
  destruct (run_outputs grid_data support include_boundary_dofs
              ensure_global_continuity vertex_neighbors index_ptr fuel l
              (vertices_fit _ _ wf) Hrun)
    as (_ & _ & _ & ((Hf & Hm & _) & _) & _).
  destruct (run_outputs grid_data support include_boundary_dofs
              ensure_global_continuity vertex_neighbors' index_ptr' fuel' l'
              (vertices_fit _ _ wf) Hrun')
    as (_ & _ & _ & ((Hf' & Hm' & _) & _) & _).
  assert (Hsame : vertex_is_dof (first l) = vertex_is_dof (first l')).
  { eapply marks_ext; [lia | exact Hvid | exact Hvid']. }
  assert (Hentries : ∀ e j, e < number_of_elements grid_data → j < 3 →
            entry (local2global_final (second l)) e j
            = entry (local2global_final (second l')) e j
            ∧ entry (local_multipliers (second l)) e j
              = entry (local_multipliers (second l')) e j).
  { intros e j He Hj.
    destruct (lookup_lt_is_Some_2 (elements grid_data) e He) as [t Ht].
    destruct (lookup_lt_is_Some_2 (column t) j) as [v Hv];
      [by destruct t as [[? ?] ?]|].
    assert (Hc : corner grid_data e j v) by (by exists t).
    destruct (Hmap e j v Hc) as [Hpos Hneg].
    destruct (Hmap' e j v Hc) as [Hpos' Hneg'].
    destruct (decide (support !! e = Some true
                      ∧ assignable grid_data support include_boundary_dofs v
                        = true)) as [[Hs Ha]|Hnot].
    - destruct (Hpos Hs Ha) as (-> & k & Hk & ->).
      destruct (Hpos' Hs Ha) as (-> & k' & Hk' & ->).
      rewrite <- Hsame in Hk'.
      by rewrite (NoDup_lookup _ _ _ _ (NoDup_flatnonzero_from _ 0) Hk Hk').
    - destruct (Hneg Hnot) as [-> ->]. by destruct (Hneg' Hnot) as [-> ->]. }
  exists (returned l). unfold _compute_p1_dof_map. rewrite Hrun, Hrun'.
  split; [done|]. do 2 f_equal. unfold returned. f_equal.
  - symmetry. apply rows3_ext; [done..|]. intros e j He Hj.
    by destruct (Hentries e j He Hj).
  - symmetry. apply rows3_ext; [done..|]. intros e j He Hj.
    by destruct (Hentries e j He Hj).
Qed.

End IncidenceOnly.

Section IncidenceOnlyWitness.
Import NumPy P1DofMap Topology Meshes.

(** The adjacency of the two triangles with the lists of the shared
    vertices in the other order. *)
Lemma two_triangles_adjacency_swapped :
  adjacency TwoTriangles.grid_data [0; 1; 0; 1; 0; 1] TwoTriangles.index_ptr.
Proof.
  intros v Hv.
  destruct (two_triangles_adjacency v Hv) as (neighbors & Hn & Hchar).
  destruct v as [|[|[|[|v]]]]; [..|cbv in Hv; lia];
    (eexists; split; [reflexivity|]); intros e; rewrite <- Hchar;
    injection Hn as <-; vm_compute slice; set_solver.
Defined.

Lemma dof_map_depends_on_incidence_only_witness :
  ∃ out,
    _compute_p1_dof_map TwoTriangles.grid_data [true; true] false false
      TwoTriangles.vertex_neighbors TwoTriangles.index_ptr 2 = Some (Ok out)
    ∧ _compute_p1_dof_map TwoTriangles.grid_data [true; true] false false
        [0; 1; 0; 1; 0; 1] TwoTriangles.index_ptr 5 = Some (Ok out).
Proof.
  apply (dof_map_depends_on_incidence_only TwoTriangles.grid_data [true; true]
           false false _ _ _ _ 2 5 two_triangles_full_well_formed eq_refl
           two_triangles_adjacency two_triangles_adjacency_swapped).
  - vm_compute. lia.
  - vm_compute. lia.
Defined.

End IncidenceOnlyWitness.
